(** * fetch_curated_models.py: pricing matcher, model resolver, enrichment writer

    A shallow embedding of [scripts/fetch_curated_models.py] and the
    properties its specification states about it.

    Conventions of the embedding.
    - A Python [str] is a [string] of bytes (its UTF-8 encoding).  Substring
      search, [replace] and [split] on UTF-8 text agree with their code-point
      versions; [lower], [title], [strip] and the whitespace [split] are
      modelled on the ASCII range (case mapping of a-z and A-Z, the ASCII
      white space of [str.isspace]), bytes above 127 are left alone: they
      are the Python functions on strings of ASCII characters.
    - A Python [dict] read by key only is a record; a [dict] that is written
      out or iterated is an association list in insertion order.
    - Console output is not modelled.
    - The requests sent to the catalog carry a fresh [uuid4]; the source of
      these identifiers is a function [nat -> string] and the number of
      identifiers drawn so far is threaded through the calls. *)

From Stdlib Require Import ZArith Ascii String.
From Stdlib Require Import Floats.SpecFloat.
From stdpp Require Import base option list sets gmap strings.

Local Open Scope Z_scope.

(** ** Python string primitives *)

Module Py.

(** [str.isspace] on the ASCII range: TAB, LF, VT, FF, CR, FS, GS, RS, US, SP. *)
Definition isspace (c : ascii) : bool :=
  let n := nat_of_ascii c in
  ((9 <=? n)%nat && (n <=? 13)%nat) || ((28 <=? n)%nat && (n <=? 32)%nat).

Definition lower_char (c : ascii) : ascii :=
  let n := nat_of_ascii c in
  if ((65 <=? n)%nat && (n <=? 90)%nat) then ascii_of_nat (n + 32) else c.

(** [s.lower()] *)
Fixpoint lower (s : string) : string :=
  match s with
  | EmptyString => EmptyString
  | String c s' => String (lower_char c) (lower s')
  end.

Fixpoint lstrip (s : string) : string :=
  match s with
  | EmptyString => EmptyString
  | String c s' => if isspace c then lstrip s' else s
  end.

Fixpoint rstrip (s : string) : string :=
  match s with
  | EmptyString => EmptyString
  | String c s' =>
      match rstrip s' with
      | EmptyString => if isspace c then EmptyString else String c EmptyString
      | r => String c r
      end
  end.

(** [s.strip()] *)
Definition strip (s : string) : string := rstrip (lstrip s).

(** [sub in s] *)
Fixpoint contains (sub s : string) : bool :=
  String.prefix sub s ||
  match s with
  | EmptyString => false
  | String _ s' => contains sub s'
  end.

(** Left-to-right, non-overlapping replacement: [skip] counts the bytes of a
    match of [old] that are still to be dropped. *)
Fixpoint replace_go (old new : string) (skip : nat) (s : string) : string :=
  match s with
  | EmptyString => EmptyString
  | String c s' =>
      match skip with
      | S k => replace_go old new k s'
      | O =>
          if String.prefix old s
          then new +:+ replace_go old new (String.length old - 1) s'
          else String c (replace_go old new 0 s')
      end
  end.

Fixpoint interleave (new s : string) : string :=
  match s with
  | EmptyString => new
  | String c s' => new +:+ String c (interleave new s')
  end.

(** [s.replace(old, new)] *)
Definition replace (old new s : string) : string :=
  match old with
  | EmptyString => interleave new s
  | _ => replace_go old new 0 s
  end.

(** The fields of [s] between the bytes that satisfy [sep], empty fields
    included: [s.split(c)] for a one-byte separator [c]. *)
Fixpoint fields (sep : ascii -> bool) (s : string) : list string :=
  match s with
  | EmptyString => [EmptyString]
  | String c s' =>
      if sep c then EmptyString :: fields sep s'
      else match fields sep s' with
           | w :: ws => String c w :: ws
           | [] => [String c EmptyString]
           end
  end.

Definition nonempty (s : string) : bool :=
  match s with EmptyString => false | _ => true end.

(** [s.split()]: runs of white space separate, no empty words. *)
Definition split (s : string) : list string :=
  List.filter nonempty (fields isspace s).

(** [s.split(c)[0]] *)
Definition split_head (c : ascii) (s : string) : string :=
  match fields (Ascii.eqb c) s with
  | w :: _ => w
  | [] => EmptyString
  end.

(** [x in l] for a list of strings *)
Definition mem (x : string) (l : list string) : bool :=
  bool_decide (x ∈ l).

(** [set(l)] *)
Definition set (l : list string) : gset string := list_to_set l.

(** [len(s)] of a set *)
Definition len (s : gset string) : Z := Z.of_nat (size s).

End Py.

(** ** JSON values and Python dictionaries *)

(** A value read from or written to a JSON document.  [JNull] is Python's
    [None]; an object keeps its keys in insertion order. *)
#[local] Set Warnings "-register-all".

Inductive json :=
  | JNull
  | JBool (b : bool)
  | JInt (n : Z)
  | JFloat (f : spec_float)
  | JStr (s : string)
  | JList (l : list json)
  | JDict (d : list (string * json)).

(** Python truth value, as tested by [if v:] and [v or w]. *)
Definition truthy (v : json) : bool :=
  match v with
  | JNull => false
  | JBool b => b
  | JInt n => negb (n =? 0)
  | JFloat (S754_zero _) => false
  | JFloat _ => true
  | JStr s => Py.nonempty s
  | JList l => match l with [] => false | _ => true end
  | JDict d => match d with [] => false | _ => true end
  end.

Definition str_or_none (o : option string) : json :=
  match o with Some s => JStr s | None => JNull end.

(** [d[k]] / [k in d] *)
Fixpoint dict_get {V : Type} (k : string) (d : list (string * V)) : option V :=
  match d with
  | [] => None
  | (k', v) :: d' => if String.eqb k' k then Some v else dict_get k d'
  end.

(** [d[k] = v]: an existing key keeps its place, a new key goes last. *)
Fixpoint dict_set {V : Type} (k : string) (v : V) (d : list (string * V))
  : list (string * V) :=
  match d with
  | [] => [(k, v)]
  | (k', v') :: d' =>
      if String.eqb k' k then (k, v) :: d' else (k', v') :: dict_set k v d'
  end.

Definition pydict := list (string * json).

(** ** Pricing loader *)

(** An entry of ["models"] in pricing.json; [pe_name = None] when the entry
    has no ["name"] key, the other fields are [JNull] when absent. *)
Record price_entry := {
  pe_name : option string;
  pe_price_usd : json;
  pe_configuration : json;
  pe_discount : json
}.

Record price_record := {
  price_usd : json;
  configuration : json;
  discount : json
}.

Fixpoint load_models (models : list price_entry)
    (pricing : list (string * price_record)) : list (string * price_record) :=
  match models with
  | [] => pricing
  | model :: rest =>
      let name := Py.strip (Py.lower (default "" (pe_name model))) in
      load_models rest
        (dict_set name
           {| price_usd := pe_price_usd model;
              configuration := pe_configuration model;
              discount := pe_discount model |} pricing)
  end.

(** [pricing_file] is [None] when pricing.json does not exist, and otherwise
    the list [data.get("models", [])]. *)
Definition load_pricing_data (pricing_file : option (list price_entry))
  : list (string * price_record) :=
  match pricing_file with
  | Some models => load_models models []
  | None => []
  end.

(** ** Pricing matcher *)

(** The two bytes-sequences the source removes or rewrites, as they stand in
    the source file. *)
Definition middle_dots : string := "¬∑".
Definition odd_dash : string := "‚Äë".

Fixpoint first_variant (variations : list string)
    (PRICING_DATA : list (string * price_record)) : option price_record :=
  match variations with
  | [] => None
  | variant :: rest =>
      match dict_get variant PRICING_DATA with
      | Some r => Some r
      | None => first_variant rest PRICING_DATA
      end
  end.

(** [len(common_words) >= min(len(name_words), len(price_words)) * 0.6].
    The source multiplies in binary64; the product of a count below 2^50 by
    0.6 is the double nearest to the exact product, which is the integer
    itself when the exact product is one and otherwise lies strictly between
    the same two integers, so the comparison with an integer is the exact
    one, written here without division. *)
Definition significant (name_lower price_name : string) : bool :=
  let name_words := Py.set (Py.split name_lower) in
  let price_words := Py.set (Py.split price_name) in
  let common_words := name_words ∩ price_words in
  3 * Z.min (Py.len name_words) (Py.len price_words) <=? 5 * Py.len common_words.

Fixpoint partial_match (name_lower : string)
    (items : list (string * price_record)) : option price_record :=
  match items with
  | [] => None
  | (price_name, price_data) :: rest =>
      if Py.contains name_lower price_name || Py.contains price_name name_lower
      then if significant name_lower price_name
           then Some price_data
           else partial_match name_lower rest
      else partial_match name_lower rest
  end.

Definition pricing_variations (name_lower : string) : list string :=
  [ Py.replace "]" "" (Py.replace "[" "" name_lower);
    Py.strip (Py.replace middle_dots "" name_lower);
    Py.replace "-" " " name_lower;
    Py.strip (Py.split_head "(" name_lower) ].

Definition match_pricing (PRICING_DATA : list (string * price_record))
    (model_name : string) : option price_record :=
  match PRICING_DATA with
  | [] => None
  | _ =>
      let name_lower := Py.strip (Py.lower model_name) in
      match dict_get name_lower PRICING_DATA with
      | Some r => Some r
      | None =>
          match first_variant (pricing_variations name_lower) PRICING_DATA with
          | Some r => Some r
          | None => partial_match name_lower PRICING_DATA
          end
      end
  end.

(** ** The catalog search endpoint *)

(** One task descriptor of a request body. *)
Record task := {
  taskType : string;
  taskUUID : string;
  search : string;
  limit : Z;
  offset : Z
}.

(** The ["name"] entry of a result object: missing, a string, or anything
    else ([null], a number, ...), on which [.lower()] raises. *)
Inductive name_field :=
  | NameAbsent
  | NameStr (s : string)
  | NameOther.

(** A result object, by the keys the resolver reads.  [JNull] stands for a
    missing key as well as for [null] ([result.get(k)] is [None] in both
    cases); [r_tags = None] is a missing ["tags"]; [r_str] is the text
    [str(result)]. *)
Record result := {
  r_name : name_field;
  r_air : json;
  r_category : json;
  r_type : json;
  r_architecture : json;
  r_tags : option json;
  r_str : string
}.

(** What [resp.json()] gives, as far as the resolver looks at it. *)
Inductive payload :=
  | Invalid                         (* [resp.json()] or an accessor raises *)
  | NoData                          (* falsy, no ["data"], or empty ["data"] *)
  | Data (results : list result).   (* [data["data"][0].get("results", [])] *)

Inductive response :=
  | Failure                         (* [requests.post] raises *)
  | Reply (status_code : Z) (data : payload).

(** The world outside the script: the catalog endpoint, the collection pages
    as [scrape_collection_models] reads them, and the identifiers [uuid4]
    will return. *)
Record scraped_entry := {
  se_model_id : string;
  se_name : string
}.

Record world := {
  post : list task -> response;
  scrape_collection_models : string -> list scraped_entry;
  uuid_source : nat -> string
}.

(** ** Effects: the identifiers drawn so far, and exceptions *)

Definition State (A : Type) : Type := nat -> A * nat.

Definition ret {A : Type} (a : A) : State A := fun n => (a, n).

Definition bind {A B : Type} (m : State A) (k : A -> State B) : State B :=
  fun n => let (a, n') := m n in k a n'.

Notation "'let!' x ':=' m 'in' k" := (bind m (fun x => k))
  (at level 10, x name, m at level 100, k at level 200).

(** [str(uuid.uuid4())] *)
Definition uuid4 (w : world) : State string :=
  fun n => (uuid_source w n, S n).

Inductive res (A : Type) :=
  | Ok (a : A)
  | Exn.
Arguments Ok {A} a.
Arguments Exn {A}.

(** How one pass through a loop body ends. *)
Inductive step (A S : Type) :=
  | Return (a : A)
  | Next (s : S).
Arguments Return {A S} a.
Arguments Next {A S} s.

(** ** Model resolver *)

Record best_match := {
  air : json;
  name : option string;
  category : json;
  type : json;
  architecture : json;
  tags : json
}.

Definition search_variations (model_name : string) : list string :=
  [ model_name;
    Py.replace "]" "" (Py.replace "[" "" model_name);
    Py.replace odd_dash "-" model_name;
    Py.strip (Py.split_head "(" model_name) ].

Fixpoint dedup (search_variations search_terms : list string) : list string :=
  match search_variations with
  | [] => search_terms
  | term :: rest =>
      if Py.nonempty term && negb (Py.mem term search_terms)
      then dedup rest (search_terms ++ [term])
      else dedup rest search_terms
  end.

Definition search_terms (model_name : string) : list string :=
  dedup (search_variations model_name) [].

(** [result.get("name", "").lower()] *)
Definition result_name_lower (r : result) : res string :=
  match r_name r with
  | NameAbsent => Ok EmptyString
  | NameStr s => Ok (Py.lower s)
  | NameOther => Exn
  end.

(** The score before the creator bonus. *)
Definition base_score (model_name search_term result_name : string) : Z :=
  let search_lower := Py.lower search_term in
  let original_lower := Py.lower model_name in
  if String.eqb result_name original_lower || String.eqb result_name search_lower
  then 100
  else if Py.contains search_lower result_name || Py.contains result_name search_lower
  then 80
  else
    let words := Py.set (Py.split (Py.replace "-" " " original_lower)) in
    let result_words := Py.set (Py.split (Py.replace "-" " " result_name)) in
    let common_words := words ∩ result_words in
    if bool_decide (common_words = ∅) then 0 else Py.len common_words * 20.

(** [if creator and score > 0: ...] *)
Definition creator_bonus (creator : option string) (r : result) (score : Z) : Z :=
  match creator with
  | Some c =>
      if Py.nonempty c && (0 <? score)
      then if Py.contains (Py.lower c) (Py.lower (r_str r))
           then score + 10 else score
      else score
  | None => score
  end.

Definition score_result (model_name search_term : string)
    (creator : option string) (r : result) : res Z :=
  match result_name_lower r with
  | Exn => Exn
  | Ok result_name =>
      Ok (creator_bonus creator r (base_score model_name search_term result_name))
  end.

Definition make_match (r : result) : best_match :=
  {| air := r_air r;
     name := match r_name r with NameStr s => Some s | _ => None end;
     category := r_category r;
     type := r_type r;
     architecture := r_architecture r;
     tags := default (JList []) (r_tags r) |}.

(** The loop over the results of one search. *)
Fixpoint score_results (model_name search_term : string)
    (creator : option string) (results : list result)
    (best : option best_match) (best_score : Z)
  : res (step (option best_match) (option best_match * Z)) :=
  match results with
  | [] => Ok (Next (best, best_score))
  | r :: rest =>
      match score_result model_name search_term creator r with
      | Exn => Exn
      | Ok score =>
          let (best, best_score) :=
            if best_score <? score
            then (Some (make_match r), score)
            else (best, best_score) in
          if 100 <=? score
          then Ok (Return best)
          else score_results model_name search_term creator rest best best_score
      end
  end.

(** The loop over the search terms, and the statements after it. *)
Fixpoint search_loop (w : world) (model_name : string)
    (creator : option string) (limit : Z) (terms : list string)
    (best : option best_match) (best_score : Z)
  : State (res (option best_match)) :=
  match terms with
  | [] =>
      ret (Ok (if bool_decide (is_Some best) && (40 <=? best_score)
               then best else None))
  | search_term :: rest =>
      let! u := uuid4 w in
      let body :=
        [ {| taskType := "modelSearch"; taskUUID := u; search := search_term;
             limit := limit; offset := 0 |} ] in
      match post w body with
      | Failure => ret Exn
      | Reply status_code data =>
          if negb (status_code =? 200)
          then search_loop w model_name creator limit rest best best_score
          else
            match data with
            | Invalid => ret Exn
            | NoData =>
                search_loop w model_name creator limit rest best best_score
            | Data results =>
                match score_results model_name search_term creator results
                        best best_score with
                | Exn => ret Exn
                | Ok (Return m) => ret (Ok m)
                | Ok (Next (best, best_score)) =>
                    search_loop w model_name creator limit rest best best_score
                end
            end
      end
  end.

(** The body of the [try]. *)
Definition search_body (w : world) (model_name : string)
    (creator : option string) (limit : Z) : State (res (option best_match)) :=
  search_loop w model_name creator limit (search_terms model_name) None 0.

(** [search_model_details(model_name, creator, limit)]: an exception in the
    body is caught and turned into [None]. *)
Definition search_model_details (w : world) (model_name : string)
    (creator : option string) (limit : Z) : State (option best_match) :=
  let! r := search_body w model_name creator limit in
  ret (match r with Ok m => m | Exn => None end).

(** ** Curated list and collections *)

Record curated_entry := {
  ce_name : string;
  ce_creator : option string
}.

Definition POPULAR_MODELS : list curated_entry :=
  [ {| ce_name := "ImagineArt 1.5 Pro"; ce_creator := Some "ImagineArt" |};
    {| ce_name := "Qwen-Image-2512"; ce_creator := Some "Alibaba" |};
    {| ce_name := "Seedream 4.5"; ce_creator := Some "ByteDance" |};
    {| ce_name := "FLUX.2 [klein] 9B"; ce_creator := Some "Black Forest Labs" |};
    {| ce_name := "FLUX.2 [klein] 4B"; ce_creator := Some "Black Forest Labs" |};
    {| ce_name := "Kling IMAGE O1"; ce_creator := Some "Kling AI" |};
    {| ce_name := "Nano Banana Pro"; ce_creator := Some "Google" |};
    {| ce_name := "Z-Image-Turbo"; ce_creator := Some "Alibaba" |};
    {| ce_name := "Qwen-Image-Edit-Plus"; ce_creator := Some "Alibaba" |};
    {| ce_name := "FLUX.2 [dev]"; ce_creator := Some "Black Forest Labs" |};
    {| ce_name := "Qwen-Image-Edit-2511"; ce_creator := Some "Alibaba" |};
    {| ce_name := "Object Eraser"; ce_creator := None |};
    {| ce_name := "Riverflow 2.0 Pro"; ce_creator := Some "Sourceful" |};
    {| ce_name := "GPT Image 1.5"; ce_creator := Some "OpenAI" |};
    {| ce_name := "Wan2.6 Image"; ce_creator := Some "Alibaba" |};
    {| ce_name := "Midjourney V7"; ce_creator := Some "Midjourney" |};
    {| ce_name := "ImagineArt 1.5"; ce_creator := Some "ImagineArt" |};
    {| ce_name := "FLUX.2 [max]"; ce_creator := Some "Black Forest Labs" |};
    {| ce_name := "Imagen 4 Preview"; ce_creator := Some "Google" |};
    {| ce_name := "Imagen 4 Fast"; ce_creator := Some "Google" |};
    {| ce_name := "Riverflow 2 Preview Max"; ce_creator := Some "Sourceful" |};
    {| ce_name := "Riverflow 2 Preview Standard"; ce_creator := Some "Sourceful" |};
    {| ce_name := "Midjourney V6"; ce_creator := Some "Midjourney" |};
    {| ce_name := "Bria FIBO Edit"; ce_creator := Some "Bria" |} ].

Record collection := {
  col_name : string;
  col_url : string;
  col_output_file : string
}.

Definition SCRAPE_COLLECTIONS : list collection :=
  [ {| col_name := "Best for Text on Images";
       col_url := "https://runware.ai/collections/best-for-text-on-images";
       col_output_file := "best_models.json" |} ].

(** ** Enrichment writer *)

(** The statements under [if pricing:]. *)
Definition attach_pricing (enriched_model : pydict)
    (pricing : option price_record) : pydict :=
  match pricing with
  | Some p =>
      let m := dict_set "price_usd" (price_usd p) enriched_model in
      let m := if truthy (configuration p)
               then dict_set "price_configuration" (configuration p) m else m in
      if truthy (discount p)
      then dict_set "price_discount" (discount p) m else m
  | None => enriched_model
  end.

Definition record_by_name (PRICING_DATA : list (string * price_record))
    (model : curated_entry) (api_data : best_match) : pydict :=
  let model_name := ce_name model in
  let enriched_model :=
    [ ("name", JStr model_name);
      ("creator", str_or_none (ce_creator model));
      ("air", air api_data);
      ("category", category api_data);
      ("type", type api_data);
      ("architecture", architecture api_data);
      ("tags", tags api_data) ] in
  attach_pricing enriched_model (match_pricing PRICING_DATA model_name).

Fixpoint enrich_by_name_loop (PRICING_DATA : list (string * price_record))
    (w : world) (models_list : list curated_entry) (enriched : list pydict)
  : State (list pydict) :=
  match models_list with
  | [] => ret enriched
  | model :: rest =>
      let! api_data :=
        search_model_details w (ce_name model) (ce_creator model) 20 in
      match api_data with
      | Some api_data =>
          enrich_by_name_loop PRICING_DATA w rest
            (enriched ++ [record_by_name PRICING_DATA model api_data])
      | None => enrich_by_name_loop PRICING_DATA w rest enriched
      end
  end.

Definition enrich_models_by_name (PRICING_DATA : list (string * price_record))
    (w : world) (models_list : list curated_entry) : State (list pydict) :=
  enrich_by_name_loop PRICING_DATA w models_list [].

(** [api_data.get("name") or scraped_name] *)
Definition name_or (api_data : best_match) (scraped_name : string) : string :=
  match name api_data with
  | Some s => if Py.nonempty s then s else scraped_name
  | None => scraped_name
  end.

Definition record_by_id (PRICING_DATA : list (string * price_record))
    (model : scraped_entry) (api_data : best_match) : pydict :=
  let enriched_model :=
    [ ("model_id", JStr (se_model_id model));
      ("name", JStr (name_or api_data (se_name model)));
      ("air", air api_data);
      ("category", category api_data);
      ("type", type api_data);
      ("architecture", architecture api_data);
      ("tags", tags api_data) ] in
  attach_pricing enriched_model
    (match_pricing PRICING_DATA (name_or api_data (se_name model))).

(** The two searches of an entry: by scraped name, then by identifier. *)
Definition resolve_by_id (w : world) (model : scraped_entry)
  : State (option best_match) :=
  let! api_data :=
    if Py.nonempty (se_name model)
    then search_model_details w (se_name model) None 20
    else ret None in
  match api_data with
  | Some _ => ret api_data
  | None => search_model_details w (se_model_id model) None 20
  end.

Fixpoint enrich_by_id_loop (PRICING_DATA : list (string * price_record))
    (w : world) (models_list : list scraped_entry) (enriched : list pydict)
  : State (list pydict) :=
  match models_list with
  | [] => ret enriched
  | model :: rest =>
      let! api_data := resolve_by_id w model in
      match api_data with
      | Some api_data =>
          enrich_by_id_loop PRICING_DATA w rest
            (enriched ++ [record_by_id PRICING_DATA model api_data])
      | None => enrich_by_id_loop PRICING_DATA w rest enriched
      end
  end.

Definition enrich_models_by_id (PRICING_DATA : list (string * price_record))
    (w : world) (models_list : list scraped_entry) : State (list pydict) :=
  enrich_by_id_loop PRICING_DATA w models_list [].

(** ** The script *)

Definition output_document (source collection_name today : string)
    (enriched : list pydict) : json :=
  JDict [ ("source", JStr source);
          ("collection", JStr collection_name);
          ("date_extracted", JStr today);
          ("total_models", JInt (Z.of_nat (length enriched)));
          ("models", JList (List.map JDict enriched)) ].

(** The loop over [SCRAPE_COLLECTIONS]; [written] lists the files written so
    far, by name under the output directory, with the document dumped. *)
Fixpoint scrape_loop (PRICING_DATA : list (string * price_record))
    (w : world) (today : string) (collections : list collection)
    (written : list (string * json)) : State (list (string * json)) :=
  match collections with
  | [] => ret written
  | c :: rest =>
      match scrape_collection_models w (col_url c) with
      | [] => scrape_loop PRICING_DATA w today rest written
      | models =>
          let! enriched := enrich_models_by_id PRICING_DATA w models in
          let output_data :=
            output_document (col_url c) (col_name c) today enriched in
          scrape_loop PRICING_DATA w today rest
            (written ++ [(col_output_file c, output_data)])
      end
  end.

(** [__main__], with the module-level load of the pricing file before it. *)
Definition main (pricing_file : option (list price_entry)) (w : world)
    (today : string) : State (list (string * json)) :=
  let PRICING_DATA := load_pricing_data pricing_file in
  let! popular_enriched :=
    enrich_models_by_name PRICING_DATA w POPULAR_MODELS in
  let popular_output :=
    output_document "https://runware.ai/models" "Popular Models" today
      popular_enriched in
  scrape_loop PRICING_DATA w today SCRAPE_COLLECTIONS
    [("popular_models.json", popular_output)].

(** ** What a search meets *)

(** The request body of the search for [search_term] when [n] identifiers
    have been drawn. *)
Definition request (w : world) (limit : Z) (n : nat) (search_term : string)
  : list task :=
  [ {| taskType := "modelSearch"; taskUUID := uuid_source w n;
       search := search_term; limit := limit; offset := 0 |} ].

(** What the body of the [try] meets, in order: an exception raised by a
    request or by reading its reply, or a candidate to score, with the search
    term that returned it. *)
Inductive event :=
  | Raised
  | Candidate (search_term : string) (r : result).

Definition events_of (search_term : string) (resp : response) : list event :=
  match resp with
  | Failure => [Raised]
  | Reply status_code data =>
      if negb (status_code =? 200) then []
      else match data with
           | Invalid => [Raised]
           | NoData => []
           | Data results => List.map (Candidate search_term) results
           end
  end.

Fixpoint events_from (w : world) (limit : Z) (terms : list string) (n : nat)
  : list event :=
  match terms with
  | [] => []
  | t :: rest =>
      events_of t (post w (request w limit n t)) ++ events_from w limit rest (S n)
  end.

(** All the events of [search_model_details(model_name, _, limit)] called
    when [n] identifiers have been drawn, were no search to stop early. *)
Definition events (w : world) (model_name : string) (limit : Z) (n : nat)
  : list event :=
  events_from w limit (search_terms model_name) n.

(** The same two loops, over the events. *)
Fixpoint scan (model_name : string) (creator : option string)
    (es : list event) (best : option best_match) (best_score : Z)
  : res (option best_match) :=
  match es with
  | [] =>
      Ok (if bool_decide (is_Some best) && (40 <=? best_score)
          then best else None)
  | Raised :: _ => Exn
  | Candidate t r :: rest =>
      match score_result model_name t creator r with
      | Exn => Exn
      | Ok score =>
          let (best, best_score) :=
            if best_score <? score
            then (Some (make_match r), score)
            else (best, best_score) in
          if 100 <=? score then Ok best
          else scan model_name creator rest best best_score
      end
  end.

(** A candidate of the event list that scores [s]. *)
Definition scores (model_name : string) (creator : option string)
    (e : event) (s : Z) : Prop :=
  exists t r, e = Candidate t r /\ score_result model_name t creator r = Ok s.

(** ** The score, in the words of the specification *)

(** A string that does not begin with white space. *)
Definition starts_clean (s : string) : Prop :=
  match s with
  | EmptyString => True
  | String c _ => Py.isspace c = false
  end.

(** The words of a name: white space separates, and so do hyphens. *)
Definition words_of (s : string) : list string :=
  List.filter Py.nonempty
    (Py.fields (fun c => Py.isspace c || Ascii.eqb c "-") s).

(** How many distinct words two names share. *)
Definition shared_words (a b : string) : nat :=
  length (remove_dups (filter (fun w => w ∈ words_of b) (words_of a))).

(** [a] is a substring of [b], letter case ignored. *)
Definition within (a b : string) : bool :=
  Py.contains (Py.lower a) (Py.lower b).

(** 100 for an exact match of the original name or of the variant, 80 when
    candidate and variant contain one another, else 20 for each shared word;
    letter case is ignored throughout. *)
Definition stated_base (original variant candidate : string) : Z :=
  if decide (Py.lower candidate = Py.lower original \/
             Py.lower candidate = Py.lower variant)
  then 100
  else if within variant candidate || within candidate variant
  then 80
  else 20 * Z.of_nat (shared_words (Py.lower original) (Py.lower candidate)).

(** A creator hint is supplied and appears in the serialized candidate. *)
Definition creator_appears (creator : option string) (serialized : string)
  : bool :=
  match creator with
  | Some c => Py.nonempty c && within c serialized
  | None => false
  end.

(** The score as the specification words it: the bonus is added whenever the
    creator appears. *)
Definition stated_score (original variant : string) (creator : option string)
    (candidate serialized : string) : Z :=
  stated_base original variant candidate +
  (if creator_appears creator serialized then 10 else 0).

(** The score with the bonus kept for candidates whose base score is
    positive. *)
Definition amended_score (original variant : string) (creator : option string)
    (candidate serialized : string) : Z :=
  let base := stated_base original variant candidate in
  base + (if (0 <? base) && creator_appears creator serialized then 10 else 0).

(** The name a result is scored under: [result.get("name", "")]. *)
Definition candidate_name (r : result) : option string :=
  match r_name r with
  | NameAbsent => Some EmptyString
  | NameStr s => Some s
  | NameOther => None
  end.

(** A candidate that shares nothing with "Seedream 4.5" but whose fields
    mention the creator. *)
Definition unrelated_result : result :=
  {| r_name := NameStr "Imagen 4";
     r_air := JStr "google:2@1";
     r_category := JStr "checkpoint";
     r_type := JStr "base";
     r_architecture := JStr "imagen4";
     r_tags := Some (JList [JStr "bytedance"]);
     r_str := "{'name': 'Imagen 4', 'air': 'google:2@1', 'tags': ['bytedance']}" |}.

(** ** Sample catalogs *)

Definition imagen_exact : result :=
  {| r_name := NameStr "Imagen 4 Fast";
     r_air := JStr "google:2@3";
     r_category := JStr "checkpoint";
     r_type := JStr "base";
     r_architecture := JStr "imagen4";
     r_tags := Some (JList [JStr "fast"]);
     r_str := "{'name': 'Imagen 4 Fast', 'air': 'google:2@3'}" |}.

Definition imagen_partial : result :=
  {| r_name := NameStr "Imagen 4";
     r_air := JStr "google:2@1";
     r_category := JStr "checkpoint";
     r_type := JStr "base";
     r_architecture := JStr "imagen4";
     r_tags := None;
     r_str := "{'name': 'Imagen 4', 'air': 'google:2@1'}" |}.

Definition no_pages (url : string) : list scraped_entry := [].

Definition counting_uuids (n : nat) : string :=
  String (ascii_of_nat (48 + n)) "-uuid".

(** A catalog that answers every search with the partial match first and the
    exact one second. *)
Definition imagen_world : world :=
  {| post := fun _ => Reply 200 (Data [imagen_partial; imagen_exact]);
     scrape_collection_models := no_pages;
     uuid_source := counting_uuids |}.

(** A catalog whose requests all time out. *)
Definition unreachable_world : world :=
  {| post := fun _ => Failure;
     scrape_collection_models := no_pages;
     uuid_source := counting_uuids |}.

(** ** The pricing fallback, in the words of the specification *)

(** The distinct white-space-separated words of a name. *)
Definition distinct_words (s : string) : list string :=
  remove_dups (Py.split s).

(** The distinct words two names share. *)
Definition common_words (a b : string) : list string :=
  remove_dups (filter (fun w => w ∈ Py.split b) (Py.split a)).

(** The fallback accepts the stored [key] for the normalized [name]: one
    contains the other, and the shared words are at least 60% of the word
    count of the name with fewer words. *)
Definition fallback_accepts (name key : string) : Prop :=
  (Py.contains name key = true \/ Py.contains key name = true) /\
  (60 * Nat.min (length (distinct_words name)) (length (distinct_words key))
   <= 100 * length (common_words name key))%nat.

(** The key and the record the loader stores for an entry of the table. *)
Definition stored_key (e : price_entry) : string :=
  Py.strip (Py.lower (default "" (pe_name e))).

Definition stored_record (e : price_entry) : price_record :=
  {| price_usd := pe_price_usd e;
     configuration := pe_configuration e;
     discount := pe_discount e |}.

(** A small price table, with a duplicate of its first name. *)
Definition sample_prices : list price_entry :=
  [ {| pe_name := Some "FLUX.2 dev "; pe_price_usd := JInt 1;
       pe_configuration := JStr "1024x1024"; pe_discount := JNull |};
    {| pe_name := Some "Imagen 4 Fast"; pe_price_usd := JInt 2;
       pe_configuration := JNull; pe_discount := JNull |};
    {| pe_name := Some " flux.2 DEV"; pe_price_usd := JInt 3;
       pe_configuration := JNull; pe_discount := JStr "10%" |} ].

(** ** Reading the written documents *)

(** The records of the ["models"] list of a document. *)
Definition models_of (doc : json) : list pydict :=
  match doc with
  | JDict d =>
      match dict_get "models" d with
      | Some (JList l) =>
          omap (fun j => match j with JDict r => Some r | _ => None end) l
      | _ => []
      end
  | _ => []
  end.

(** A document without its ["date_extracted"] entry. *)
Definition without_date (doc : json) : json :=
  match doc with
  | JDict d => JDict (filter (fun kv => kv.1 <> "date_extracted") d)
  | _ => doc
  end.

(** ["total_models"] is the length of ["models"]. *)
Definition total_is_length (doc : json) : Prop :=
  exists d models,
    doc = JDict d /\
    dict_get "models" d = Some (JList models) /\
    dict_get "total_models" d = Some (JInt (Z.of_nat (length models))).

(** No record of the document has a null or missing ["air"]. *)
Definition no_null_air (doc : json) : Prop :=
  forall rec, rec ∈ models_of doc ->
    exists a, dict_get "air" rec = Some a /\ a <> JNull.

(** The entries of a list with the outcome of their searches, in order,
    starting when [n] identifiers have been drawn. *)
Fixpoint resolutions_by_name (w : world) (models_list : list curated_entry)
    (n : nat) : list (curated_entry * option best_match) :=
  match models_list with
  | [] => []
  | model :: rest =>
      let (api_data, n') :=
        search_model_details w (ce_name model) (ce_creator model) 20 n in
      (model, api_data) :: resolutions_by_name w rest n'
  end.

Fixpoint resolutions_by_id (w : world) (models_list : list scraped_entry)
    (n : nat) : list (scraped_entry * option best_match) :=
  match models_list with
  | [] => []
  | model :: rest =>
      let (api_data, n') := resolve_by_id w model n in
      (model, api_data) :: resolutions_by_id w rest n'
  end.

(** Every candidate the catalog ever returns has an identifier. *)
Definition always_air (w : world) : Prop :=
  forall body status_code results r,
    post w body = Reply status_code (Data results) -> r ∈ results ->
    r_air r <> JNull.

(** The two catalogs answer a search alike, whatever identifiers the two
    requests carry. *)
Definition same_answers (w1 w2 : world) : Prop :=
  forall u1 u2 search_term limit,
    post w1 [ {| taskType := "modelSearch"; taskUUID := u1;
                 search := search_term; limit := limit; offset := 0 |} ] =
    post w2 [ {| taskType := "modelSearch"; taskUUID := u2;
                 search := search_term; limit := limit; offset := 0 |} ].

(** ** More sample catalogs *)

(** A candidate named as the search asks, with no identifier. *)
Definition anonymous_result (search_term : string) : result :=
  {| r_name := NameStr search_term;
     r_air := JNull;
     r_category := JStr "checkpoint";
     r_type := JNull;
     r_architecture := JNull;
     r_tags := None;
     r_str := "{'name': '...', 'category': 'checkpoint'}" |}.

Definition search_of (body : list task) : string :=
  match body with
  | t :: _ => search t
  | [] => EmptyString
  end.

(** A catalog that returns, for every search, one candidate of exactly that
    name and without ["air"]. *)
Definition anonymous_world : world :=
  {| post := fun body => Reply 200 (Data [anonymous_result (search_of body)]);
     scrape_collection_models := no_pages;
     uuid_source := counting_uuids |}.

Definition text_page (url : string) : list scraped_entry :=
  [ {| se_model_id := "imagen-4-fast"; se_name := "Imagen 4 Fast" |};
    {| se_model_id := "unknown-model"; se_name := "" |} ].

Definition other_uuids (n : nat) : string :=
  String (ascii_of_nat (97 + n)) "-other".

(** Two worlds with the same catalog and pages, and different identifiers. *)
Definition imagen_pages_world : world :=
  {| post := fun _ => Reply 200 (Data [imagen_partial; imagen_exact]);
     scrape_collection_models := text_page;
     uuid_source := counting_uuids |}.

Definition imagen_pages_world' : world :=
  {| post := fun _ => Reply 200 (Data [imagen_partial; imagen_exact]);
     scrape_collection_models := text_page;
     uuid_source := other_uuids |}.

(** ** First occurrences *)

(** The elements of [l] not yet in [seen], appended to [seen] in the order
    in which they first occur. *)
Fixpoint first_seen_from (seen l : list string) : list string :=
  match l with
  | [] => seen
  | x :: rest =>
      if bool_decide (x ∈ seen)
      then first_seen_from seen rest
      else first_seen_from (seen ++ [x]) rest
  end.

Definition first_seen (l : list string) : list string :=
  first_seen_from [] l.

(** ** More sample candidates *)

(** A candidate that shares six words with "one two three four five six"
    in another order. *)
Definition shuffled_result : result :=
  {| r_name := NameStr "six five four three two one";
     r_air := JStr "acme:6@1";
     r_category := JNull;
     r_type := JNull;
     r_architecture := JNull;
     r_tags := None;
     r_str := "{'name': 'six five four three two one', 'air': 'acme:6@1'}" |}.

(** A candidate without a ["name"]. *)
Definition nameless_result : result :=
  {| r_name := NameAbsent;
     r_air := JStr "acme:0@1";
     r_category := JNull;
     r_type := JNull;
     r_architecture := JNull;
     r_tags := None;
     r_str := "{'air': 'acme:0@1'}" |}.

(** A candidate whose ["name"] is [null]. *)
Definition null_name_result : result :=
  {| r_name := NameOther;
     r_air := JStr "acme:0@2";
     r_category := JNull;
     r_type := JNull;
     r_architecture := JNull;
     r_tags := None;
     r_str := "{'name': None, 'air': 'acme:0@2'}" |}.

(** A catalog that returns the partial match and then a candidate with a
    null name. *)
Definition broken_world : world :=
  {| post := fun _ => Reply 200 (Data [imagen_partial; null_name_result]);
     scrape_collection_models := no_pages;
     uuid_source := counting_uuids |}.

(** ** The price entries of a record *)

(** The keys [attach_pricing] adds for a matched price. *)
Definition price_keys (pricing : option price_record) : list string :=
  match pricing with
  | Some p =>
      "price_usd" ::
      (if truthy (configuration p) then ["price_configuration"] else []) ++
      (if truthy (discount p) then ["price_discount"] else [])
  | None => []
  end.

(** A catalog that knows no model: every search is answered, without
    results. *)
Definition empty_world : world :=
  {| post := fun _ => Reply 200 (Data []);
     scrape_collection_models := text_page;
     uuid_source := counting_uuids |}.

(** ** Collection scraper *)

(** The double quote. *)
Definition dquote : ascii := "034"%char.

(** What follows [p] in [s], when [s] starts with [p]. *)
Fixpoint strip_prefix (p s : string) : option string :=
  match p with
  | EmptyString => Some s
  | String a p' =>
      match s with
      | String b s' => if Ascii.eqb a b then strip_prefix p' s' else None
      | EmptyString => None
      end
  end.

(** The longest prefix of [s] made of bytes that satisfy [keep], and the
    rest: what a greedy character class takes.  The classes of the two
    patterns are each followed by a byte they exclude, so no shorter choice
    can lead to a match. *)
Fixpoint span (keep : ascii -> bool) (s : string) : string * string :=
  match s with
  | EmptyString => (EmptyString, EmptyString)
  | String c s' =>
      if keep c
      then let (taken, rest) := span keep s' in (String c taken, rest)
      else (EmptyString, s)
  end.

Definition other_than (x : ascii) (c : ascii) : bool := negb (Ascii.eqb c x).

Definition link_open : string := "<a href=" +:+ String dquote "/models/".
Definition link_close : string := String dquote ">".

(** A match of [link_pattern] at the start of [s]: the identifier and the
    length of the match. *)
Definition match_link (s : string) : option (string * nat) :=
  match strip_prefix link_open s with
  | Some rest =>
      let (model_id, after) := span (other_than dquote) rest in
      if Py.nonempty model_id && String.prefix link_close after
      then Some (model_id,
                 (String.length link_open + String.length model_id + 2)%nat)
      else None
  | None => None
  end.

(** [re.findall(link_pattern, html)]: the matches from left to right, none
    overlapping another; [skip] counts the bytes of the last match still to
    pass. *)
Fixpoint findall_links_go (skip : nat) (s : string) : list string :=
  match s with
  | EmptyString => []
  | String _ s' =>
      match skip with
      | S k => findall_links_go k s'
      | O =>
          match match_link s with
          | Some (model_id, len) => model_id :: findall_links_go (len - 1) s'
          | None => findall_links_go 0 s'
          end
      end
  end.

Definition findall_links (html : string) : list string :=
  findall_links_go 0 html.

(** A match of the heading part of [model_section_pattern], an h3 element
    with a non-empty text free of tags, at the start of [s]: the text. *)
Definition match_heading (s : string) : option string :=
  match strip_prefix "<h3" s with
  | Some rest =>
      let (_, r1) := span (other_than ">") rest in
      match strip_prefix ">" r1 with
      | Some r2 =>
          let (text, r3) := span (other_than "<") r2 in
          if Py.nonempty text && String.prefix "</h3>" r3
          then Some text else None
      | None => None
      end
  | None => None
  end.

(** A match of one round of the repeated group, a tag and the text after
    it, at the start of [s]: what follows. *)
Definition match_tag (s : string) : option string :=
  match strip_prefix "<" s with
  | Some rest =>
      let (inside, r1) := span (other_than ">") rest in
      if Py.nonempty inside
      then match strip_prefix ">" r1 with
           | Some r2 => Some (snd (span (other_than "<") r2))
           | None => None
           end
      else None
  | None => None
  end.

(** The lazy repetition followed by the heading: the heading is tried
    first, one more round of the group only when it does not match. *)
Fixpoint match_lazy (fuel : nat) (s : string) : option string :=
  match fuel with
  | O => None
  | S fuel' =>
      match match_heading s with
      | Some text => Some text
      | None =>
          match match_tag s with
          | Some rest => match_lazy fuel' rest
          | None => None
          end
      end
  end.

(** A match of [model_section_pattern] at the start of [s]: group 1. *)
Definition match_section (model_id s : string) : option string :=
  match strip_prefix (link_open +:+ model_id +:+ link_close) s with
  | Some rest =>
      let after := snd (span (other_than "<") rest) in
      match_lazy (S (String.length after)) after
  | None => None
  end.

(** [re.search(model_section_pattern, html, re.DOTALL)], group 1 of the
    leftmost match. *)
Fixpoint search_section (model_id s : string) : option string :=
  match match_section model_id s with
  | Some text => Some text
  | None =>
      match s with
      | EmptyString => None
      | String _ s' => search_section model_id s'
      end
  end.

Definition is_lower (c : ascii) : bool :=
  let n := nat_of_ascii c in (97 <=? n)%nat && (n <=? 122)%nat.

Definition is_upper (c : ascii) : bool :=
  let n := nat_of_ascii c in (65 <=? n)%nat && (n <=? 90)%nat.

Definition upper_char (c : ascii) : ascii :=
  if is_lower c then ascii_of_nat (nat_of_ascii c - 32) else c.

(** [s.title()] on the ASCII range: a letter (a-z, A-Z) after a letter is
    lowered, any other letter is raised; [in_word] tells whether the byte
    before was a letter.  Bytes above 127 are left alone and count as no
    letter, so this is [str.title] on strings for which [isascii] holds. *)
Fixpoint title_go (in_word : bool) (s : string) : string :=
  match s with
  | EmptyString => EmptyString
  | String c s' =>
      if is_lower c || is_upper c
      then String (if in_word then Py.lower_char c else upper_char c)
             (title_go true s')
      else String c (title_go false s')
  end.

Definition title (s : string) : string := title_go false s.

(** What [requests.get] gives for a page. *)
Inductive page :=
  | GetFails                                     (* [requests.get] raises *)
  | Got (status_code : Z) (text : string).

(** The loop over the identifiers found. *)
Fixpoint scrape_ids (html : string) (ids : list string) (seen : gset string)
    (models : list scraped_entry) : list scraped_entry :=
  match ids with
  | [] => models
  | model_id :: rest =>
      if bool_decide (model_id ∈ seen)
      then scrape_ids html rest seen models
      else
        let seen := seen ∪ {[ model_id ]} in
        let model_name :=
          match search_section model_id html with
          | Some text => Py.strip text
          | None => title (Py.replace "-" " " model_id)
          end in
        scrape_ids html rest seen
          (models ++ [ {| se_model_id := model_id; se_name := model_name |} ])
  end.

(** The body of [scrape_collection_models], given what the request for the
    page returns; [raise_for_status] raises for the codes 400 to 599, and
    any exception gives the empty list.  The ["air": None] of each entry,
    which nothing reads, is not kept. *)
Definition scrape_page (p : page) : list scraped_entry :=
  match p with
  | GetFails => []
  | Got status_code html =>
      if (400 <=? status_code) && (status_code <? 600) then []
      else scrape_ids html (findall_links html) ∅ []
  end.

(** A page with two model cards and a repeated link. *)
Definition sample_html : string :=
  "<div><a href=" +:+ String dquote "/models/imagen-4-fast" +:+ link_close
  +:+ "<img src=x><div class=card><h3 class=t> Imagen 4 Fast </h3></div></a>"
  +:+ "<a href=" +:+ String dquote "/models/flux-2-dev" +:+ link_close
  +:+ "FLUX</a><a href=" +:+ String dquote "/models/imagen-4-fast"
  +:+ link_close +:+ "again</a></div>".

(** [c in s], for one byte. *)
Fixpoint has (c : ascii) (s : string) : bool :=
  match s with
  | EmptyString => false
  | String a s' => Ascii.eqb a c || has c s'
  end.

(** The link to a model, as [link_pattern] wants it. *)
Definition link_to (model_id : string) : string :=
  link_open +:+ model_id +:+ link_close.

(** A collection page that cannot be fetched, and a world that scrapes it. *)
Definition no_fetch (url : string) : page := GetFails.

Definition offline_world : world :=
  {| post := fun _ => Failure;
     scrape_collection_models := fun url => scrape_page (no_fetch url);
     uuid_source := counting_uuids |}.

(** ** When a search raises, in terms of its events *)

(** An event at which the body of the [try] raises: a request that fails, a
    reply that cannot be read, or a candidate whose name is no string. *)
Definition raising (model_name : string) (creator : option string)
    (e : event) : Prop :=
  e = Raised \/
  exists t r, e = Candidate t r /\ score_result model_name t creator r = Exn.

(** Events that are all candidates scored below 100: the loops run through
    them without returning. *)
Definition below_100 (model_name : string) (creator : option string)
    (es : list event) : Prop :=
  forall e, e ∈ es -> exists s, scores model_name creator e s /\ s < 100.

(** The search meets a raising event before any candidate reaches 100. *)
Definition raises (model_name : string) (creator : option string)
    (es : list event) : Prop :=
  exists pre e post,
    es = pre ++ e :: post /\ below_100 model_name creator pre /\
    raising model_name creator e.

(** A catalog that answers every search with a weaker candidate before and
    after the partial match. *)
Definition imagen_mixed_world : world :=
  {| post := fun _ =>
       Reply 200 (Data [imagen_exact; imagen_partial; imagen_exact]);
     scrape_collection_models := no_pages;
     uuid_source := counting_uuids |}.

(** [s.isascii()]. *)
Fixpoint isascii (s : string) : bool :=
  match s with
  | EmptyString => true
  | String c s' => (nat_of_ascii c <? 128)%nat && isascii s'
  end.

(** A collection page that yields one model. *)
Definition flux_page (url : string) : list scraped_entry :=
  [ {| se_model_id := "flux-2-dev"; se_name := "Flux 2 Dev" |} ].

(** The anonymous catalog, with a collection page of one model. *)
Definition anonymous_pages_world : world :=
  {| post := fun body => Reply 200 (Data [anonymous_result (search_of body)]);
     scrape_collection_models := flux_page;
     uuid_source := counting_uuids |}.

(** * Properties *)

Example py_split_1 : Py.split "  imagen 4   fast " = ["imagen"; "4"; "fast"].
Proof. reflexivity. Qed.
Example py_replace_1 : Py.replace "]" "" (Py.replace "[" "" "FLUX.2 [dev]") = "FLUX.2 dev".
Proof. reflexivity. Qed.
Example py_replace_2 : Py.replace "ab" "x" "aababab" = "axxx".
Proof. reflexivity. Qed.
Example py_strip_1 : Py.strip "  a b  " = "a b".
Proof. reflexivity. Qed.
Example py_head_1 : Py.strip (Py.split_head "(" "Seedream 4.5 (beta)") = "Seedream 4.5".
Proof. reflexivity. Qed.
Example py_len_1 : Py.len (Py.set ["a"; "b"; "a"] ∩ Py.set ["b"; "c"; "a"]) = 2.
Proof. vm_compute. reflexivity. Qed.
Example py_lower_1 : Py.lower "FLUX.2 [Dev]" = "flux.2 [dev]".
Proof. reflexivity. Qed.

Example middle_dots_bytes : String.length middle_dots = 5%nat.
Proof. reflexivity. Qed.
Example odd_dash_bytes : String.length odd_dash = 7%nat.
Proof. reflexivity. Qed.

(** ** The resolver as a scan of its events *)

Lemma score_results_scan model_name t creator rs es b bs :
  scan model_name creator (List.map (Candidate t) rs ++ es) b bs =
  match score_results model_name t creator rs b bs with
  | Exn => Exn
  | Ok (Return m) => Ok m
  | Ok (Next (b', bs')) => scan model_name creator es b' bs'
  end.
Proof.
  revert b bs. induction rs as [|r rs IH]; intros b bs; simpl; [done|].
  destruct (score_result model_name t creator r) as [sc|]; [|done].
  destruct (bs <? sc); destruct (100 <=? sc); auto.
Qed.

Lemma search_loop_scan w model_name creator limit terms b bs n :
  fst (search_loop w model_name creator limit terms b bs n) =
  scan model_name creator (events_from w limit terms n) b bs.
Proof.
  revert b bs n. induction terms as [|t terms IH]; intros b bs n; [done|].
  cbn [search_loop events_from]. unfold bind, uuid4.
  change [{| taskType := "modelSearch"; taskUUID := uuid_source w n;
             search := t; limit := limit; offset := 0 |}]
    with (request w limit n t).
  destruct (post w (request w limit n t)) as [|code data]; [done|].
  cbn [events_of]. destruct (negb (code =? 200)); [apply IH|].
  destruct data as [| |results]; [done|apply IH|].
  rewrite score_results_scan.
  destruct (score_results model_name t creator results b bs)
    as [[m|[b' bs']]|]; [done|apply IH|done].
Qed.

Lemma search_body_scan w model_name creator limit n :
  fst (search_body w model_name creator limit n) =
  scan model_name creator (events w model_name limit n) None 0.
Proof. apply search_loop_scan. Qed.

Lemma search_model_details_scan w model_name creator limit n :
  fst (search_model_details w model_name creator limit n) =
  match scan model_name creator (events w model_name limit n) None 0 with
  | Ok m => m
  | Exn => None
  end.
Proof.
  unfold search_model_details, bind. rewrite <- search_body_scan.
  destruct (search_body w model_name creator limit n) as [r n']. done.
Qed.

(** What a successful scan returns: either the match it started with, never
    beaten, or the first candidate that reaches the final best score. *)
Lemma scan_sound model_name creator es : forall b bs m,
  bs < 100 ->
  scan model_name creator es b bs = Ok (Some m) ->
  (b = Some m /\ 40 <= bs /\
   forall e, e ∈ es -> exists s', scores model_name creator e s' /\ s' <= bs /\ s' < 100) \/
  (exists pre t r post s,
     es = pre ++ Candidate t r :: post /\ m = make_match r /\
     score_result model_name t creator r = Ok s /\ bs < s /\ 40 <= s /\
     (forall e, e ∈ pre -> exists s', scores model_name creator e s' /\ s' < s /\ s' < 100) /\
     (s < 100 -> forall e, e ∈ post -> exists s', scores model_name creator e s' /\ s' <= s)).
Proof.
  induction es as [|e es IH]; intros b bs m Hbs Hscan; cbn [scan] in Hscan.
  - left. destruct (bool_decide (is_Some b)); [|done].
    destruct (40 <=? bs) eqn:H40; [|done]. simpl in Hscan.
    split_and!; [congruence|lia|]. intros e He. by apply elem_of_nil in He.
  - destruct e as [|t r]; [done|].
    destruct (score_result model_name t creator r) as [sc|] eqn:Hsc; [|done].
    destruct (bs <? sc) eqn:Hlt.
    + apply Z.ltb_lt in Hlt. destruct (100 <=? sc) eqn:H100.
      * apply Z.leb_le in H100. right.
        exists [], t, r, es, sc. split_and!; [done|congruence|done|lia|lia| |lia].
        intros e He. by apply elem_of_nil in He.
      * apply Z.leb_gt in H100.
        destruct (IH _ _ _ H100 Hscan) as
          [(Hb & H40 & Hall)|(pre & t' & r' & post & s & -> & -> & Hs & Hlt' & H40 & Hpre & Hpost)].
        -- right. exists [], t, r, es, sc.
           split_and!; [done|congruence|done|lia|lia| |].
           ++ intros e He. by apply elem_of_nil in He.
           ++ intros _ e He. destruct (Hall e He) as (s' & ? & ? & ?). eauto.
        -- right. exists (Candidate t r :: pre), t', r', post, s.
           split_and!; [done|done|done|lia|lia| |done].
           intros e [->|He]%elem_of_cons; [|by apply Hpre].
           exists sc. split_and!; [by exists t, r|lia|lia].
    + apply Z.ltb_ge in Hlt. destruct (100 <=? sc) eqn:H100.
      * apply Z.leb_le in H100. lia.
      * apply Z.leb_gt in H100.
        destruct (IH _ _ _ Hbs Hscan) as
          [(Hb & H40 & Hall)|(pre & t' & r' & post & s & -> & -> & Hs & Hlt' & H40 & Hpre & Hpost)].
        -- left. split_and!; [done|done|].
           intros e [->|He]%elem_of_cons; [|by apply Hall].
           exists sc. split_and!; [by exists t, r|lia|lia].
        -- right. exists (Candidate t r :: pre), t', r', post, s.
           split_and!; [done|done|done|lia|lia| |done].
           intros e [->|He]%elem_of_cons; [|by apply Hpre].
           exists sc. split_and!; [by exists t, r|lia|lia].
Qed.

(** A scan that raises nothing returns a match as soon as a candidate, or the
    match it started with, reaches 40. *)
Lemma scan_complete model_name creator es : forall b bs,
  bs < 100 -> (0 < bs -> is_Some b) ->
  scan model_name creator es b bs <> Exn ->
  (40 <= bs \/ exists e s, e ∈ es /\ scores model_name creator e s /\ 40 <= s) ->
  exists m, scan model_name creator es b bs = Ok (Some m).
Proof.
  induction es as [|e es IH]; intros b bs Hbs Hb Hne Hex; cbn [scan] in *.
  - destruct Hex as [H40|(e & s & He & _)]; [|by apply elem_of_nil in He].
    destruct (Hb ltac:(lia)) as [m ->]. exists m.
    rewrite bool_decide_true by eauto.
    assert ((40 <=? bs) = true) as -> by lia. done.
  - destruct e as [|t r]; [done|].
    destruct (score_result model_name t creator r) as [sc|] eqn:Hsc; [|done].
    destruct (bs <? sc) eqn:Hlt.
    + apply Z.ltb_lt in Hlt. destruct (100 <=? sc) eqn:H100; [eauto|].
      apply Z.leb_gt in H100. apply IH; [lia|eauto|done|].
      destruct Hex as [H40|(e & s & [->|He]%elem_of_cons & Hs & H40)].
      * left; lia.
      * destruct Hs as (t' & r' & [= <- <-] & Hs). left. congruence.
      * right. eauto.
    + apply Z.ltb_ge in Hlt. destruct (100 <=? sc) eqn:H100.
      { apply Z.leb_le in H100. lia. }
      apply IH; [done|done|done|].
      destruct Hex as [H40|(e & s & [->|He]%elem_of_cons & Hs & H40)].
      * by left.
      * destruct Hs as (t' & r' & [= <- <-] & Hs). left.
        assert (s = sc) by congruence. lia.
      * right. eauto.
Qed.

(** The first candidate to reach 100 is returned, whatever follows it. *)
Lemma scan_short_circuit model_name creator pre t r post s : forall b bs,
  bs < 100 ->
  (forall e, e ∈ pre -> exists s', scores model_name creator e s' /\ s' < 100) ->
  score_result model_name t creator r = Ok s -> 100 <= s ->
  scan model_name creator (pre ++ Candidate t r :: post) b bs =
  Ok (Some (make_match r)).
Proof.
  induction pre as [|e pre IH]; intros b bs Hbs Hpre Hs H100; cbn [scan app].
  - rewrite Hs. assert ((bs <? s) = true) as -> by lia.
    assert ((100 <=? s) = true) as -> by lia. done.
  - destruct (Hpre e ltac:(left)) as (s' & (t' & r' & -> & Hs') & Hlt).
    rewrite Hs'. assert ((100 <=? s') = false) as H by lia.
    destruct (bs <? s') eqn:Hcmp; rewrite H.
    + apply IH; [lia| |done|done]. intros e He. apply Hpre. by right.
    + apply IH; [lia| |done|done]. intros e He. apply Hpre. by right.
Qed.

(** What a successful search returns. *)
Lemma search_model_details_sound w model_name creator limit n m :
  fst (search_model_details w model_name creator limit n) = Some m ->
  exists pre t r post s,
    events w model_name limit n = pre ++ Candidate t r :: post /\
    m = make_match r /\
    score_result model_name t creator r = Ok s /\ 40 <= s /\
    (forall e, e ∈ pre ->
       exists s', scores model_name creator e s' /\ s' < s /\ s' < 100) /\
    (s < 100 -> forall e, e ∈ post ->
       exists s', scores model_name creator e s' /\ s' <= s).
Proof.
  intros Hm. rewrite search_model_details_scan in Hm.
  destruct (scan model_name creator (events w model_name limit n) None 0)
    as [o|] eqn:Hscan; [|done].
  subst o.
  apply scan_sound in Hscan as
    [(? & _)|(pre & t & r & post & s & He & -> & Hs & _ & H40 & Hpre & Hpost)];
    [done| |lia].
  by exists pre, t, r, post, s.
Qed.

Lemma search_model_details_short_circuit
    w model_name creator limit n pre t r post s :
  events w model_name limit n = pre ++ Candidate t r :: post ->
  (forall e, e ∈ pre ->
     exists s', scores model_name creator e s' /\ s' < 100) ->
  score_result model_name t creator r = Ok s -> 100 <= s ->
  fst (search_model_details w model_name creator limit n) =
    Some (make_match r).
Proof.
  intros He Hpre Hs H100.
  rewrite search_model_details_scan, He.
  by rewrite (scan_short_circuit _ _ pre t r post s).
Qed.

(** An exception met before any candidate reaches 100 ends the scan. *)
Lemma scan_raises model_name creator pre e post : forall b bs,
  (forall x, x ∈ pre ->
     exists s', scores model_name creator x s' /\ s' < 100) ->
  (e = Raised \/
   exists t r, e = Candidate t r /\ score_result model_name t creator r = Exn) ->
  scan model_name creator (pre ++ e :: post) b bs = Exn.
Proof.
  induction pre as [|x pre IH]; intros b bs Hpre He; cbn [scan app].
  - destruct He as [->|(t & r & -> & Hs)]; [done|]. cbn [scan]. by rewrite Hs.
  - destruct (Hpre x ltac:(left)) as (s' & (t' & r' & -> & Hs') & Hlt).
    cbn [scan]. rewrite Hs'. assert ((100 <=? s') = false) as -> by lia.
    destruct (bs <? s'); apply IH; try done; intros y Hy; apply Hpre; by right.
Qed.

(** When a scan raises. *)
Lemma scan_Exn_raises model_name creator es : forall b bs,
  scan model_name creator es b bs = Exn -> raises model_name creator es.
Proof.
  induction es as [|e es IH]; intros b bs Hscan; cbn [scan] in Hscan; [done|].
  destruct e as [|t r].
  { exists [], Raised, es. split_and!; [done| |by left].
    intros e He. by apply elem_of_nil in He. }
  destruct (score_result model_name t creator r) as [sc|] eqn:Hsc.
  - destruct (100 <=? sc) eqn:H100; [by destruct (bs <? sc)|].
    apply Z.leb_gt in H100.
    assert (raises model_name creator es) as (pre & e & post & -> & Hpre & He).
    { destruct (bs <? sc); by eapply IH. }
    exists (Candidate t r :: pre), e, post. split_and!; [done| |done].
    intros x [->|Hx]%elem_of_cons; [|by apply Hpre].
    exists sc. split; [by exists t, r|done].
  - exists [], (Candidate t r), es. split_and!; [done| |right; by exists t, r].
    intros e He. by apply elem_of_nil in He.
Qed.

Lemma scan_raises_iff model_name creator es b bs :
  scan model_name creator es b bs = Exn <-> raises model_name creator es.
Proof.
  split; [apply scan_Exn_raises|].
  intros (pre & e & post & -> & Hpre & He). by apply scan_raises.
Qed.

(** A match that no later candidate beats is the one returned. *)
Lemma scan_keeps model_name creator es : forall m bs,
  40 <= bs < 100 ->
  (forall e, e ∈ es -> exists s', scores model_name creator e s' /\ s' <= bs) ->
  scan model_name creator es (Some m) bs = Ok (Some m).
Proof.
  induction es as [|e es IH]; intros m bs Hbs Hall; cbn [scan].
  - rewrite bool_decide_true by eauto.
    assert ((40 <=? bs) = true) as -> by lia. done.
  - destruct (Hall e ltac:(left)) as (s' & (t & r & -> & Hs') & Hle).
    rewrite Hs'. assert ((bs <? s') = false) as -> by lia.
    assert ((100 <=? s') = false) as -> by lia.
    apply IH; [done|]. intros e He. apply Hall. by right.
Qed.

(** The first candidate to reach the highest score, when that is at least
    40, is the one returned. *)
Lemma scan_best model_name creator pre t r post s : forall b bs,
  bs < s -> bs < 100 ->
  score_result model_name t creator r = Ok s -> 40 <= s ->
  (forall e, e ∈ pre ->
     exists s', scores model_name creator e s' /\ s' < s /\ s' < 100) ->
  (s < 100 -> forall e, e ∈ post ->
     exists s', scores model_name creator e s' /\ s' <= s) ->
  scan model_name creator (pre ++ Candidate t r :: post) b bs =
  Ok (Some (make_match r)).
Proof.
  induction pre as [|x pre IH]; intros b bs Hlt Hbs Hs H40 Hpre Hpost;
    cbn [scan app].
  - rewrite Hs. assert ((bs <? s) = true) as -> by lia.
    destruct (100 <=? s) eqn:H100; [done|]. apply Z.leb_gt in H100.
    apply scan_keeps; [lia|by apply Hpost].
  - destruct (Hpre x ltac:(left)) as (s' & (t' & r' & -> & Hs') & Hlt' & H100).
    rewrite Hs'. assert ((100 <=? s') = false) as -> by lia.
    destruct (bs <? s') eqn:Hcmp.
    + apply IH; [lia|lia|done|done| |done]. intros e He. apply Hpre. by right.
    + apply IH; [lia|lia|done|done| |done]. intros e He. apply Hpre. by right.
Qed.

Lemma search_model_details_best w model_name creator limit n pre t r post s :
  events w model_name limit n = pre ++ Candidate t r :: post ->
  score_result model_name t creator r = Ok s -> 40 <= s ->
  (forall e, e ∈ pre ->
     exists s', scores model_name creator e s' /\ s' < s /\ s' < 100) ->
  (s < 100 -> forall e, e ∈ post ->
     exists s', scores model_name creator e s' /\ s' <= s) ->
  fst (search_model_details w model_name creator limit n) =
    Some (make_match r).
Proof.
  intros He Hs H40 Hpre Hpost.
  rewrite search_model_details_scan, He.
  by rewrite (scan_best _ _ pre t r post s) by (done || lia).
Qed.

(** When the body of the [try] raises. *)
Lemma search_body_raises w model_name creator limit n :
  fst (search_body w model_name creator limit n) = Exn <->
  raises model_name creator (events w model_name limit n).
Proof. rewrite search_body_scan. apply scan_raises_iff. Qed.

Lemma search_model_details_accepts w model_name creator limit n :
  is_Some (fst (search_model_details w model_name creator limit n)) <->
  ~ raises model_name creator (events w model_name limit n) /\
  exists e s, e ∈ events w model_name limit n /\
              scores model_name creator e s /\ 40 <= s.
Proof.
  rewrite <- search_body_raises.
  rewrite search_model_details_scan, search_body_scan.
  split.
  - intros [m Hm].
    destruct (scan model_name creator (events w model_name limit n) None 0)
      as [o|] eqn:Hscan; [|done].
    subst o. split; [done|].
    apply scan_sound in Hscan as
      [(? & _)|(pre & t & r & post & s & He & _ & Hs & _ & H40 & _)];
      [done| |lia].
    exists (Candidate t r), s. split_and!; [|by exists t, r|done].
    rewrite He. set_solver.
  - intros [Hne (e & s & He & Hs & H40)].
    destruct (scan_complete model_name creator (events w model_name limit n)
                None 0) as [m ->]; [lia|lia|done| |by eexists].
    right. by exists e, s.
Qed.

Lemma search_model_details_rejects w model_name creator limit n :
  fst (search_model_details w model_name creator limit n) = None <->
  raises model_name creator (events w model_name limit n) \/
  forall e s, e ∈ events w model_name limit n ->
              scores model_name creator e s -> s < 40.
Proof.
  pose proof (search_model_details_accepts w model_name creator limit n) as Hacc.
  pose proof (search_body_raises w model_name creator limit n) as Hraise.
  split.
  - intros Hnone.
    destruct (fst (search_body w model_name creator limit n)) as [o|] eqn:Hb.
    + right. intros e s He Hs.
      destruct (Z.lt_ge_cases s 40) as [|H40]; [done|].
      destruct (proj2 Hacc) as [m Hm]; [|congruence].
      split; [|by exists e, s]. rewrite <- Hraise. done.
    + left. by apply Hraise.
  - intros H.
    destruct (fst (search_model_details w model_name creator limit n))
      as [m|] eqn:Hm; [|done].
    destruct (proj1 Hacc ltac:(eauto)) as [Hne (e & s & He & Hs & H40)].
    destruct H as [H|H]; [done|]. specialize (H e s He Hs). lia.
Qed.

(** ** Python strings *)

Lemma lower_char_idemp c : Py.lower_char (Py.lower_char c) = Py.lower_char c.
Proof. by destruct c as [[] [] [] [] [] [] [] []]. Qed.

Lemma isspace_lower_char c : Py.isspace (Py.lower_char c) = Py.isspace c.
Proof. by destruct c as [[] [] [] [] [] [] [] []]. Qed.

Lemma lower_idemp s : Py.lower (Py.lower s) = Py.lower s.
Proof. induction s as [|c s IH]; simpl; [done|]. by rewrite lower_char_idemp, IH. Qed.

Lemma lower_lstrip s : Py.lower (Py.lstrip s) = Py.lstrip (Py.lower s).
Proof.
  induction s as [|c s IH]; simpl; [done|].
  rewrite isspace_lower_char. by destruct (Py.isspace c).
Qed.

Lemma lower_rstrip s : Py.lower (Py.rstrip s) = Py.rstrip (Py.lower s).
Proof.
  induction s as [|c s IH]; simpl; [done|].
  rewrite <- IH, isspace_lower_char.
  destruct (Py.rstrip s); simpl; [|done]. by destruct (Py.isspace c).
Qed.

Lemma lower_strip s : Py.lower (Py.strip s) = Py.strip (Py.lower s).
Proof. unfold Py.strip. by rewrite lower_rstrip, lower_lstrip. Qed.

Lemma lstrip_clean s : starts_clean (Py.lstrip s).
Proof.
  induction s as [|c s IH]; simpl; [done|].
  by destruct (Py.isspace c) eqn:Hc.
Qed.

Lemma lstrip_of_clean s : starts_clean s -> Py.lstrip s = s.
Proof. destruct s as [|c s]; simpl; [done|]. by intros ->. Qed.

Lemma rstrip_clean s : starts_clean s -> starts_clean (Py.rstrip s).
Proof.
  destruct s as [|c s]; simpl; [done|]. intros Hc.
  destruct (Py.rstrip s); simpl; [by rewrite Hc|done].
Qed.

Lemma rstrip_idemp s : Py.rstrip (Py.rstrip s) = Py.rstrip s.
Proof.
  induction s as [|c s IH]; simpl; [done|].
  destruct (Py.rstrip s) as [|c' r] eqn:Hr.
  - destruct (Py.isspace c) eqn:Hc; simpl; [done|]. by rewrite Hc.
  - cbn [Py.rstrip]. cbn [Py.rstrip] in IH. by rewrite IH.
Qed.

Lemma strip_idemp s : Py.strip (Py.strip s) = Py.strip s.
Proof.
  unfold Py.strip.
  rewrite (lstrip_of_clean (Py.rstrip _)) by apply rstrip_clean, lstrip_clean.
  apply rstrip_idemp.
Qed.

(** The key under which the loader stores a name is its own key. *)
Lemma normalize_idemp s :
  Py.strip (Py.lower (Py.strip (Py.lower s))) = Py.strip (Py.lower s).
Proof. by rewrite lower_strip, lower_idemp, strip_idemp. Qed.

(** Replacing hyphens by spaces and splitting on white space is splitting on
    white space and hyphens. *)
Lemma fields_replace_hyphen s :
  Py.fields Py.isspace (Py.replace "-" " " s) =
  Py.fields (fun c => Py.isspace c || Ascii.eqb c "-") s.
Proof.
  unfold Py.replace. induction s as [|c s IH]; [done|].
  cbn [Py.replace_go String.prefix String.length Nat.sub].
  destruct (ascii_dec "-" c) as [<-|Hne].
  - assert (String.prefix "" s = true) as -> by (by destruct s).
    change (" " +:+ Py.replace_go "-" " " 0 s)
      with (String " "%char (Py.replace_go "-" " " 0 s)).
    cbn [Py.fields]. by rewrite IH.
  - cbn [Py.fields]. rewrite IH.
    assert (Ascii.eqb c "-" = false) as -> by (apply Ascii.eqb_neq; congruence).
    by rewrite orb_false_r.
Qed.

Lemma split_replace_hyphen s :
  Py.split (Py.replace "-" " " s) =
  List.filter Py.nonempty
    (Py.fields (fun c => Py.isspace c || Ascii.eqb c "-") s).
Proof. unfold Py.split. by rewrite fields_replace_hyphen. Qed.

(** ** Python sets of words *)

Lemma len_common (l1 l2 : list string) :
  Py.len (Py.set l1 ∩ Py.set l2) =
  Z.of_nat (length (remove_dups (filter (fun w => w ∈ l2) l1))).
Proof.
  unfold Py.len, Py.set. f_equal.
  rewrite <- (size_list_to_set (C := gset string)) by apply NoDup_remove_dups.
  f_equal. apply set_eq. intros w.
  rewrite elem_of_intersection, !elem_of_list_to_set, elem_of_remove_dups,
    list_elem_of_filter. tauto.
Qed.

Lemma len_set (l : list string) :
  Py.len (Py.set l) = Z.of_nat (length (remove_dups l)).
Proof.
  unfold Py.len, Py.set. f_equal.
  rewrite <- (size_list_to_set (C := gset string) (remove_dups l))
    by apply NoDup_remove_dups.
  f_equal. apply set_eq. intros w.
  by rewrite !elem_of_list_to_set, elem_of_remove_dups.
Qed.

Lemma common_empty (l1 l2 : list string) :
  Py.set l1 ∩ Py.set l2 = ∅ -> Py.len (Py.set l1 ∩ Py.set l2) = 0.
Proof. intros ->. done. Qed.

(** ** The score *)

Lemma base_score_stated original variant candidate :
  base_score original variant (Py.lower candidate) =
  stated_base original variant candidate.
Proof.
  unfold base_score, stated_base, within.
  destruct (String.eqb_spec (Py.lower candidate) (Py.lower original)) as [He|Hne];
    cbn [orb].
  { rewrite decide_True by auto. done. }
  destruct (String.eqb_spec (Py.lower candidate) (Py.lower variant)) as [He'|Hne'].
  { rewrite decide_True by auto. done. }
  rewrite decide_False by tauto.
  destruct (_ || _); [done|].
  rewrite !split_replace_hyphen.
  fold (words_of (Py.lower original)). fold (words_of (Py.lower candidate)).
  unfold shared_words. rewrite <- len_common.
  case_bool_decide as Hempty; [|lia].
  by rewrite common_empty.
Qed.

Lemma creator_bonus_stated creator r score :
  creator_bonus creator r score =
  score + (if (0 <? score) && creator_appears creator (r_str r) then 10 else 0).
Proof.
  unfold creator_bonus, creator_appears, within.
  destruct creator as [c|]; [|rewrite andb_false_r; lia].
  destruct (Py.nonempty c), (0 <? score), (Py.contains _ _); simpl; lia.
Qed.

Lemma score_result_amended original variant creator r :
  score_result original variant creator r =
  match candidate_name r with
  | Some candidate =>
      Ok (amended_score original variant creator candidate (r_str r))
  | None => Exn
  end.
Proof.
  unfold score_result, result_name_lower, candidate_name, amended_score.
  destruct (r_name r) as [|s|]; [| |done].
  - change EmptyString with (Py.lower EmptyString) at 1.
    by rewrite base_score_stated, creator_bonus_stated.
  - by rewrite base_score_stated, creator_bonus_stated.
Qed.

(** C2, as amended: the score of a candidate is 100, 80 or 20 for each word
    it shares with the original name, by the three cases of the
    specification, and the 10 points of the creator bonus are added only
    when that base score is positive; a candidate whose name is not a string
    raises. *)
Theorem score_result_formula original variant creator r :
  score_result original variant creator r =
  match candidate_name r with
  | Some candidate =>
      Ok (amended_score original variant creator candidate (r_str r))
  | None => Exn
  end.
Proof. apply score_result_amended. Qed.

(** C2, as stated, fails: searching "Seedream 4.5" with the hint "ByteDance",
    a candidate named "Imagen 4" whose fields mention the creator scores 0,
    not the 10 the stated formula gives. *)
Lemma stated_score_counterexample :
  ~ (forall original variant creator r candidate,
       candidate_name r = Some candidate ->
       score_result original variant creator r =
       Ok (stated_score original variant creator candidate (r_str r))).
Proof.
  intros H.
  specialize (H "Seedream 4.5" "Seedream 4.5" (Some "ByteDance")
                unrelated_result "Imagen 4" eq_refl).
  vm_compute in H. discriminate H.
Qed.

(** ** The resolver *)

(** C3: [search_model_details] never raises: it returns a model or [None].
    The body of its [try] raises exactly when a failed request, an unreadable
    reply or a candidate whose name is no string is met before any candidate
    scores 100.  It returns a model exactly when the body does not raise and
    some candidate, over all the variants, scores at least 40; it returns
    [None] exactly when the body raises or every candidate scores below
    40. *)
Theorem search_model_details_threshold w model_name creator limit n :
  (fst (search_body w model_name creator limit n) = Exn <->
   raises model_name creator (events w model_name limit n)) /\
  (is_Some (fst (search_model_details w model_name creator limit n)) <->
   ~ raises model_name creator (events w model_name limit n) /\
   exists e s, e ∈ events w model_name limit n /\
               scores model_name creator e s /\ 40 <= s) /\
  (fst (search_model_details w model_name creator limit n) = None <->
   raises model_name creator (events w model_name limit n) \/
   forall e s, e ∈ events w model_name limit n ->
               scores model_name creator e s -> s < 40).
Proof.
  split_and!.
  - apply search_body_raises.
  - apply search_model_details_accepts.
  - apply search_model_details_rejects.
Qed.

Example accepted_at_40 :
  fst (search_model_details imagen_world "Imagen 4 Preview" None 20 0%nat)
    = Some (make_match imagen_partial) /\
  score_result "Imagen 4 Preview" "Imagen 4 Preview" None imagen_exact = Ok 40.
Proof. by vm_compute. Qed.

Example rejected_below_40 :
  fst (search_model_details imagen_world "Seedream 4 Preview" None 20 0%nat)
    = None /\
  score_result "Seedream 4 Preview" "Seedream 4 Preview" None imagen_partial
    = Ok 20 /\
  score_result "Seedream 4 Preview" "Seedream 4 Preview" None imagen_exact
    = Ok 20.
Proof. by vm_compute. Qed.

Example exception_is_caught :
  fst (search_body unreachable_world "Imagen 4 Fast" None 20 0%nat) = Exn /\
  fst (search_model_details unreachable_world "Imagen 4 Fast" None 20 0%nat)
    = None /\
  fst (search_body broken_world "Imagen 4" None 20 0%nat)
    = Ok (Some (make_match imagen_partial)).
Proof. by vm_compute. Qed.

(** C4: the model returned is that of the highest-scoring candidate: a
    search returns the model of a candidate exactly when that candidate
    scores at least 40, every candidate scored before it scores less (and
    less than 100), and, unless it reaches 100, no candidate scored after it
    scores more; the first candidate to reach 100 is returned at once,
    whatever comes after it; searching "Imagen 4 Fast", the candidate of that
    name (100) is chosen over "Imagen 4" (80) in both orders. *)
Theorem resolver_keeps_best :
  (forall w model_name creator limit n m,
     fst (search_model_details w model_name creator limit n) = Some m <->
     exists pre t r post s,
       events w model_name limit n = pre ++ Candidate t r :: post /\
       m = make_match r /\
       score_result model_name t creator r = Ok s /\ 40 <= s /\
       (forall e, e ∈ pre ->
          exists s', scores model_name creator e s' /\ s' < s /\ s' < 100) /\
       (s < 100 -> forall e, e ∈ post ->
          exists s', scores model_name creator e s' /\ s' <= s)) /\
  (forall w model_name creator limit n pre t r post s,
     events w model_name limit n = pre ++ Candidate t r :: post ->
     (forall e, e ∈ pre ->
        exists s', scores model_name creator e s' /\ s' < 100) ->
     score_result model_name t creator r = Ok s -> 100 <= s ->
     fst (search_model_details w model_name creator limit n) =
       Some (make_match r)) /\
  (forall w creator limit n exact partial results,
     r_name exact = NameStr "Imagen 4 Fast" ->
     r_name partial = NameStr "Imagen 4" ->
     post w (request w limit n "Imagen 4 Fast") = Reply 200 (Data results) ->
     results = [exact; partial] \/ results = [partial; exact] ->
     fst (search_model_details w "Imagen 4 Fast" creator limit n) =
       Some (make_match exact) /\
     score_result "Imagen 4 Fast" "Imagen 4 Fast" None exact = Ok 100 /\
     score_result "Imagen 4 Fast" "Imagen 4 Fast" None partial = Ok 80).
Proof.
  pose proof search_model_details_short_circuit as Hshort.
  split_and!; [|exact Hshort|].
  - intros w model_name creator limit n m. split.
    + apply search_model_details_sound.
    + intros (pre & t & r & post & s & He & -> & Hs & H40 & Hpre & Hpost).
      by eapply search_model_details_best.
  - intros w creator limit n exact partial results Hexact Hpartial Hpost Hres.
    assert (Hbase_e : forall c, exists s,
      score_result "Imagen 4 Fast" "Imagen 4 Fast" c exact = Ok s /\ 100 <= s).
    { intros c. unfold score_result, result_name_lower. rewrite Hexact.
      eexists; split; [done|]. rewrite creator_bonus_stated.
      change (base_score _ _ _) with 100. destruct (_ && _); lia. }
    assert (Hbase_p : forall c, exists s,
      score_result "Imagen 4 Fast" "Imagen 4 Fast" c partial = Ok s /\ s < 100).
    { intros c. unfold score_result, result_name_lower. rewrite Hpartial.
      eexists; split; [done|]. rewrite creator_bonus_stated.
      change (base_score _ _ _) with 80. destruct (_ && _); lia. }
    split_and!.
    + destruct (Hbase_e creator) as (se & Hse & H100).
      destruct (Hbase_p creator) as (sp & Hsp & Hlt).
      assert (Hev : events w "Imagen 4 Fast" limit n =
                    List.map (Candidate "Imagen 4 Fast") results).
      { unfold events. change (search_terms "Imagen 4 Fast")
          with ["Imagen 4 Fast"].
        cbn [events_from]. rewrite Hpost. cbn. by rewrite app_nil_r. }
      destruct Hres as [-> | ->].
      * apply (Hshort _ _ _ _ _ [] "Imagen 4 Fast" exact
                 [Candidate "Imagen 4 Fast" partial] se); [done| |done|done].
        intros e He. by apply elem_of_nil in He.
      * apply (Hshort _ _ _ _ _ [Candidate "Imagen 4 Fast" partial]
                 "Imagen 4 Fast" exact [] se); [done| |done|done].
        intros e ->%list_elem_of_singleton. exists sp. split; [|done].
        by exists "Imagen 4 Fast", partial.
    + unfold score_result, result_name_lower. by rewrite Hexact.
    + unfold score_result, result_name_lower. by rewrite Hpartial.
Qed.

Lemma resolver_keeps_best_witness :
  (fst (search_model_details imagen_mixed_world "Imagen 4 Preview" None 20
          0%nat)
     = Some (make_match imagen_partial) /\
   score_result "Imagen 4 Preview" "Imagen 4 Preview" None imagen_partial
     = Ok 80 /\
   score_result "Imagen 4 Preview" "Imagen 4 Preview" None imagen_exact
     = Ok 40) /\
  (fst (search_model_details imagen_world "Imagen 4 Fast" (Some "Google") 20
          0%nat)
     = Some (make_match imagen_exact) /\
   score_result "Imagen 4 Fast" "Imagen 4 Fast" None imagen_exact = Ok 100 /\
   score_result "Imagen 4 Fast" "Imagen 4 Fast" None imagen_partial = Ok 80).
Proof.
  split.
  - split; [|split; reflexivity].
    refine (proj2 (proj1 resolver_keeps_best imagen_mixed_world
                     "Imagen 4 Preview" None 20 0%nat
                     (make_match imagen_partial)) _).
    exists [Candidate "Imagen 4 Preview" imagen_exact], "Imagen 4 Preview",
      imagen_partial, [Candidate "Imagen 4 Preview" imagen_exact], 80.
    split; [reflexivity|]. split; [reflexivity|]. split; [reflexivity|].
    split; [lia|]. split.
    + intros e He. apply list_elem_of_singleton in He. subst e.
      exists 40. split; [|lia].
      exists "Imagen 4 Preview", imagen_exact. split; reflexivity.
    + intros _ e He. apply list_elem_of_singleton in He. subst e.
      exists 40. split; [|lia].
      exists "Imagen 4 Preview", imagen_exact. split; reflexivity.
  - refine (proj2 (proj2 resolver_keeps_best) imagen_world (Some "Google") 20
              0%nat imagen_exact imagen_partial [imagen_partial; imagen_exact]
              _ _ _ _).
    + reflexivity.
    + reflexivity.
    + reflexivity.
    + right. reflexivity.
Defined.

(** C9: a candidate whose base score is 0 scores 0 with any creator hint, as
    it does with none, and the model a search returns always comes from a
    candidate whose base score is positive. *)
Theorem creator_alone_never_selected :
  (forall model_name search_term creator r candidate,
     candidate_name r = Some candidate ->
     stated_base model_name search_term candidate = 0 ->
     score_result model_name search_term creator r = Ok 0 /\
     score_result model_name search_term None r = Ok 0) /\
  (forall w model_name creator limit n m,
     fst (search_model_details w model_name creator limit n) = Some m ->
     exists t r candidate,
       Candidate t r ∈ events w model_name limit n /\
       m = make_match r /\
       candidate_name r = Some candidate /\
       0 < stated_base model_name t candidate).
Proof.
  split.
  - intros model_name search_term creator r candidate Hc Hbase.
    rewrite !score_result_amended, Hc. unfold amended_score.
    rewrite Hbase. done.
  - intros w model_name creator limit n m Hm.
    rewrite search_model_details_scan in Hm.
    destruct (scan model_name creator (events w model_name limit n) None 0)
      as [o|] eqn:Hscan; [|done].
    subst o.
    apply scan_sound in Hscan as
      [(? & _)|(pre & t & r & post & s & He & -> & Hs & _ & H40 & _)];
      [done| |lia].
    rewrite score_result_amended in Hs.
    destruct (candidate_name r) as [candidate|] eqn:Hc; [|done].
    exists t, r, candidate. split_and!; [rewrite He; set_solver|done|done|].
    injection Hs as <-. unfold amended_score in H40.
    destruct (0 <? stated_base model_name t candidate) eqn:Hpos; [lia|].
    simpl in H40. lia.
Qed.

Lemma creator_alone_never_selected_witness :
  score_result "Seedream 4.5" "Seedream 4.5" (Some "ByteDance") unrelated_result
    = Ok 0 /\
  score_result "Seedream 4.5" "Seedream 4.5" None unrelated_result = Ok 0.
Proof.
  apply (proj1 creator_alone_never_selected "Seedream 4.5" "Seedream 4.5"
           (Some "ByteDance") unrelated_result "Imagen 4").
  - reflexivity.
  - vm_compute. reflexivity.
Defined.

(** ** Dictionaries *)

Lemma dict_get_set_eq {V} k (v : V) d : dict_get k (dict_set k v d) = Some v.
Proof.
  induction d as [|[k' v'] d IH]; simpl.
  - by rewrite String.eqb_refl.
  - destruct (String.eqb_spec k' k) as [->|Hne]; simpl.
    + by rewrite String.eqb_refl.
    + by destruct (String.eqb_spec k' k).
Qed.

Lemma dict_get_set_ne {V} k k' (v : V) d :
  k <> k' -> dict_get k' (dict_set k v d) = dict_get k' d.
Proof.
  intros Hne. induction d as [|[k0 v0] d IH]; simpl.
  - by destruct (String.eqb_spec k k').
  - destruct (String.eqb_spec k0 k) as [->|Hne0]; simpl.
    + by destruct (String.eqb_spec k k').
    + by rewrite IH.
Qed.

Lemma dict_get_elem {V} k (v : V) d : dict_get k d = Some v -> (k, v) ∈ d.
Proof.
  induction d as [|[k' v'] d IH]; simpl; [done|].
  destruct (String.eqb_spec k' k) as [->|Hne].
  - intros [= ->]. by left.
  - intros H. right. auto.
Qed.

Lemma dict_get_None {V} k (d : list (string * V)) :
  dict_get k d = None -> forall v, (k, v) ∉ d.
Proof.
  induction d as [|[k' v'] d IH]; simpl; intros H v Hin.
  - by apply elem_of_nil in Hin.
  - destruct (String.eqb_spec k' k) as [->|Hne]; [done|].
    apply elem_of_cons in Hin as [[= ? ?]|Hin]; [congruence|].
    by apply (IH H v).
Qed.

Lemma elem_dict_set {V} k (v : V) d k' v' :
  (k', v') ∈ dict_set k v d -> (k' = k /\ v' = v) \/ (k', v') ∈ d.
Proof.
  induction d as [|[k0 v0] d IH]; simpl.
  - intros [= -> ->]%list_elem_of_singleton. by left.
  - destruct (String.eqb_spec k0 k) as [->|Hne].
    + intros [[= -> ->]|H]%elem_of_cons; [by left|]. right. by right.
    + intros [[= -> ->]|H]%elem_of_cons; [right; by left|].
      destruct (IH H); [by left|]. right. by right.
Qed.

Lemma keys_dict_set {V} k (v : V) d k' :
  k' ∈ (dict_set k v d).*1 -> k' = k \/ k' ∈ d.*1.
Proof.
  intros [[k0 v0] [-> H]]%list_elem_of_fmap.
  apply elem_dict_set in H as [[-> _]|H]; [by left|].
  right. apply list_elem_of_fmap. by exists (k0, v0).
Qed.

Lemma NoDup_dict_set {V} k (v : V) d :
  NoDup d.*1 -> NoDup (dict_set k v d).*1.
Proof.
  induction d as [|[k0 v0] d IH]; simpl; intros Hnd.
  - apply NoDup_singleton.
  - apply NoDup_cons in Hnd as [Hnotin Hnd].
    destruct (String.eqb_spec k0 k) as [->|Hne]; simpl.
    + by apply NoDup_cons.
    + apply NoDup_cons. split; [|auto].
      intros [->|H]%keys_dict_set; done.
Qed.

Lemma elem_dict_get {V} k (v : V) d :
  NoDup d.*1 -> (k, v) ∈ d -> dict_get k d = Some v.
Proof.
  induction d as [|[k0 v0] d IH]; simpl; intros Hnd Hin.
  - by apply elem_of_nil in Hin.
  - apply NoDup_cons in Hnd as [Hnotin Hnd].
    apply elem_of_cons in Hin as [[= <- <-]|Hin].
    + by rewrite String.eqb_refl.
    + destruct (String.eqb_spec k0 k) as [->|Hne]; [|auto].
      exfalso. apply Hnotin. apply list_elem_of_fmap. by exists (k, v).
Qed.

(** ** The pricing loader *)

Lemma load_models_step e models pricing :
  load_models (e :: models) pricing =
  load_models models (dict_set (stored_key e) (stored_record e) pricing).
Proof. done. Qed.

Lemma load_models_app l1 l2 pricing :
  load_models (l1 ++ l2) pricing = load_models l2 (load_models l1 pricing).
Proof.
  revert pricing. induction l1 as [|e l1 IH]; intros pricing; [done|].
  rewrite <- app_comm_cons, !load_models_step. apply IH.
Qed.

Lemma load_models_NoDup models : forall pricing,
  NoDup pricing.*1 -> NoDup (load_models models pricing).*1.
Proof.
  induction models as [|e models IH]; intros pricing Hnd; [done|].
  rewrite load_models_step. by apply IH, NoDup_dict_set.
Qed.

Lemma load_models_keys models : forall pricing,
  (forall k, k ∈ pricing.*1 -> Py.strip (Py.lower k) = k) ->
  forall k, k ∈ (load_models models pricing).*1 -> Py.strip (Py.lower k) = k.
Proof.
  induction models as [|e models IH]; intros pricing Hk; [done|].
  rewrite load_models_step. apply IH.
  intros k [->|H]%keys_dict_set; [|auto]. apply normalize_idemp.
Qed.

Lemma load_models_untouched models k : forall pricing,
  (forall e, e ∈ models -> stored_key e <> k) ->
  dict_get k (load_models models pricing) = dict_get k pricing.
Proof.
  induction models as [|e models IH]; intros pricing Hk; [done|].
  rewrite load_models_step, IH by (intros; apply Hk; by right).
  apply dict_get_set_ne, Hk. by left.
Qed.

(** ** The pricing matcher *)

Lemma match_pricing_direct PRICING_DATA model_name r :
  dict_get (Py.strip (Py.lower model_name)) PRICING_DATA = Some r ->
  match_pricing PRICING_DATA model_name = Some r.
Proof.
  intros H. unfold match_pricing.
  destruct PRICING_DATA as [|kv d]; [done|]. by rewrite H.
Qed.

(** C6: after loading a price table, looking up a stored name gives the
    stored record: every key of the pricing map matches its own record, and
    an entry of the table that no later entry overwrites (none has the same
    normalized name) is found, with its own record, under its name as
    written in the table. *)
Theorem pricing_round_trip models :
  (forall key rec,
     (key, rec) ∈ load_pricing_data (Some models) ->
     match_pricing (load_pricing_data (Some models)) key = Some rec) /\
  (forall pre e post,
     models = pre ++ e :: post ->
     (forall e', e' ∈ post -> stored_key e' <> stored_key e) ->
     (stored_key e, stored_record e) ∈ load_pricing_data (Some models) /\
     match_pricing (load_pricing_data (Some models)) (default "" (pe_name e))
       = Some (stored_record e)).
Proof.
  cbn [load_pricing_data]. split.
  - intros key rec Hin. apply match_pricing_direct.
    rewrite (load_models_keys models []).
    + apply elem_dict_get; [|done]. apply load_models_NoDup, NoDup_nil_2.
    + intros k Hk. by apply elem_of_nil in Hk.
    + apply list_elem_of_fmap. by exists (key, rec).
  - intros pre e post -> Hpost.
    assert (Hget : dict_get (stored_key e) (load_models (pre ++ e :: post) [])
                   = Some (stored_record e)).
    { rewrite load_models_app, load_models_step, load_models_untouched by done.
      apply dict_get_set_eq. }
    split; [by apply dict_get_elem|]. by apply match_pricing_direct.
Qed.

Lemma pricing_round_trip_witness :
  (stored_key {| pe_name := Some " flux.2 DEV"; pe_price_usd := JInt 3;
                 pe_configuration := JNull; pe_discount := JStr "10%" |},
   stored_record {| pe_name := Some " flux.2 DEV"; pe_price_usd := JInt 3;
                    pe_configuration := JNull; pe_discount := JStr "10%" |})
    ∈ load_pricing_data (Some sample_prices) /\
  match_pricing (load_pricing_data (Some sample_prices)) " flux.2 DEV"
    = Some {| price_usd := JInt 3; configuration := JNull;
              discount := JStr "10%" |}.
Proof.
  apply (proj2 (pricing_round_trip sample_prices)
           [ {| pe_name := Some "FLUX.2 dev "; pe_price_usd := JInt 1;
                pe_configuration := JStr "1024x1024"; pe_discount := JNull |};
             {| pe_name := Some "Imagen 4 Fast"; pe_price_usd := JInt 2;
                pe_configuration := JNull; pe_discount := JNull |} ]
           {| pe_name := Some " flux.2 DEV"; pe_price_usd := JInt 3;
              pe_configuration := JNull; pe_discount := JStr "10%" |}
           []).
  - reflexivity.
  - intros e' He'. inversion He'.
Defined.

Example pricing_overwrite :
  match_pricing (load_pricing_data (Some sample_prices)) "FLUX.2 [dev]"
    = Some {| price_usd := JInt 3; configuration := JNull;
              discount := JStr "10%" |}.
Proof. reflexivity. Qed.

Lemma significant_spec name key :
  significant name key = true <->
  (60 * Nat.min (length (distinct_words name)) (length (distinct_words key))
   <= 100 * length (common_words name key))%nat.
Proof.
  unfold significant, distinct_words, common_words.
  rewrite len_common, !len_set, Z.leb_le. lia.
Qed.

Lemma fallback_accepts_spec name key :
  (Py.contains name key || Py.contains key name) && significant name key = true
  <-> fallback_accepts name key.
Proof.
  unfold fallback_accepts.
  rewrite andb_true_iff, orb_true_iff, significant_spec. done.
Qed.

Lemma partial_match_step name key rec rest :
  partial_match name ((key, rec) :: rest) =
  if (Py.contains name key || Py.contains key name) && significant name key
  then Some rec else partial_match name rest.
Proof.
  cbn [partial_match].
  by destruct (Py.contains name key || Py.contains key name),
    (significant name key).
Qed.

(** The fallback returns the record of the first key it accepts. *)
Lemma partial_match_Some name items rec :
  partial_match name items = Some rec ->
  exists pre key post,
    items = pre ++ (key, rec) :: post /\ fallback_accepts name key /\
    forall k r, (k, r) ∈ pre -> ~ fallback_accepts name k.
Proof.
  induction items as [|[key rec'] items IH]; [done|].
  rewrite partial_match_step.
  destruct (_ && _) eqn:Hacc.
  - intros [= ->]. exists [], key, items. split_and!; [done| |].
    + by apply fallback_accepts_spec.
    + intros k r Hin. by apply elem_of_nil in Hin.
  - intros (pre & k & post & -> & Hk & Hpre)%IH.
    exists ((key, rec') :: pre), k, post. split_and!; [done|done|].
    intros k' r' [[= -> ->]|Hin]%elem_of_cons; [|by eapply Hpre].
    rewrite <- fallback_accepts_spec, Hacc. done.
Qed.

Lemma partial_match_None name items :
  partial_match name items = None <->
  forall key rec, (key, rec) ∈ items -> ~ fallback_accepts name key.
Proof.
  induction items as [|[key rec'] items IH].
  - split; [|done]. intros _ key rec Hin. by apply elem_of_nil in Hin.
  - rewrite partial_match_step. destruct (_ && _) eqn:Hacc.
    + split; [done|]. intros H. exfalso. apply (H key rec'); [by left|].
      by apply fallback_accepts_spec.
    + rewrite IH. split.
      * intros H k r [[= -> ->]|Hin]%elem_of_cons; [|by eapply H].
        rewrite <- fallback_accepts_spec, Hacc. done.
      * intros H k r Hin. apply (H k r). by right.
Qed.

(** C5: once the exact and the variant lookups have found nothing,
    [match_pricing] returns the record of the first stored key that contains
    the normalized name, or is contained in it, and whose shared words are at
    least 60% of the smaller of the two word counts; it returns nothing
    exactly when no stored key does.  Words are counted as the source counts
    them, as sets. *)
Theorem match_pricing_fallback PRICING_DATA model_name :
  let name := Py.strip (Py.lower model_name) in
  dict_get name PRICING_DATA = None ->
  first_variant (pricing_variations name) PRICING_DATA = None ->
  (forall rec,
     match_pricing PRICING_DATA model_name = Some rec ->
     exists pre key post,
       PRICING_DATA = pre ++ (key, rec) :: post /\
       fallback_accepts name key /\
       forall k r, (k, r) ∈ pre -> ~ fallback_accepts name k) /\
  (match_pricing PRICING_DATA model_name = None <->
   forall key rec, (key, rec) ∈ PRICING_DATA -> ~ fallback_accepts name key).
Proof.
  intros name Hdirect Hvariant.
  assert (Hmp : match_pricing PRICING_DATA model_name =
                partial_match name PRICING_DATA).
  { unfold match_pricing. fold name. rewrite Hdirect, Hvariant.
    by destruct PRICING_DATA. }
  rewrite Hmp. split.
  - apply partial_match_Some.
  - apply partial_match_None.
Qed.

Lemma match_pricing_fallback_witness :
  exists pre key post,
    load_pricing_data (Some sample_prices) =
      pre ++ (key, {| price_usd := JInt 2; configuration := JNull;
                      discount := JNull |}) :: post /\
    fallback_accepts (Py.strip (Py.lower "Imagen 4")) key /\
    forall k r, (k, r) ∈ pre ->
                ~ fallback_accepts (Py.strip (Py.lower "Imagen 4")) k.
Proof.
  apply (proj1 (match_pricing_fallback (load_pricing_data (Some sample_prices))
                  "Imagen 4" eq_refl eq_refl)).
  vm_compute. reflexivity.
Defined.

Example fallback_rejects_few_shared_words :
  match_pricing (load_pricing_data (Some sample_prices)) "FLUX" = None.
Proof. vm_compute. reflexivity. Qed.

(** ** The enrichment loops *)

Lemma enrich_by_name_loop_spec PRICING_DATA w models_list : forall enriched n,
  fst (enrich_by_name_loop PRICING_DATA w models_list enriched n) =
  enriched ++
  omap (fun '(model, api_data) => record_by_name PRICING_DATA model <$> api_data)
    (resolutions_by_name w models_list n).
Proof.
  induction models_list as [|model rest IH]; intros enriched n.
  - cbn. by rewrite app_nil_r.
  - cbn [enrich_by_name_loop resolutions_by_name]. unfold bind.
    destruct (search_model_details w (ce_name model) (ce_creator model) 20 n)
      as [[api_data|] n']; cbn [omap fmap option_fmap option_map].
    + rewrite IH. by rewrite <- app_assoc.
    + apply IH.
Qed.

Lemma enrich_by_id_loop_spec PRICING_DATA w models_list : forall enriched n,
  fst (enrich_by_id_loop PRICING_DATA w models_list enriched n) =
  enriched ++
  omap (fun '(model, api_data) => record_by_id PRICING_DATA model <$> api_data)
    (resolutions_by_id w models_list n).
Proof.
  induction models_list as [|model rest IH]; intros enriched n.
  - cbn. by rewrite app_nil_r.
  - cbn [enrich_by_id_loop resolutions_by_id]. unfold bind at 1.
    destruct (resolve_by_id w model n)
      as [[api_data|] n']; cbn [omap fmap option_fmap option_map].
    + rewrite IH. by rewrite <- app_assoc.
    + apply IH.
Qed.

Lemma resolutions_by_name_elem w models_list model api_data : forall n,
  (model, api_data) ∈ resolutions_by_name w models_list n ->
  model ∈ models_list /\
  exists n', fst (search_model_details w (ce_name model) (ce_creator model)
                    20 n') = api_data.
Proof.
  induction models_list as [|m rest IH]; intros n; cbn [resolutions_by_name].
  - intros H. by apply elem_of_nil in H.
  - destruct (search_model_details w (ce_name m) (ce_creator m) 20 n)
      as [d n'] eqn:Hs.
    intros [[= -> ->]|H]%elem_of_cons.
    + split; [by left|]. exists n. by rewrite Hs.
    + destruct (IH _ H) as [? ?]. split; [by right|done].
Qed.

Lemma resolve_by_id_Some w model n m :
  fst (resolve_by_id w model n) = Some m ->
  exists model_name n',
    fst (search_model_details w model_name None 20 n') = Some m.
Proof.
  unfold resolve_by_id, bind.
  destruct (Py.nonempty (se_name model)).
  - destruct (search_model_details w (se_name model) None 20 n)
      as [[d|] n'] eqn:Hs.
    + cbn. intros [= <-]. exists (se_name model), n. by rewrite Hs.
    + intros H. by exists (se_model_id model), n'.
  - cbn. intros H. by exists (se_model_id model), n.
Qed.

Lemma resolutions_by_id_elem w models_list model api_data : forall n,
  (model, api_data) ∈ resolutions_by_id w models_list n ->
  model ∈ models_list /\
  exists n', fst (resolve_by_id w model n') = api_data.
Proof.
  induction models_list as [|m rest IH]; intros n; cbn [resolutions_by_id].
  - intros H. by apply elem_of_nil in H.
  - destruct (resolve_by_id w m n) as [d n'] eqn:Hs.
    intros [[= -> ->]|H]%elem_of_cons.
    + split; [by left|]. exists n. by rewrite Hs.
    + destruct (IH _ H) as [? ?]. split; [by right|done].
Qed.

(** A model that a search returns carries the fields of a candidate that the
    catalog returned. *)
Lemma candidate_from_catalog w limit terms t r : forall n,
  Candidate t r ∈ events_from w limit terms n ->
  exists body status_code results,
    post w body = Reply status_code (Data results) /\ r ∈ results.
Proof.
  induction terms as [|t0 terms IH]; intros n; cbn [events_from].
  - intros H. by apply elem_of_nil in H.
  - intros [H|H]%elem_of_app; [|by eapply IH].
    destruct (post w (request w limit n t0)) as [|code data] eqn:Hp;
      cbn [events_of] in H.
    { by apply list_elem_of_singleton in H. }
    destruct (negb (code =? 200)); [by apply elem_of_nil in H|].
    destruct data as [| |results].
    + by apply list_elem_of_singleton in H.
    + by apply elem_of_nil in H.
    + apply list_elem_of_fmap in H as (r' & [= <- <-] & Hin). eauto.
Qed.

Lemma search_model_details_air w model_name creator limit n m :
  always_air w ->
  fst (search_model_details w model_name creator limit n) = Some m ->
  air m <> JNull.
Proof.
  intros Hair Hm.
  destruct (search_model_details_sound _ _ _ _ _ _ Hm)
    as (pre & t & r & post & s & He & -> & _).
  destruct (candidate_from_catalog w limit (search_terms model_name) t r n)
    as (body & code & results & Hp & Hin).
  { fold (events w model_name limit n). rewrite He. set_solver. }
  by eapply Hair.
Qed.

(** ** The written records *)

Lemma attach_pricing_other k enriched_model pricing :
  k <> "price_usd" -> k <> "price_configuration" -> k <> "price_discount" ->
  dict_get k (attach_pricing enriched_model pricing) = dict_get k enriched_model.
Proof.
  intros H1 H2 H3. unfold attach_pricing. destruct pricing as [p|]; [|done].
  destruct (truthy (configuration p)), (truthy (discount p));
    by rewrite ?dict_get_set_ne by done.
Qed.

Lemma attach_pricing_price enriched_model pricing :
  dict_get "price_usd" enriched_model = None ->
  dict_get "price_usd" (attach_pricing enriched_model pricing) =
  price_usd <$> pricing.
Proof.
  intros Hnone. unfold attach_pricing. destruct pricing as [p|]; [|done].
  destruct (truthy (configuration p)), (truthy (discount p));
    rewrite ?dict_get_set_ne by done; apply dict_get_set_eq.
Qed.

Lemma record_by_name_air PRICING_DATA model api_data :
  dict_get "air" (record_by_name PRICING_DATA model api_data) =
  Some (air api_data).
Proof. unfold record_by_name. by rewrite attach_pricing_other. Qed.

Lemma record_by_id_air PRICING_DATA model api_data :
  dict_get "air" (record_by_id PRICING_DATA model api_data) =
  Some (air api_data).
Proof. unfold record_by_id. by rewrite attach_pricing_other. Qed.

Lemma enrich_models_by_name_elem PRICING_DATA w models_list n rec :
  rec ∈ fst (enrich_models_by_name PRICING_DATA w models_list n) ->
  exists model api_data n',
    model ∈ models_list /\
    fst (search_model_details w (ce_name model) (ce_creator model) 20 n')
      = Some api_data /\
    rec = record_by_name PRICING_DATA model api_data.
Proof.
  unfold enrich_models_by_name. rewrite enrich_by_name_loop_spec, app_nil_l.
  intros ([model [api_data|]] & Hin & Hrec)%list_elem_of_omap; [|done].
  injection Hrec as <-.
  apply resolutions_by_name_elem in Hin as (Hm & n' & Hs). eauto 6.
Qed.

Lemma enrich_models_by_id_elem PRICING_DATA w models_list n rec :
  rec ∈ fst (enrich_models_by_id PRICING_DATA w models_list n) ->
  exists model api_data n',
    model ∈ models_list /\
    fst (resolve_by_id w model n') = Some api_data /\
    rec = record_by_id PRICING_DATA model api_data.
Proof.
  unfold enrich_models_by_id. rewrite enrich_by_id_loop_spec, app_nil_l.
  intros ([model [api_data|]] & Hin & Hrec)%list_elem_of_omap; [|done].
  injection Hrec as <-.
  apply resolutions_by_id_elem in Hin as (Hm & n' & Hs). eauto 6.
Qed.

(** ** The written documents *)

Lemma models_of_output source collection_name today enriched :
  models_of (output_document source collection_name today enriched) = enriched.
Proof.
  unfold models_of, output_document. cbn [dict_get String.eqb Ascii.eqb Bool.eqb].
  induction enriched as [|rec rest IH]; [done|]. cbn. by rewrite IH.
Qed.

Lemma output_total source collection_name today enriched :
  total_is_length (output_document source collection_name today enriched).
Proof.
  eexists _, (List.map JDict enriched). split_and!; [done|done|].
  cbn. by rewrite length_map.
Qed.

(** What the loop over the collections writes: what was written before, and
    one document for each collection whose page lists some model. *)
Lemma scrape_loop_writes PRICING_DATA w today collections :
  forall written n path doc,
  (path, doc) ∈ fst (scrape_loop PRICING_DATA w today collections written n) ->
  (path, doc) ∈ written \/
  exists c n',
    c ∈ collections /\ path = col_output_file c /\
    doc = output_document (col_url c) (col_name c) today
            (fst (enrich_models_by_id PRICING_DATA w
                    (scrape_collection_models w (col_url c)) n')).
Proof.
  induction collections as [|c rest IH]; intros written n path doc.
  - cbn. by left.
  - cbn [scrape_loop].
    destruct (scrape_collection_models w (col_url c)) as [|m ms] eqn:Hs.
    + intros [H|(c' & n' & Hc & ?)]%IH; [by left|]. right. exists c', n'.
      split; [by right|done].
    + unfold bind.
      destruct (enrich_models_by_id PRICING_DATA w (m :: ms) n)
        as [enriched n1] eqn:He.
      intros [H|(c' & n' & Hc & ?)]%IH.
      * apply elem_of_app in H as [H|[= -> ->]%list_elem_of_singleton];
          [by left|].
        right. exists c, n. rewrite Hs, He. split_and!; [by left|done..].
      * right. exists c', n'. split; [by right|done].
Qed.

Lemma scrape_loop_keeps PRICING_DATA w today collections :
  forall written n,
  written `prefix_of`
    fst (scrape_loop PRICING_DATA w today collections written n).
Proof.
  induction collections as [|c rest IH]; intros written n; [done|].
  cbn [scrape_loop].
  destruct (scrape_collection_models w (col_url c)) as [|m ms]; [apply IH|].
  unfold bind.
  destruct (enrich_models_by_id PRICING_DATA w (m :: ms) n) as [enriched n1].
  etrans; [|apply IH]. by apply prefix_app_r.
Qed.

(** The documents of a run: the popular models, then the collections. *)
Lemma main_writes pricing_file w today n path doc :
  (path, doc) ∈ fst (main pricing_file w today n) ->
  exists source collection_name enriched,
    doc = output_document source collection_name today enriched /\
    ((exists n', enriched =
        fst (enrich_models_by_name (load_pricing_data pricing_file) w
               POPULAR_MODELS n')) \/
     (exists models_list n', enriched =
        fst (enrich_models_by_id (load_pricing_data pricing_file) w
               models_list n'))).
Proof.
  unfold main, bind.
  destruct (enrich_models_by_name (load_pricing_data pricing_file) w
              POPULAR_MODELS n) as [popular n1] eqn:Hp.
  intros [[= -> ->]%list_elem_of_singleton|(c & n' & _ & _ & ->)]%scrape_loop_writes.
  - eexists _, _, popular. split; [done|]. left. exists n. by rewrite Hp.
  - eexists _, _, _. split; [done|]. right. eauto.
Qed.

Lemma main_writes_popular pricing_file w today n :
  exists rest,
    fst (main pricing_file w today n) =
    ("popular_models.json",
     output_document "https://runware.ai/models" "Popular Models" today
       (fst (enrich_models_by_name (load_pricing_data pricing_file) w
               POPULAR_MODELS n))) :: rest.
Proof.
  unfold main, bind.
  destruct (enrich_models_by_name (load_pricing_data pricing_file) w
              POPULAR_MODELS n) as [popular n1] eqn:Hp.
  destruct (scrape_loop_keeps (load_pricing_data pricing_file) w today
              SCRAPE_COLLECTIONS
              [("popular_models.json",
                output_document "https://runware.ai/models" "Popular Models"
                  today popular)] n1) as [rest ->].
  by exists rest.
Qed.

(** C7: every document the script writes has a ["total_models"] equal to
    the length of its ["models"] list, and the document of the popular
    models is always written. *)
Theorem total_models_is_length pricing_file w today n :
  Forall (fun written => total_is_length written.2)
    (fst (main pricing_file w today n)) /\
  exists doc rest,
    fst (main pricing_file w today n) = ("popular_models.json", doc) :: rest.
Proof.
  split.
  - apply Forall_forall. intros [path doc] Hin.
    apply main_writes in Hin as (source & cname & enriched & -> & _).
    apply output_total.
  - destruct (main_writes_popular pricing_file w today n) as [rest ->].
    by eexists _, rest.
Qed.

(** ** Resolution failures *)

Lemma main_air pricing_file w today n :
  always_air w ->
  Forall (fun written => no_null_air written.2)
    (fst (main pricing_file w today n)).
Proof.
  intros Hair. apply Forall_forall. intros [path doc] Hin rec Hrec.
  cbn [snd] in Hrec.
  apply main_writes in Hin as
    (source & cname & enriched & -> & [(n' & ->)|(ms & n' & ->)]);
    rewrite models_of_output in Hrec.
  - apply enrich_models_by_name_elem in Hrec as (model & d & n1 & _ & Hs & ->).
    exists (air d). split; [apply record_by_name_air|].
    by eapply search_model_details_air.
  - apply enrich_models_by_id_elem in Hrec as (model & d & n1 & _ & Hs & ->).
    exists (air d). split; [apply record_by_id_air|].
    apply resolve_by_id_Some in Hs as (model_name & n2 & Hs).
    by eapply search_model_details_air.
Qed.

(** The files of a run, with the lists they are written from. *)
Lemma main_files_at pricing_file w today n :
  fst (main pricing_file w today n) =
  ("popular_models.json",
   output_document "https://runware.ai/models" "Popular Models" today
     (fst (enrich_models_by_name (load_pricing_data pricing_file) w
             POPULAR_MODELS n))) ::
  match scrape_collection_models w
          "https://runware.ai/collections/best-for-text-on-images" with
  | [] => []
  | models =>
      [ ("best_models.json",
         output_document
           "https://runware.ai/collections/best-for-text-on-images"
           "Best for Text on Images" today
           (fst (enrich_models_by_id (load_pricing_data pricing_file) w models
                   (snd (enrich_models_by_name
                           (load_pricing_data pricing_file) w
                           POPULAR_MODELS n))))) ]
  end.
Proof.
  unfold main, enrich_models_by_name.
  generalize POPULAR_MODELS (load_pricing_data pricing_file).
  intros popular PRICING_DATA. unfold bind.
  destruct (enrich_by_name_loop PRICING_DATA w popular [] n) as [enriched n1].
  unfold SCRAPE_COLLECTIONS.
  cbn [scrape_loop col_url col_name col_output_file fst snd].
  destruct (scrape_collection_models w _) as [|m ms]; [done|].
  unfold bind.
  by destruct (enrich_models_by_id PRICING_DATA w (m :: ms) n1).
Qed.

Lemma search_model_details_candidate w model_name creator limit n m :
  fst (search_model_details w model_name creator limit n) = Some m ->
  exists r body status_code results,
    post w body = Reply status_code (Data results) /\ r ∈ results /\
    m = make_match r.
Proof.
  intros Hs.
  destruct (search_model_details_sound _ _ _ _ _ _ Hs)
    as (pre & t & r & post & s & He & -> & _).
  destruct (candidate_from_catalog w limit (search_terms model_name) t r n)
    as (body & code & results & Hp & Hin).
  { fold (events w model_name limit n). rewrite He. set_solver. }
  by exists r, body, code, results.
Qed.

Lemma resolve_by_id_candidate w model n m :
  fst (resolve_by_id w model n) = Some m ->
  exists r body status_code results,
    post w body = Reply status_code (Data results) /\ r ∈ results /\
    m = make_match r.
Proof.
  intros (model_name & n' & Hs)%resolve_by_id_Some.
  by eapply search_model_details_candidate.
Qed.

(** X21: the entries whose resolution fails are left out: the ["models"] list of
    popular_models.json holds, in the order of [POPULAR_MODELS], exactly one
    record for each curated entry whose search returned a model, and that of
    best_models.json (written when the page yields some model) the same for
    the scraped entries; the ["air"] of a record is that of a candidate the
    catalog returned, which the entry's own search selected; and when every
    candidate the catalog returns has an ["air"], no written record has a
    null ["air"]. *)
Theorem failed_entries_are_dropped pricing_file w today n :
  let PRICING_DATA := load_pricing_data pricing_file in
  let url := "https://runware.ai/collections/best-for-text-on-images" in
  let by_name := resolutions_by_name w POPULAR_MODELS n in
  let by_id :=
    resolutions_by_id w (scrape_collection_models w url)
      (snd (enrich_models_by_name PRICING_DATA w POPULAR_MODELS n)) in
  (exists popular rest,
     fst (main pricing_file w today n)
       = ("popular_models.json", popular) :: rest /\
     models_of popular =
       omap (fun '(model, api_data) =>
               record_by_name PRICING_DATA model <$> api_data) by_name /\
     (scrape_collection_models w url = [] -> rest = []) /\
     (scrape_collection_models w url <> [] ->
      exists best,
        rest = [("best_models.json", best)] /\
        models_of best =
          omap (fun '(model, api_data) =>
                  record_by_id PRICING_DATA model <$> api_data) by_id)) /\
  (forall model api_data,
     (model, Some api_data) ∈ by_name ->
     exists r n',
       fst (search_model_details w (ce_name model) (ce_creator model) 20 n')
         = Some (make_match r) /\
       (exists body status_code results,
          post w body = Reply status_code (Data results) /\ r ∈ results) /\
       api_data = make_match r /\
       dict_get "air" (record_by_name PRICING_DATA model api_data)
         = Some (r_air r)) /\
  (forall model api_data,
     (model, Some api_data) ∈ by_id ->
     exists r n',
       fst (resolve_by_id w model n') = Some (make_match r) /\
       (exists body status_code results,
          post w body = Reply status_code (Data results) /\ r ∈ results) /\
       api_data = make_match r /\
       dict_get "air" (record_by_id PRICING_DATA model api_data)
         = Some (r_air r)) /\
  (always_air w ->
   Forall (fun written => no_null_air written.2)
     (fst (main pricing_file w today n))).
Proof.
  cbn zeta. split_and!.
  - rewrite main_files_at. eexists _, _. split; [done|].
    rewrite models_of_output. split_and!.
    + unfold enrich_models_by_name. by rewrite enrich_by_name_loop_spec.
    + by intros ->.
    + intros Hne.
      destruct (scrape_collection_models w _) as [|m ms] eqn:Hpage; [done|].
      eexists. split; [done|]. rewrite models_of_output.
      unfold enrich_models_by_id at 1. by rewrite enrich_by_id_loop_spec.
  - intros model api_data (_ & n' & Hs)%resolutions_by_name_elem.
    destruct (search_model_details_candidate _ _ _ _ _ _ Hs)
      as (r & body & code & results & Hp & Hr & ->).
    exists r, n'. split_and!; [done|by eauto|done|].
    apply record_by_name_air.
  - intros model api_data (_ & n' & Hs)%resolutions_by_id_elem.
    destruct (resolve_by_id_candidate _ _ _ _ Hs)
      as (r & body & code & results & Hp & Hr & ->).
    exists r, n'. split_and!; [done|by eauto|done|].
    apply record_by_id_air.
  - apply main_air.
Qed.

Lemma failed_entries_are_dropped_witness :
  Forall (fun written => no_null_air written.2)
    (fst (main (Some sample_prices) imagen_pages_world "2026-11-04" 0%nat)).
Proof.
  refine (proj2 (proj2 (proj2 (failed_entries_are_dropped (Some sample_prices)
                                 imagen_pages_world "2026-11-04" 0%nat))) _).
  intros body status_code results r [= <- <-] Hr.
  apply elem_of_cons in Hr as [->|Hr]; [done|].
  apply list_elem_of_singleton in Hr as ->. done.
Defined.

(** C1: a candidate without ["air"] that a search selects is written, with a
    null ["air"].  Against a catalog that answers every search with one
    candidate of exactly the name searched and without ["air"], every one of
    the 24 popular models resolves and is written to popular_models.json
    with a null ["air"], and so is the scraped model to best_models.json:
    the test [if api_data:] does not skip them, though its [else] branch is
    commented [# Skip models without AIR]. *)
Theorem null_air_is_written :
  exists popular best,
    fst (main None anonymous_pages_world "2026-11-04" 0%nat) =
      [("popular_models.json", popular); ("best_models.json", best)] /\
    Forall (fun resolved => is_Some resolved.2)
      (resolutions_by_name anonymous_pages_world POPULAR_MODELS 0%nat) /\
    (dict_get "name" <$> models_of popular) =
      ((fun model => Some (JStr (ce_name model))) <$> POPULAR_MODELS) /\
    length (models_of popular) = 24%nat /\
    Forall (fun rec => dict_get "air" rec = Some JNull) (models_of popular) /\
    ((fun rec => (dict_get "model_id" rec, dict_get "air" rec))
       <$> models_of best) = [(Some (JStr "flux-2-dev"), Some JNull)] /\
    ~ Forall (fun written => no_null_air written.2)
        (fst (main None anonymous_pages_world "2026-11-04" 0%nat)).
Proof.
  assert (Hmain : fst (main None anonymous_pages_world "2026-11-04" 0%nat) =
    [ ("popular_models.json",
       output_document "https://runware.ai/models" "Popular Models"
         "2026-11-04"
         (fst (enrich_models_by_name [] anonymous_pages_world POPULAR_MODELS
                 0%nat)));
      ("best_models.json",
       output_document
         "https://runware.ai/collections/best-for-text-on-images"
         "Best for Text on Images" "2026-11-04"
         (fst (enrich_models_by_id [] anonymous_pages_world
                 (flux_page
                    "https://runware.ai/collections/best-for-text-on-images")
                 (snd (enrich_models_by_name [] anonymous_pages_world
                         POPULAR_MODELS 0%nat))))) ])
    by apply main_files_at.
  eexists _, _. split; [exact Hmain|].
  rewrite !models_of_output.
  split_and!.
  - vm_compute. repeat constructor; by eexists.
  - vm_compute. reflexivity.
  - vm_compute. reflexivity.
  - vm_compute. repeat constructor.
  - vm_compute. reflexivity.
  - rewrite Hmain. intros [H _]%Forall_cons. cbn [snd] in H.
    unfold no_null_air in H. rewrite models_of_output in H.
    assert (Hhd : head (fst (enrich_models_by_name [] anonymous_pages_world
                               POPULAR_MODELS 0%nat))
                  = Some (record_by_name [] (Build_curated_entry
                            "ImagineArt 1.5 Pro" (Some "ImagineArt"))
                            (make_match (anonymous_result "ImagineArt 1.5 Pro"))))
      by (vm_compute; reflexivity).
    destruct (fst (enrich_models_by_name [] anonymous_pages_world
                     POPULAR_MODELS 0%nat)) as [|rec others]; [done|].
    injection Hhd as ->.
    destruct (H _ ltac:(left)) as (a & Ha & Hnull).
    vm_compute in Ha. congruence.
Qed.

(** ** Scraped entries *)

Lemma enrich_models_by_id_resolved PRICING_DATA w models_list n rec :
  rec ∈ fst (enrich_models_by_id PRICING_DATA w models_list n) <->
  exists model api_data,
    (model, Some api_data) ∈ resolutions_by_id w models_list n /\
    rec = record_by_id PRICING_DATA model api_data.
Proof.
  unfold enrich_models_by_id. rewrite enrich_by_id_loop_spec, app_nil_l.
  rewrite list_elem_of_omap. split.
  - intros ([model [api_data|]] & Hin & Hrec); [|done].
    injection Hrec as <-. eauto.
  - intros (model & api_data & Hin & ->). by exists (model, Some api_data).
Qed.

(** C10: the records written for a scraped list are those of its entries
    that resolve.  The record of an entry is built from the candidate that
    the entry's own resolution (by display name, then by identifier)
    selected: its ["name"] is the name of that candidate when it is a
    non-empty string and the scraped display name otherwise, and its price
    is the one [match_pricing] finds for that same name (no price entry when
    it finds none), not for the model identifier. *)
Theorem scraped_record_name PRICING_DATA w models_list n rec :
  rec ∈ fst (enrich_models_by_id PRICING_DATA w models_list n) <->
  exists model r chosen,
    (model, Some (make_match r)) ∈ resolutions_by_id w models_list n /\
    model ∈ models_list /\
    (exists n', fst (resolve_by_id w model n') = Some (make_match r)) /\
    (exists body status_code results,
       post w body = Reply status_code (Data results) /\ r ∈ results) /\
    chosen = match r_name r with
             | NameStr (String c s) => String c s
             | _ => se_name model
             end /\
    rec = record_by_id PRICING_DATA model (make_match r) /\
    dict_get "model_id" rec = Some (JStr (se_model_id model)) /\
    dict_get "name" rec = Some (JStr chosen) /\
    dict_get "price_usd" rec = price_usd <$> match_pricing PRICING_DATA chosen.
Proof.
  rewrite enrich_models_by_id_resolved. split.
  - intros (model & d & Hin & ->).
    destruct (resolutions_by_id_elem _ _ _ _ _ Hin) as (Hm & n' & Hs).
    destruct (resolve_by_id_candidate _ _ _ _ Hs)
      as (r & body & code & results & Hp & Hr & ->).
    exists model, r, (name_or (make_match r) (se_name model)).
    split_and!; [done|done|by eauto|by eauto| |done| | |].
    + unfold name_or, make_match. cbn [name].
      by destruct (r_name r) as [|[|c s]|].
    + unfold record_by_id. by rewrite attach_pricing_other.
    + unfold record_by_id. by rewrite attach_pricing_other.
    + unfold record_by_id. by rewrite attach_pricing_price.
  - intros (model & r & chosen & Hin & _ & _ & _ & _ & -> & _).
    by exists model, (make_match r).
Qed.

Lemma scraped_record_name_witness :
  exists model r chosen,
    (model, Some (make_match r)) ∈
      resolutions_by_id imagen_pages_world
        (text_page "https://runware.ai/collections/best-for-text-on-images")
        0%nat /\
    model ∈ text_page "https://runware.ai/collections/best-for-text-on-images" /\
    (exists n', fst (resolve_by_id imagen_pages_world model n')
                = Some (make_match r)) /\
    (exists body status_code results,
       post imagen_pages_world body = Reply status_code (Data results) /\
       r ∈ results) /\
    chosen = match r_name r with
             | NameStr (String c s) => String c s
             | _ => se_name model
             end /\
    record_by_id (load_pricing_data (Some sample_prices))
      {| se_model_id := "imagen-4-fast"; se_name := "Imagen 4 Fast" |}
      (make_match imagen_exact)
      = record_by_id (load_pricing_data (Some sample_prices)) model
          (make_match r) /\
    dict_get "model_id"
      (record_by_id (load_pricing_data (Some sample_prices))
         {| se_model_id := "imagen-4-fast"; se_name := "Imagen 4 Fast" |}
         (make_match imagen_exact))
      = Some (JStr (se_model_id model)) /\
    dict_get "name"
      (record_by_id (load_pricing_data (Some sample_prices))
         {| se_model_id := "imagen-4-fast"; se_name := "Imagen 4 Fast" |}
         (make_match imagen_exact))
      = Some (JStr chosen) /\
    dict_get "price_usd"
      (record_by_id (load_pricing_data (Some sample_prices))
         {| se_model_id := "imagen-4-fast"; se_name := "Imagen 4 Fast" |}
         (make_match imagen_exact))
      = price_usd <$> match_pricing (load_pricing_data (Some sample_prices)) chosen.
Proof.
  refine (proj1 (scraped_record_name (load_pricing_data (Some sample_prices))
                   imagen_pages_world
                   (text_page "https://runware.ai/collections/best-for-text-on-images")
                   0%nat
                   (record_by_id (load_pricing_data (Some sample_prices))
                      {| se_model_id := "imagen-4-fast";
                         se_name := "Imagen 4 Fast" |}
                      (make_match imagen_exact))) _).
  vm_compute. left.
Defined.

(** A record is never written from the candidate of another entry: here the
    second entry resolves to a partial match of its own, not to the exact
    match of the first. *)
Example scraped_records_use_own_candidate :
  List.map (fun rec => (dict_get "model_id" rec, dict_get "name" rec,
                        dict_get "air" rec))
    (fst (enrich_models_by_id [] imagen_pages_world
            [ {| se_model_id := "imagen-4-fast"; se_name := "Imagen 4 Fast" |};
              {| se_model_id := "imagen-4"; se_name := "" |} ] 0%nat))
  = [ (Some (JStr "imagen-4-fast"), Some (JStr "Imagen 4 Fast"),
       Some (JStr "google:2@3"));
      (Some (JStr "imagen-4"), Some (JStr "Imagen 4"),
       Some (JStr "google:2@1")) ].
Proof. vm_compute. reflexivity. Qed.

Example scraped_entries_enriched :
  List.map (dict_get "name")
    (fst (enrich_models_by_id (load_pricing_data (Some sample_prices))
            imagen_pages_world
            (text_page "https://runware.ai/collections/best-for-text-on-images")
            0%nat))
  = [Some (JStr "Imagen 4 Fast")].
Proof. vm_compute. reflexivity. Qed.

(** ** Two runs *)

Section TwoRuns.

Variables w1 w2 : world.
Hypothesis Hsame : same_answers w1 w2.

Lemma events_from_same limit terms : forall n1 n2,
  events_from w1 limit terms n1 = events_from w2 limit terms n2.
Proof.
  induction terms as [|t terms IH]; intros n1 n2; [done|].
  cbn [events_from]. unfold request. by rewrite (Hsame _ (uuid_source w2 n2)), (IH _ (S n2)).
Qed.

Lemma search_model_details_same model_name creator limit n1 n2 :
  fst (search_model_details w1 model_name creator limit n1) =
  fst (search_model_details w2 model_name creator limit n2).
Proof.
  rewrite !search_model_details_scan. unfold events.
  by rewrite (events_from_same _ _ n1 n2).
Qed.

Lemma resolve_by_id_same model n1 n2 :
  fst (resolve_by_id w1 model n1) = fst (resolve_by_id w2 model n2).
Proof.
  unfold resolve_by_id, bind.
  destruct (Py.nonempty (se_name model)); cbn [ret];
    [|apply search_model_details_same].
  pose proof (search_model_details_same (se_name model) None 20 n1 n2) as H.
  destruct (search_model_details w1 (se_name model) None 20 n1) as [d1 n1'],
    (search_model_details w2 (se_name model) None 20 n2) as [d2 n2'].
  cbn [fst] in H. subst d2.
  destruct d1; [done|apply search_model_details_same].
Qed.

Lemma enrich_by_name_loop_same PRICING_DATA models_list :
  forall enriched n1 n2,
  fst (enrich_by_name_loop PRICING_DATA w1 models_list enriched n1) =
  fst (enrich_by_name_loop PRICING_DATA w2 models_list enriched n2).
Proof.
  induction models_list as [|model rest IH]; intros enriched n1 n2; [done|].
  cbn [enrich_by_name_loop]. unfold bind.
  pose proof (search_model_details_same (ce_name model) (ce_creator model)
                20 n1 n2) as H.
  destruct (search_model_details w1 (ce_name model) (ce_creator model) 20 n1)
    as [d1 n1'],
    (search_model_details w2 (ce_name model) (ce_creator model) 20 n2)
    as [d2 n2'].
  cbn [fst] in H. subst d2. destruct d1; apply IH.
Qed.

Lemma enrich_by_id_loop_same PRICING_DATA models_list :
  forall enriched n1 n2,
  fst (enrich_by_id_loop PRICING_DATA w1 models_list enriched n1) =
  fst (enrich_by_id_loop PRICING_DATA w2 models_list enriched n2).
Proof.
  induction models_list as [|model rest IH]; intros enriched n1 n2; [done|].
  cbn [enrich_by_id_loop]. unfold bind.
  pose proof (resolve_by_id_same model n1 n2) as H.
  destruct (resolve_by_id w1 model n1) as [d1 n1'],
    (resolve_by_id w2 model n2) as [d2 n2'].
  cbn [fst] in H. subst d2. destruct d1; apply IH.
Qed.

Hypothesis Hpages :
  forall url, scrape_collection_models w1 url = scrape_collection_models w2 url.

(** [view] is any reading of a document that does not depend on the date. *)
Variable view : json -> json.
Variables today1 today2 : string.
Hypothesis Hview : forall source collection_name enriched,
  view (output_document source collection_name today1 enriched) =
  view (output_document source collection_name today2 enriched).

Lemma scrape_loop_same PRICING_DATA collections :
  forall written1 written2 n1 n2,
  prod_map id view <$> written1 = prod_map id view <$> written2 ->
  prod_map id view <$>
    fst (scrape_loop PRICING_DATA w1 today1 collections written1 n1) =
  prod_map id view <$>
    fst (scrape_loop PRICING_DATA w2 today2 collections written2 n2).
Proof.
  induction collections as [|c rest IH]; intros written1 written2 n1 n2 Hw;
    [done|].
  cbn [scrape_loop]. rewrite <- Hpages.
  destruct (scrape_collection_models w1 (col_url c)) as [|m ms];
    [by apply IH|].
  unfold bind.
  pose proof (enrich_by_id_loop_same PRICING_DATA (m :: ms) [] n1 n2) as H.
  fold (enrich_models_by_id PRICING_DATA w1 (m :: ms) n1) in H.
  fold (enrich_models_by_id PRICING_DATA w2 (m :: ms) n2) in H.
  destruct (enrich_models_by_id PRICING_DATA w1 (m :: ms) n1) as [e1 n1'],
    (enrich_models_by_id PRICING_DATA w2 (m :: ms) n2) as [e2 n2'].
  cbn [fst] in H. subst e2. apply IH.
  rewrite !fmap_app, Hw. cbn. unfold prod_map. cbn. by rewrite Hview.
Qed.

Lemma main_same pricing_file n1 n2 :
  prod_map id view <$> fst (main pricing_file w1 today1 n1) =
  prod_map id view <$> fst (main pricing_file w2 today2 n2).
Proof.
  unfold main, enrich_models_by_name.
  generalize POPULAR_MODELS SCRAPE_COLLECTIONS (load_pricing_data pricing_file).
  intros popular collections PRICING_DATA. unfold bind.
  pose proof (enrich_by_name_loop_same PRICING_DATA popular [] n1 n2) as H.
  destruct (enrich_by_name_loop PRICING_DATA w1 popular [] n1) as [e1 n1'],
    (enrich_by_name_loop PRICING_DATA w2 popular [] n2) as [e2 n2'].
  cbn [fst] in H. subst e2. apply scrape_loop_same.
  cbn [fmap list_fmap prod_map fst snd id]. by rewrite Hview.
Qed.

End TwoRuns.

Lemma without_date_output source collection_name today1 today2 enriched :
  without_date (output_document source collection_name today1 enriched) =
  without_date (output_document source collection_name today2 enriched).
Proof. done. Qed.

(** C8: two runs on the same pricing file and the same pages, against
    catalogs that answer each search alike whatever identifier the request
    carries, write the same files with the same documents, the
    ["date_extracted"] entry apart: neither the identifiers drawn nor their
    number at the start has any influence; on the same day the documents
    are identical. *)
Theorem runs_differ_in_date_only pricing_file w1 w2 today1 today2 n1 n2 :
  same_answers w1 w2 ->
  (forall url,
     scrape_collection_models w1 url = scrape_collection_models w2 url) ->
  prod_map id without_date <$> fst (main pricing_file w1 today1 n1) =
  prod_map id without_date <$> fst (main pricing_file w2 today2 n2) /\
  (today1 = today2 ->
   fst (main pricing_file w1 today1 n1) = fst (main pricing_file w2 today2 n2)).
Proof.
  intros Hsame Hpages. split.
  - apply main_same; [done|done|]. intros. apply without_date_output.
  - intros <-.
    pose proof (main_same w1 w2 Hsame Hpages id today1 today1
                  ltac:(done) pricing_file n1 n2) as H.
    assert (Hid : forall l : list (string * json), prod_map id id <$> l = l).
    { intros l. induction l as [|[p d] l IH]; [done|]. cbn. by rewrite IH. }
    by rewrite !Hid in H.
Qed.

Lemma runs_differ_in_date_only_witness :
  prod_map id without_date <$>
    fst (main (Some sample_prices) imagen_pages_world "2026-11-04" 0%nat) =
  prod_map id without_date <$>
    fst (main (Some sample_prices) imagen_pages_world' "2026-11-05" 7%nat) /\
  ("2026-11-04" = "2026-11-05" ->
   fst (main (Some sample_prices) imagen_pages_world "2026-11-04" 0%nat) =
   fst (main (Some sample_prices) imagen_pages_world' "2026-11-05" 7%nat)).
Proof.
  exact (runs_differ_in_date_only (Some sample_prices) imagen_pages_world
           imagen_pages_world' "2026-11-04" "2026-11-05" 0%nat 7%nat
           (fun _ _ _ _ => eq_refl) (fun _ => eq_refl)).
Defined.

Example runs_written :
  List.map fst
    (fst (main (Some sample_prices) imagen_pages_world "2026-11-04" 0%nat))
  = ["popular_models.json"; "best_models.json"].
Proof. vm_compute. reflexivity. Qed.

(** ** The loaded pricing map *)

Lemma keys_dict_set_eq {V} k (v : V) d :
  (dict_set k v d).*1 = if bool_decide (k ∈ d.*1) then d.*1 else d.*1 ++ [k].
Proof.
  induction d as [|[k0 v0] d IH]; [done|]. cbn [dict_set].
  destruct (String.eqb_spec k0 k) as [->|Hne].
  - rewrite bool_decide_true by (cbn; left). done.
  - cbn [fmap list_fmap fst] in *. rewrite IH.
    destruct (bool_decide (k ∈ d.*1)) eqn:Hd.
    + apply bool_decide_eq_true in Hd.
      rewrite bool_decide_true by (by right). done.
    + apply bool_decide_eq_false in Hd.
      rewrite bool_decide_false; [done|].
      intros [?|?]%elem_of_cons; [congruence|done].
Qed.

Lemma load_models_first_seen models : forall pricing,
  (load_models models pricing).*1 =
  first_seen_from pricing.*1 (stored_key <$> models).
Proof.
  induction models as [|e models IH]; intros pricing; [done|].
  rewrite load_models_step, IH, keys_dict_set_eq. cbn [fmap list_fmap first_seen_from].
  by destruct (bool_decide (stored_key e ∈ pricing.*1)).
Qed.

Lemma load_models_grows models k : forall pricing,
  k ∈ pricing.*1 -> k ∈ (load_models models pricing).*1.
Proof.
  induction models as [|e models IH]; intros pricing Hk; [done|].
  rewrite load_models_step. apply IH. rewrite keys_dict_set_eq.
  destruct (bool_decide _); [done|]. apply elem_of_app. by left.
Qed.

Lemma load_models_has_key models e : forall pricing,
  e ∈ models -> stored_key e ∈ (load_models models pricing).*1.
Proof.
  induction models as [|e0 models IH]; intros pricing He.
  - by apply elem_of_nil in He.
  - rewrite load_models_step.
    apply elem_of_cons in He as [->|He]; [|by apply IH].
    apply load_models_grows. rewrite keys_dict_set_eq.
    destruct (bool_decide _) eqn:Hd; [by apply bool_decide_eq_true in Hd|].
    apply elem_of_app. right. by left.
Qed.

Lemma dict_get_is_Some {V} k (d : list (string * V)) :
  k ∈ d.*1 -> is_Some (dict_get k d).
Proof.
  induction d as [|[k0 v0] d IH]; cbn.
  - intros H. by apply elem_of_nil in H.
  - destruct (String.eqb_spec k0 k) as [->|Hne]; [by eexists|].
    intros [?|?]%elem_of_cons; [congruence|auto].
Qed.

Lemma load_models_length models : forall pricing,
  (length (load_models models pricing) <= length pricing + length models)%nat.
Proof.
  induction models as [|e models IH]; intros pricing; [cbn; lia|].
  rewrite load_models_step. etrans; [apply IH|].
  assert (Hlen : forall k (v : price_record) d,
             (length (dict_set k v d) <= S (length d))%nat).
  { intros k v d. induction d as [|[k0 v0] d IHd]; cbn; [lia|].
    destruct (String.eqb k0 k); cbn; lia. }
  specialize (Hlen (stored_key e) (stored_record e) pricing). cbn. lia.
Qed.

(** X1: the pricing map has pairwise distinct keys, each one lower case and
    without surrounding white space, one for every entry of the table and no
    more entries than the table; without a pricing file it is empty. *)
Theorem pricing_map_invariant :
  load_pricing_data None = [] /\
  forall models,
    NoDup (load_pricing_data (Some models)).*1 /\
    (forall k, k ∈ (load_pricing_data (Some models)).*1 ->
               Py.strip (Py.lower k) = k) /\
    (forall e, e ∈ models ->
               is_Some (dict_get (stored_key e)
                          (load_pricing_data (Some models)))) /\
    (length (load_pricing_data (Some models)) <= length models)%nat.
Proof.
  split; [done|]. intros models. cbn [load_pricing_data]. split_and!.
  - apply load_models_NoDup, NoDup_nil_2.
  - apply load_models_keys. intros k Hk. by apply elem_of_nil in Hk.
  - intros e He. by apply dict_get_is_Some, load_models_has_key.
  - apply (load_models_length models []).
Qed.

(** X2: the keys of the pricing map stand in the order in which the
    normalized names first occur in the table, which is the order the
    fallback of [match_pricing] tries them in. *)
Theorem pricing_map_order models :
  (load_pricing_data (Some models)).*1 = first_seen (stored_key <$> models).
Proof. apply (load_models_first_seen models []). Qed.

Example pricing_map_order_sample :
  (load_pricing_data (Some sample_prices)).*1 = ["flux.2 dev"; "imagen 4 fast"].
Proof. reflexivity. Qed.

(** ** What the matcher returns *)

Lemma first_variant_Some variations PRICING_DATA r :
  first_variant variations PRICING_DATA = Some r ->
  exists pre v post,
    variations = pre ++ v :: post /\
    (forall u, u ∈ pre -> dict_get u PRICING_DATA = None) /\
    dict_get v PRICING_DATA = Some r.
Proof.
  induction variations as [|v vs IH]; [done|]. cbn [first_variant].
  destruct (dict_get v PRICING_DATA) as [r'|] eqn:Hv.
  - intros [= ->]. exists [], v, vs. split_and!; [done| |done].
    intros u Hu. by apply elem_of_nil in Hu.
  - intros (pre & v' & post & -> & Hpre & Hv')%IH.
    exists (v :: pre), v', post. split_and!; [done| |done].
    intros u [->|Hu]%elem_of_cons; auto.
Qed.

Lemma first_variant_hit pre v post PRICING_DATA r :
  (forall u, u ∈ pre -> dict_get u PRICING_DATA = None) ->
  dict_get v PRICING_DATA = Some r ->
  first_variant (pre ++ v :: post) PRICING_DATA = Some r.
Proof.
  intros Hpre Hv. induction pre as [|u pre IH]; cbn [first_variant app].
  - by rewrite Hv.
  - rewrite (Hpre u) by (by left). apply IH. intros u' Hu'. apply Hpre. by right.
Qed.

Lemma match_pricing_stored PRICING_DATA model_name r :
  match_pricing PRICING_DATA model_name = Some r ->
  exists key, (key, r) ∈ PRICING_DATA.
Proof.
  unfold match_pricing. destruct PRICING_DATA as [|kv d]; [done|].
  set (P := kv :: d). set (name := Py.strip (Py.lower model_name)).
  destruct (dict_get name P) as [r0|] eqn:Hdirect.
  { intros [= ->]. exists name. by apply dict_get_elem. }
  destruct (first_variant (pricing_variations name) P) as [r0|] eqn:Hvar.
  { intros [= ->]. apply first_variant_Some in Hvar as (_ & v & _ & _ & _ & Hv).
    exists v. by apply dict_get_elem. }
  intros (pre & key & post & -> & _)%partial_match_Some.
  exists key. set_solver.
Qed.

(** X3: [match_pricing] never makes a record up: what it returns is a
    record stored in the pricing map, and with an empty map it returns
    nothing. *)
Theorem match_pricing_returns_stored PRICING_DATA model_name :
  match_pricing [] model_name = None /\
  forall r,
    match_pricing PRICING_DATA model_name = Some r ->
    exists key, (key, r) ∈ PRICING_DATA.
Proof. split; [done|]. apply match_pricing_stored. Qed.

Lemma match_pricing_returns_stored_witness :
  exists key,
    (key, {| price_usd := JInt 2; configuration := JNull; discount := JNull |})
      ∈ load_pricing_data (Some sample_prices).
Proof.
  exact (proj2 (match_pricing_returns_stored
                  (load_pricing_data (Some sample_prices)) "IMAGEN 4 fast ")
           _ eq_refl).
Defined.

Lemma match_pricing_priority PRICING_DATA model_name pre v post r :
  Py.strip (Py.lower model_name)
    :: pricing_variations (Py.strip (Py.lower model_name)) = pre ++ v :: post ->
  (forall u, u ∈ pre -> dict_get u PRICING_DATA = None) ->
  dict_get v PRICING_DATA = Some r ->
  match_pricing PRICING_DATA model_name = Some r.
Proof.
  intros Hlist Hpre Hv. unfold match_pricing.
  destruct PRICING_DATA as [|kv d]; [done|].
  set (P := kv :: d) in *. set (name := Py.strip (Py.lower model_name)) in *.
  destruct pre as [|u pre]; cbn [app] in Hlist; injection Hlist as <- Hvars.
  - by rewrite Hv.
  - rewrite (Hpre name) by (by left). rewrite Hvars.
    rewrite (first_variant_hit pre v post P r); [done| |done].
    intros u' Hu'. apply Hpre. by right.
Qed.

(** X4: the lookups of [match_pricing] are tried in a fixed order: the
    normalized name, then the name without brackets, without the
    middle-dot bytes, with hyphens turned into spaces, and cut at the first
    parenthesis; the record of the first of these that is a key of the map
    is returned, and the fallback is not consulted. *)
Theorem match_pricing_first_hit PRICING_DATA model_name pre v post r :
  let name := Py.strip (Py.lower model_name) in
  [ name;
    Py.replace "]" "" (Py.replace "[" "" name);
    Py.strip (Py.replace middle_dots "" name);
    Py.replace "-" " " name;
    Py.strip (Py.split_head "(" name) ] = pre ++ v :: post ->
  (forall u, u ∈ pre -> dict_get u PRICING_DATA = None) ->
  dict_get v PRICING_DATA = Some r ->
  match_pricing PRICING_DATA model_name = Some r.
Proof. intros name. apply match_pricing_priority. Qed.

Lemma match_pricing_first_hit_witness :
  match_pricing (load_pricing_data (Some sample_prices)) "FLUX.2 [dev]"
  = Some {| price_usd := JInt 3; configuration := JNull;
            discount := JStr "10%" |}.
Proof.
  apply (match_pricing_first_hit (load_pricing_data (Some sample_prices))
           "FLUX.2 [dev]" ["flux.2 [dev]"] "flux.2 dev"
           ["flux.2 [dev]"; "flux.2 [dev]"; "flux.2 [dev]"]).
  - reflexivity.
  - intros u Hu. apply list_elem_of_singleton in Hu as ->. reflexivity.
  - reflexivity.
Defined.

(** ** The search terms *)

Lemma nonempty_spec s : Py.nonempty s = true <-> s <> EmptyString.
Proof. by destruct s. Qed.

Lemma dedup_NoDup vars : forall acc, NoDup acc -> NoDup (dedup vars acc).
Proof.
  induction vars as [|t vars IH]; intros acc Hnd; [done|]. cbn [dedup].
  unfold Py.mem. destruct (Py.nonempty t); cbn [andb]; [|auto].
  case_bool_decide as Hin; cbn [negb]; [auto|].
  apply IH, NoDup_app. split_and!; [done| |apply NoDup_singleton].
  intros x Hx ->%list_elem_of_singleton. done.
Qed.

Lemma dedup_elem vars x : forall acc,
  x ∈ dedup vars acc <-> x ∈ acc \/ (x ∈ vars /\ x <> EmptyString).
Proof.
  induction vars as [|t vars IH]; intros acc; cbn [dedup].
  - split; [by left|]. intros [?|[H _]]; [done|]. by apply elem_of_nil in H.
  - unfold Py.mem. destruct (Py.nonempty t) eqn:Hne; cbn [andb].
    + apply nonempty_spec in Hne. case_bool_decide as Hin; cbn [negb];
        rewrite IH, ?elem_of_app, ?list_elem_of_singleton, elem_of_cons.
      * split; [intros [?|[? ?]]; auto|].
        intros [?|[[->|?] ?]]; auto.
      * split; [intros [[?| ->]|[? ?]]; auto|].
        intros [?|[[->|?] ?]]; auto.
    + assert (t = EmptyString) as -> by (by destruct t).
      rewrite IH, elem_of_cons. split; [intros [?|[? ?]]; auto|].
      intros [?|[[->|?] ?]]; auto. done.
Qed.

Lemma dedup_length vars : forall acc,
  (length (dedup vars acc) <= length acc + length vars)%nat.
Proof.
  induction vars as [|t vars IH]; intros acc; cbn [dedup length]; [lia|].
  destruct (_ && _).
  - etrans; [apply IH|]. rewrite length_app. cbn. lia.
  - etrans; [apply IH|]. lia.
Qed.

Lemma dedup_prefix vars : forall acc, acc `prefix_of` dedup vars acc.
Proof.
  induction vars as [|t vars IH]; intros acc; cbn [dedup]; [done|].
  destruct (_ && _); [|apply IH].
  etrans; [|apply IH]. by apply prefix_app_r.
Qed.

Lemma dedup_head t vars :
  t <> EmptyString -> exists rest, dedup (t :: vars) [] = t :: rest.
Proof.
  intros Hne. cbn [dedup]. rewrite (proj2 (nonempty_spec t)) by done.
  unfold Py.mem. rewrite bool_decide_false by apply not_elem_of_nil.
  cbn [andb negb app]. destruct (dedup_prefix vars [t]) as [rest ->].
  by exists rest.
Qed.

Lemma dedup_first_seen vars : forall acc,
  dedup vars acc =
  first_seen_from acc (filter (fun t => t <> EmptyString) vars).
Proof.
  induction vars as [|t vars IH]; intros acc; [done|]. cbn [dedup].
  unfold Py.mem. destruct t as [|c t].
  - cbn [Py.nonempty andb]. rewrite filter_cons_False by (intros H; by apply H). apply IH.
  - cbn [Py.nonempty andb]. rewrite filter_cons_True by done.
    cbn [first_seen_from]. case_bool_decide; cbn [negb]; apply IH.
Qed.

(** X5: the search terms of a name are its non-empty spelling variants,
    each once, in the order original, brackets removed, dash rewritten, cut
    at the first parenthesis; there are at most four, and the original name
    comes first unless it is empty. *)
Theorem search_terms_distinct model_name :
  NoDup (search_terms model_name) /\
  (forall t, t ∈ search_terms model_name <->
             t ∈ search_variations model_name /\ t <> EmptyString) /\
  search_terms model_name =
    first_seen (filter (fun t => t <> EmptyString)
                  (search_variations model_name)) /\
  (length (search_terms model_name) <= 4)%nat /\
  (model_name <> EmptyString ->
   exists rest, search_terms model_name = model_name :: rest).
Proof.
  unfold search_terms. split_and!.
  - apply dedup_NoDup, NoDup_nil_2.
  - intros t. rewrite dedup_elem. split; [|by right].
    intros [H|H]; [by apply elem_of_nil in H|done].
  - apply dedup_first_seen.
  - apply (dedup_length (search_variations model_name) []).
  - intros Hne. by apply dedup_head.
Qed.

Example search_terms_brackets :
  search_terms "FLUX.2 [klein] 9B (beta)" =
  ["FLUX.2 [klein] 9B (beta)"; "FLUX.2 klein 9B (beta)"; "FLUX.2 [klein] 9B"].
Proof. reflexivity. Qed.

(** ** The requests of a search *)

Lemma search_loop_requests w model_name creator limit terms : forall b bs n,
  (n <= snd (search_loop w model_name creator limit terms b bs n)
     <= n + length terms)%nat.
Proof.
  induction terms as [|t terms IH]; intros b bs n; [cbn; lia|].
  cbn [search_loop length]. unfold bind, uuid4.
  destruct (post w _) as [|code data]; [cbn; lia|].
  destruct (negb (code =? 200)).
  { specialize (IH b bs (S n)). lia. }
  destruct data as [| |results]; [cbn; lia| |].
  { specialize (IH b bs (S n)). lia. }
  destruct (score_results model_name t creator results b bs)
    as [[m|[b' bs']]|]; [cbn; lia| |cbn; lia].
  specialize (IH b' bs' (S n)). lia.
Qed.

Lemma search_model_details_snd w model_name creator limit n :
  snd (search_model_details w model_name creator limit n) =
  snd (search_body w model_name creator limit n).
Proof.
  unfold search_model_details, bind.
  by destruct (search_body w model_name creator limit n).
Qed.

(** X6: a search sends at most one request for each search term, so at most
    four, each with the next identifier of the source; for the empty name it
    sends none and finds nothing. *)
Theorem search_requests_bounded w model_name creator limit n :
  (n <= snd (search_model_details w model_name creator limit n)
     <= n + length (search_terms model_name))%nat /\
  (snd (search_model_details w model_name creator limit n) <= n + 4)%nat /\
  search_model_details w EmptyString creator limit n = (None, n).
Proof.
  rewrite search_model_details_snd. unfold search_body.
  pose proof (search_loop_requests w model_name creator limit
                (search_terms model_name) None 0 n) as H.
  assert (Hlen : (length (search_terms model_name) <= 4)%nat)
    by exact (dedup_length (search_variations model_name) []).
  split_and!; [lia|lia|lia|done].
Qed.

(** ** Scores *)

Lemma amended_score_perfect original variant creator candidate serialized :
  100 <= amended_score original variant creator candidate serialized <->
  (Py.lower candidate = Py.lower original \/
   Py.lower candidate = Py.lower variant) \/
  (within variant candidate = false /\ within candidate variant = false /\
   (5 <= shared_words (Py.lower original) (Py.lower candidate))%nat).
Proof.
  unfold amended_score, stated_base.
  destruct (decide _) as [He|Hne].
  { split; [by left|]. intros _. destruct (_ && _); lia. }
  destruct (within variant candidate) eqn:H1; cbn [orb].
  { split; [destruct (_ && _); lia|]. intros [?|(? & _)]; done. }
  destruct (within candidate variant) eqn:H2.
  { split; [destruct (_ && _); lia|]. intros [?|(_ & ? & _)]; done. }
  split.
  - intros H. right. split_and!; [done..|]. destruct (_ && _); lia.
  - intros [?|(_ & _ & H)]; [done|]. destruct (_ && _); lia.
Qed.

Lemma amended_score_accepted original variant creator candidate serialized :
  40 <= amended_score original variant creator candidate serialized <->
  (Py.lower candidate = Py.lower original \/
   Py.lower candidate = Py.lower variant) \/
  (within variant candidate = true \/ within candidate variant = true) \/
  (2 <= shared_words (Py.lower original) (Py.lower candidate))%nat.
Proof.
  unfold amended_score, stated_base.
  destruct (decide _) as [He|Hne].
  { split; [by left|]. intros _. destruct (_ && _); lia. }
  destruct (within variant candidate) eqn:H1; cbn [orb].
  { split; [by right; left; left|]. intros _. destruct (_ && _); lia. }
  destruct (within candidate variant) eqn:H2.
  { split; [by right; left; right|]. intros _. destruct (_ && _); lia. }
  split.
  - intros H. right. right. destruct (_ && _); lia.
  - intros [?|[[?|?]|H]]; [done..|]. destruct (_ && _); lia.
Qed.

(** X7: a candidate ends the search at once (its score reaches 100) exactly
    when its name is the original name or the variant, letter case ignored,
    or when, being no substring match, it shares at least five words with
    the original name; four shared words and the creator bonus make 90. *)
Theorem perfect_score_cases model_name search_term creator r candidate s :
  candidate_name r = Some candidate ->
  score_result model_name search_term creator r = Ok s ->
  (100 <= s <->
   (Py.lower candidate = Py.lower model_name \/
    Py.lower candidate = Py.lower search_term) \/
   (within search_term candidate = false /\
    within candidate search_term = false /\
    (5 <= shared_words (Py.lower model_name) (Py.lower candidate))%nat)).
Proof.
  intros Hc Hs. rewrite score_result_amended, Hc in Hs. injection Hs as <-.
  apply amended_score_perfect.
Qed.

Lemma perfect_score_cases_witness :
  100 <= 120 <->
  (Py.lower "six five four three two one" = Py.lower "one two three four five six" \/
   Py.lower "six five four three two one" = Py.lower "one two three four five six") \/
  (within "one two three four five six" "six five four three two one" = false /\
   within "six five four three two one" "one two three four five six" = false /\
   (5 <= shared_words (Py.lower "one two three four five six")
           (Py.lower "six five four three two one"))%nat).
Proof.
  apply (perfect_score_cases "one two three four five six"
           "one two three four five six" None shuffled_result
           "six five four three two one" 120).
  - reflexivity.
  - vm_compute. reflexivity.
Defined.

(** X8: the candidate behind a returned model is an exact match, a
    substring match of the variant that returned it, or shares at least two
    words with the original name: a single shared word, worth 20, is not
    accepted even with the creator bonus. *)
Theorem accepted_candidate_cases w model_name creator limit n m :
  fst (search_model_details w model_name creator limit n) = Some m ->
  exists t r candidate,
    Candidate t r ∈ events w model_name limit n /\
    m = make_match r /\
    candidate_name r = Some candidate /\
    ((Py.lower candidate = Py.lower model_name \/
      Py.lower candidate = Py.lower t) \/
     (within t candidate = true \/ within candidate t = true) \/
     (2 <= shared_words (Py.lower model_name) (Py.lower candidate))%nat).
Proof.
  intros Hm.
  destruct (search_model_details_sound _ _ _ _ _ _ Hm)
    as (pre & t & r & post & s & He & -> & Hs & H40 & _).
  rewrite score_result_amended in Hs.
  destruct (candidate_name r) as [candidate|] eqn:Hc; [|done].
  injection Hs as <-.
  exists t, r, candidate. split_and!; [rewrite He; set_solver|done|done|].
  by apply (amended_score_accepted _ _ creator _ (r_str r)).
Qed.

Lemma accepted_candidate_cases_witness :
  exists t r candidate,
    Candidate t r ∈ events imagen_world "Imagen 4 Fast" 20 0%nat /\
    make_match imagen_exact = make_match r /\
    candidate_name r = Some candidate /\
    ((Py.lower candidate = Py.lower "Imagen 4 Fast" \/
      Py.lower candidate = Py.lower t) \/
     (within t candidate = true \/ within candidate t = true) \/
     (2 <= shared_words (Py.lower "Imagen 4 Fast") (Py.lower candidate))%nat).
Proof.
  apply (accepted_candidate_cases imagen_world "Imagen 4 Fast" (Some "Google")
           20 0%nat (make_match imagen_exact)).
  vm_compute. reflexivity.
Defined.

(** ** Candidates without a name *)

Lemma lower_nonempty s : s <> EmptyString -> Py.lower s <> EmptyString.
Proof. by destruct s. Qed.

Lemma base_score_nameless model_name search_term :
  model_name <> EmptyString -> search_term <> EmptyString ->
  base_score model_name search_term EmptyString = 80.
Proof.
  intros Hn%lower_nonempty Ht%lower_nonempty. unfold base_score.
  destruct (Py.lower model_name) as [|c1 s1]; [done|].
  destruct (Py.lower search_term) as [|c2 s2]; [done|].
  done.
Qed.

Lemma score_result_nameless model_name search_term creator r :
  r_name r = NameAbsent \/ r_name r = NameStr EmptyString ->
  model_name <> EmptyString -> search_term <> EmptyString ->
  score_result model_name search_term creator r =
  Ok (80 + (if creator_appears creator (r_str r) then 10 else 0)).
Proof.
  intros Hr Hn Ht. unfold score_result, result_name_lower.
  assert (match r_name r with
          | NameAbsent => Ok EmptyString
          | NameStr s => Ok (Py.lower s)
          | NameOther => Exn
          end = Ok EmptyString) as -> by (by destruct Hr as [-> | ->]).
  rewrite base_score_nameless, creator_bonus_stated by done. done.
Qed.

(** A scan that only meets one candidate, always with the same score
    between 40 and 99, returns it. *)
Lemma scan_same_candidate model_name creator r s es :
  40 <= s < 100 ->
  (forall e, e ∈ es ->
     exists t, e = Candidate t r /\ score_result model_name t creator r = Ok s) ->
  forall b bs,
  (b = None /\ bs = 0 /\ es <> []) \/ (b = Some (make_match r) /\ bs = s) ->
  scan model_name creator es b bs = Ok (Some (make_match r)).
Proof.
  intros Hs. induction es as [|e es IH]; intros Hall b bs Hb.
  - destruct Hb as [(_ & _ & ?)|(-> & ->)]; [done|]. cbn [scan].
    rewrite bool_decide_true by eauto.
    assert ((40 <=? s) = true) as -> by lia. done.
  - destruct (Hall e ltac:(left)) as (t & -> & Hsc). cbn [scan]. rewrite Hsc.
    assert ((100 <=? s) = false) as -> by lia.
    destruct Hb as [(-> & -> & _)|(-> & ->)].
    + assert ((0 <? s) = true) as -> by lia.
      apply IH; [|by right]. intros e He. apply Hall. by right.
    + assert ((s <? s) = false) as -> by lia.
      apply IH; [|by right]. intros e He. apply Hall. by right.
Qed.

Lemma events_from_single w limit r : forall terms n,
  (forall body, post w body = Reply 200 (Data [r])) ->
  events_from w limit terms n = List.map (fun t => Candidate t r) terms.
Proof.
  induction terms as [|t terms IH]; intros n Hpost; [done|].
  cbn [events_from]. rewrite Hpost, IH by done. done.
Qed.

(** X9: a candidate without a ["name"], or with an empty one, is a substring
    match of every search (the empty string is in every string): it scores
    80, or 90 with the creator bonus, and a catalog that returns nothing
    else has it accepted for any non-empty name. *)
Theorem nameless_candidate_accepted model_name creator r :
  r_name r = NameAbsent \/ r_name r = NameStr EmptyString ->
  model_name <> EmptyString ->
  (forall search_term,
     search_term <> EmptyString ->
     score_result model_name search_term creator r =
     Ok (80 + (if creator_appears creator (r_str r) then 10 else 0))) /\
  (forall w limit n,
     (forall body, post w body = Reply 200 (Data [r])) ->
     fst (search_model_details w model_name creator limit n) =
     Some (make_match r)).
Proof.
  intros Hr Hn. split.
  - intros search_term Ht. by apply score_result_nameless.
  - intros w limit n Hpost. rewrite search_model_details_scan. unfold events.
    rewrite (events_from_single w limit r) by done.
    rewrite (scan_same_candidate model_name creator r
               (80 + (if creator_appears creator (r_str r) then 10 else 0)));
      [done|destruct (creator_appears _ _); lia| |].
    + intros e (t & -> & Ht)%list_elem_of_fmap. exists t. split; [done|].
      apply score_result_nameless; [done|done|].
      apply (proj1 (dedup_elem _ _ _)) in Ht as [Ht|[_ Ht]]; [|done].
      by apply elem_of_nil in Ht.
    + left. split_and!; [done|done|].
      destruct (dedup_head model_name
        [Py.replace "]" "" (Py.replace "[" "" model_name);
         Py.replace odd_dash "-" model_name;
         Py.strip (Py.split_head "(" model_name)] Hn) as [rest Hrest].
      unfold search_terms, search_variations. by rewrite Hrest.
Qed.

Lemma nameless_candidate_accepted_witness :
  (forall search_term,
     search_term <> EmptyString ->
     score_result "Seedream 4.5" search_term (Some "ByteDance") nameless_result =
     Ok (80 + (if creator_appears (Some "ByteDance") (r_str nameless_result)
               then 10 else 0))) /\
  (forall w limit n,
     (forall body, post w body = Reply 200 (Data [nameless_result])) ->
     fst (search_model_details w "Seedream 4.5" (Some "ByteDance") limit n) =
     Some (make_match nameless_result)).
Proof.
  apply (nameless_candidate_accepted "Seedream 4.5" (Some "ByteDance")
           nameless_result).
  - left. reflexivity.
  - discriminate.
Defined.

(** ** Exceptions *)

(** X10: an exception (a failed request, an unreadable reply, a candidate
    whose name is not a string) met before any candidate reaches 100 makes
    the search return nothing, whatever the candidates before it scored. *)
Theorem exception_discards_matches w model_name creator limit n pre e post :
  events w model_name limit n = pre ++ e :: post ->
  (forall x, x ∈ pre ->
     exists s', scores model_name creator x s' /\ s' < 100) ->
  (e = Raised \/
   exists t r, e = Candidate t r /\ score_result model_name t creator r = Exn) ->
  fst (search_body w model_name creator limit n) = Exn /\
  fst (search_model_details w model_name creator limit n) = None.
Proof.
  intros Hev Hpre He.
  rewrite search_model_details_scan, search_body_scan, Hev.
  by rewrite (scan_raises model_name creator pre e post).
Qed.

Lemma exception_discards_matches_witness :
  fst (search_body broken_world "Imagen 4 Fast" None 20 0%nat) = Exn /\
  fst (search_model_details broken_world "Imagen 4 Fast" None 20 0%nat) = None.
Proof.
  apply (exception_discards_matches broken_world "Imagen 4 Fast" None 20 0%nat
           [Candidate "Imagen 4 Fast" imagen_partial]
           (Candidate "Imagen 4 Fast" null_name_result) []).
  - reflexivity.
  - intros x Hx. apply list_elem_of_singleton in Hx as ->.
    exists 80. split; [|lia]. exists "Imagen 4 Fast", imagen_partial.
    split; reflexivity.
  - right. exists "Imagen 4 Fast", null_name_result. split; reflexivity.
Defined.

(** ** The order of the written records *)

Lemma resolutions_by_name_fst w models_list : forall n,
  (resolutions_by_name w models_list n).*1 = models_list.
Proof.
  induction models_list as [|m rest IH]; intros n; [done|].
  cbn [resolutions_by_name].
  destruct (search_model_details w (ce_name m) (ce_creator m) 20 n) as [d n'].
  cbn. by rewrite IH.
Qed.

Lemma resolutions_by_id_fst w models_list : forall n,
  (resolutions_by_id w models_list n).*1 = models_list.
Proof.
  induction models_list as [|m rest IH]; intros n; [done|].
  cbn [resolutions_by_id].
  destruct (resolve_by_id w m n) as [d n'].
  cbn. by rewrite IH.
Qed.

Lemma omap_sublist {A B C} (f : A -> option B) (g : B -> C) (h : A -> C) l :
  (forall x y, f x = Some y -> g y = h x) ->
  (g <$> omap f l) `sublist_of` (h <$> l).
Proof.
  intros Hfg. induction l as [|x l IH]; [done|]. cbn.
  destruct (f x) as [y|] eqn:Hx; cbn.
  - rewrite (Hfg x y Hx). by apply sublist_skip.
  - by apply sublist_cons.
Qed.

Lemma record_by_name_name PRICING_DATA model api_data :
  dict_get "name" (record_by_name PRICING_DATA model api_data) =
  Some (JStr (ce_name model)).
Proof. unfold record_by_name. by rewrite attach_pricing_other. Qed.

Lemma record_by_id_model_id PRICING_DATA model api_data :
  dict_get "model_id" (record_by_id PRICING_DATA model api_data) =
  Some (JStr (se_model_id model)).
Proof. unfold record_by_id. by rewrite attach_pricing_other. Qed.

Lemma enrich_by_name_sublist PRICING_DATA w models_list n :
  (dict_get "name" <$> fst (enrich_models_by_name PRICING_DATA w models_list n))
    `sublist_of` ((fun m => Some (JStr (ce_name m))) <$> models_list).
Proof.
  unfold enrich_models_by_name. rewrite enrich_by_name_loop_spec, app_nil_l.
  rewrite <- (resolutions_by_name_fst w models_list n) at 2.
  rewrite <- list_fmap_compose.
  apply omap_sublist. intros [model [d|]] rec [= <-]; cbn.
  apply record_by_name_name.
Qed.

Lemma enrich_by_id_sublist PRICING_DATA w models_list n :
  (dict_get "model_id" <$>
     fst (enrich_models_by_id PRICING_DATA w models_list n))
    `sublist_of` ((fun m => Some (JStr (se_model_id m))) <$> models_list).
Proof.
  unfold enrich_models_by_id. rewrite enrich_by_id_loop_spec, app_nil_l.
  rewrite <- (resolutions_by_id_fst w models_list n) at 2.
  rewrite <- list_fmap_compose.
  apply omap_sublist. intros [model [d|]] rec [= <-]; cbn.
  apply record_by_id_model_id.
Qed.

(** X11: the records an enricher returns follow the order of its input:
    their names (curated list) or identifiers (scraped list) are the input's,
    with the unresolved entries left out, so there are never more records
    than entries and none is written twice for one entry. *)
Theorem enriched_keeps_input_order PRICING_DATA w n :
  (forall models_list,
     (dict_get "name" <$>
        fst (enrich_models_by_name PRICING_DATA w models_list n))
       `sublist_of` ((fun m => Some (JStr (ce_name m))) <$> models_list) /\
     (length (fst (enrich_models_by_name PRICING_DATA w models_list n))
        <= length models_list)%nat) /\
  (forall models_list,
     (dict_get "model_id" <$>
        fst (enrich_models_by_id PRICING_DATA w models_list n))
       `sublist_of` ((fun m => Some (JStr (se_model_id m))) <$> models_list) /\
     (length (fst (enrich_models_by_id PRICING_DATA w models_list n))
        <= length models_list)%nat).
Proof.
  split; intros models_list.
  - pose proof (enrich_by_name_sublist PRICING_DATA w models_list n) as H.
    split; [done|]. apply sublist_length in H. by rewrite !length_fmap in H.
  - pose proof (enrich_by_id_sublist PRICING_DATA w models_list n) as H.
    split; [done|]. apply sublist_length in H. by rewrite !length_fmap in H.
Qed.

(** ** The keys of a written record *)

Lemma keys_dict_set_new {V} k (v : V) d :
  k ∉ d.*1 -> (dict_set k v d).*1 = d.*1 ++ [k].
Proof. intros H. rewrite keys_dict_set_eq. by rewrite bool_decide_false. Qed.

Lemma attach_pricing_keys enriched_model pricing :
  "price_usd" ∉ enriched_model.*1 ->
  "price_configuration" ∉ enriched_model.*1 ->
  "price_discount" ∉ enriched_model.*1 ->
  (attach_pricing enriched_model pricing).*1 =
  enriched_model.*1 ++ price_keys pricing.
Proof.
  intros H1 H2 H3. unfold attach_pricing, price_keys.
  destruct pricing as [p|]; [|by rewrite app_nil_r].
  set (m1 := dict_set "price_usd" (price_usd p) enriched_model).
  assert (K1 : m1.*1 = enriched_model.*1 ++ ["price_usd"])
    by (by apply keys_dict_set_new).
  assert (N2 : "price_configuration" ∉ m1.*1).
  { rewrite K1. intros [?|[=]%list_elem_of_singleton]%elem_of_app. done. }
  assert (N3 : "price_discount" ∉ m1.*1).
  { rewrite K1. intros [?|[=]%list_elem_of_singleton]%elem_of_app. done. }
  destruct (truthy (configuration p)).
  - set (m2 := dict_set "price_configuration" (configuration p) m1).
    assert (K2 : m2.*1 = m1.*1 ++ ["price_configuration"])
      by (by apply keys_dict_set_new).
    assert (N4 : "price_discount" ∉ m2.*1).
    { rewrite K2. intros [?|[=]%list_elem_of_singleton]%elem_of_app. done. }
    destruct (truthy (discount p)).
    + rewrite keys_dict_set_new, K2, K1 by done. by rewrite <- !app_assoc.
    + rewrite K2, K1. by rewrite <- !app_assoc.
  - destruct (truthy (discount p)).
    + rewrite keys_dict_set_new, K1 by done. by rewrite <- !app_assoc.
    + by rewrite K1.
Qed.

Lemma not_in_keys (k : string) (l : list string) :
  forallb (fun k' => negb (String.eqb k' k)) l = true -> k ∉ l.
Proof.
  induction l as [|k' l IH]; cbn; [intros _; apply not_elem_of_nil|].
  intros [Hk Hl]%andb_true_iff [->|Hin]%elem_of_cons; [|by apply IH].
  by rewrite String.eqb_refl in Hk.
Qed.

(** X12: a written record has the seven keys name (or model_id, name),
    creator (curated entries only), air, category, type, architecture, tags,
    always, in this order, followed by price_usd when a price was matched,
    and then by price_configuration and price_discount for those of the two
    that are not empty in the price record. *)
Theorem record_keys PRICING_DATA api_data :
  (forall model,
     (record_by_name PRICING_DATA model api_data).*1 =
     ["name"; "creator"; "air"; "category"; "type"; "architecture"; "tags"]
       ++ price_keys (match_pricing PRICING_DATA (ce_name model))) /\
  (forall model,
     (record_by_id PRICING_DATA model api_data).*1 =
     ["model_id"; "name"; "air"; "category"; "type"; "architecture"; "tags"]
       ++ price_keys (match_pricing PRICING_DATA
                        (name_or api_data (se_name model)))).
Proof.
  split; intros model.
  - unfold record_by_name. rewrite attach_pricing_keys; [done|..];
      by apply not_in_keys.
  - unfold record_by_id. rewrite attach_pricing_keys; [done|..];
      by apply not_in_keys.
Qed.

Lemma attach_pricing_configuration enriched_model pricing v :
  dict_get "price_configuration" enriched_model = None ->
  dict_get "price_configuration" (attach_pricing enriched_model pricing)
    = Some v <->
  exists p, pricing = Some p /\ configuration p = v /\ truthy v = true.
Proof.
  intros Hnone. unfold attach_pricing. destruct pricing as [p|].
  - destruct (truthy (configuration p)) eqn:Hc,
      (truthy (discount p)) eqn:Hd;
      rewrite ?(dict_get_set_ne "price_discount" "price_configuration") by done;
      rewrite ?dict_get_set_eq;
      rewrite ?(dict_get_set_ne "price_usd" "price_configuration") by done;
      rewrite ?Hnone.
    + split; [intros [= <-]; by exists p|]. by intros (p' & [= <-] & <- & _).
    + split; [intros [= <-]; by exists p|]. by intros (p' & [= <-] & <- & _).
    + split; [done|]. intros (p' & [= <-] & <- & Ht). congruence.
    + split; [done|]. intros (p' & [= <-] & <- & Ht). congruence.
  - rewrite Hnone. split; [done|]. by intros (p & ? & _).
Qed.

Lemma attach_pricing_discount enriched_model pricing v :
  dict_get "price_discount" enriched_model = None ->
  dict_get "price_discount" (attach_pricing enriched_model pricing)
    = Some v <->
  exists p, pricing = Some p /\ discount p = v /\ truthy v = true.
Proof.
  intros Hnone. unfold attach_pricing. destruct pricing as [p|].
  - destruct (truthy (configuration p)) eqn:Hc,
      (truthy (discount p)) eqn:Hd;
      rewrite ?dict_get_set_eq;
      rewrite ?(dict_get_set_ne "price_configuration" "price_discount") by done;
      rewrite ?(dict_get_set_ne "price_usd" "price_discount") by done;
      rewrite ?Hnone.
    + split; [intros [= <-]; by exists p|]. by intros (p' & [= <-] & <- & _).
    + split; [done|]. intros (p' & [= <-] & <- & Ht). congruence.
    + split; [intros [= <-]; by exists p|]. by intros (p' & [= <-] & <- & _).
    + split; [done|]. intros (p' & [= <-] & <- & Ht). congruence.
  - rewrite Hnone. split; [done|]. by intros (p & ? & _).
Qed.

(** X13: a record of a curated entry carries the price matched for the
    entry's own name: price_usd is the matched price (absent without a
    match, possibly null), while price_configuration and price_discount
    appear only with a value that is neither null nor empty, taken from the
    matched record; the creator is copied, null when the entry has none. *)
Theorem curated_record_prices PRICING_DATA model api_data :
  let rec := record_by_name PRICING_DATA model api_data in
  let pricing := match_pricing PRICING_DATA (ce_name model) in
  dict_get "creator" rec = Some (str_or_none (ce_creator model)) /\
  dict_get "price_usd" rec = price_usd <$> pricing /\
  (forall v, dict_get "price_configuration" rec = Some v <->
             exists p, pricing = Some p /\ configuration p = v /\
                       truthy v = true) /\
  (forall v, dict_get "price_discount" rec = Some v <->
             exists p, pricing = Some p /\ discount p = v /\
                       truthy v = true).
Proof.
  cbn zeta. unfold record_by_name. split_and!.
  - by rewrite attach_pricing_other.
  - by rewrite attach_pricing_price.
  - intros v. by apply attach_pricing_configuration.
  - intros v. by apply attach_pricing_discount.
Qed.

(** ** The files of a run *)

Lemma main_files pricing_file w today n :
  let PRICING_DATA := load_pricing_data pricing_file in
  let url := "https://runware.ai/collections/best-for-text-on-images" in
  let popular :=
    ("popular_models.json",
     output_document "https://runware.ai/models" "Popular Models" today
       (fst (enrich_models_by_name PRICING_DATA w POPULAR_MODELS n))) in
  (scrape_collection_models w url = [] ->
   fst (main pricing_file w today n) = [popular]) /\
  (scrape_collection_models w url <> [] ->
   exists n',
     fst (main pricing_file w today n) =
     [ popular;
       ("best_models.json",
        output_document url "Best for Text on Images" today
          (fst (enrich_models_by_id PRICING_DATA w
                  (scrape_collection_models w url) n'))) ]).
Proof.
  cbn zeta. unfold main, enrich_models_by_name.
  generalize POPULAR_MODELS (load_pricing_data pricing_file).
  intros popular PRICING_DATA. unfold bind.
  destruct (enrich_by_name_loop PRICING_DATA w popular [] n) as [enriched n1].
  unfold SCRAPE_COLLECTIONS.
  cbn [scrape_loop col_url col_name col_output_file fst].
  destruct (scrape_collection_models w _) as [|m ms]; split; try done.
  intros _. exists n1. unfold bind.
  by destruct (enrich_models_by_id PRICING_DATA w (m :: ms) n1).
Qed.

(** X14: a run always writes popular_models.json, first; it writes
    best_models.json after it exactly when the collection page yields some
    model, also when none of the scraped models resolves (the file then has
    an empty list); it writes nothing else. *)
Theorem files_written pricing_file w today n :
  let PRICING_DATA := load_pricing_data pricing_file in
  let url := "https://runware.ai/collections/best-for-text-on-images" in
  let popular :=
    ("popular_models.json",
     output_document "https://runware.ai/models" "Popular Models" today
       (fst (enrich_models_by_name PRICING_DATA w POPULAR_MODELS n))) in
  (scrape_collection_models w url = [] ->
   fst (main pricing_file w today n) = [popular]) /\
  (scrape_collection_models w url <> [] ->
   exists n',
     fst (main pricing_file w today n) =
     [ popular;
       ("best_models.json",
        output_document url "Best for Text on Images" today
          (fst (enrich_models_by_id PRICING_DATA w
                  (scrape_collection_models w url) n'))) ]).
Proof. apply main_files. Qed.

Lemma files_written_witness :
  exists n',
    fst (main None empty_world "2026-11-04" 0%nat) =
    [ ("popular_models.json",
       output_document "https://runware.ai/models" "Popular Models"
         "2026-11-04"
         (fst (enrich_models_by_name (load_pricing_data None) empty_world
                 POPULAR_MODELS 0%nat)));
      ("best_models.json",
       output_document
         "https://runware.ai/collections/best-for-text-on-images"
         "Best for Text on Images" "2026-11-04"
         (fst (enrich_models_by_id (load_pricing_data None) empty_world
                 (scrape_collection_models empty_world
                    "https://runware.ai/collections/best-for-text-on-images")
                 n'))) ].
Proof.
  exact (proj2 (files_written None empty_world "2026-11-04" 0%nat)
           ltac:(discriminate)).
Defined.

Example nothing_resolves :
  List.map (fun written => (written.1, models_of written.2))
    (fst (main None empty_world "2026-11-04" 0%nat))
  = [("popular_models.json", []); ("best_models.json", [])].
Proof. vm_compute. reflexivity. Qed.

(** ** The requests of a run *)

Lemma search_model_details_counter w model_name creator limit n :
  (n <= snd (search_model_details w model_name creator limit n) <= n + 4)%nat.
Proof.
  rewrite search_model_details_snd. unfold search_body.
  pose proof (search_loop_requests w model_name creator limit
                (search_terms model_name) None 0 n) as H.
  assert (Hlen : (length (search_terms model_name) <= 4)%nat)
    by exact (dedup_length (search_variations model_name) []).
  lia.
Qed.

Lemma resolve_by_id_counter w model n :
  (n <= snd (resolve_by_id w model n) <= n + 8)%nat.
Proof.
  unfold resolve_by_id, bind.
  destruct (Py.nonempty (se_name model)); unfold ret.
  - pose proof (search_model_details_counter w (se_name model) None 20 n) as H.
    destruct (search_model_details w (se_name model) None 20 n) as [[d|] n1];
      unfold ret; cbn [snd] in *; [lia|].
    pose proof (search_model_details_counter w (se_model_id model) None 20 n1).
    lia.
  - pose proof (search_model_details_counter w (se_model_id model) None 20 n).
    lia.
Qed.

Lemma enrich_by_name_loop_counter PRICING_DATA w models_list :
  forall enriched n,
  (n <= snd (enrich_by_name_loop PRICING_DATA w models_list enriched n)
     <= n + 4 * length models_list)%nat.
Proof.
  induction models_list as [|model rest IH]; intros enriched n; [cbn; lia|].
  cbn [enrich_by_name_loop length]. unfold bind.
  pose proof (search_model_details_counter w (ce_name model)
                (ce_creator model) 20 n) as H.
  destruct (search_model_details w (ce_name model) (ce_creator model) 20 n)
    as [[d|] n1]; cbn [snd] in H.
  - specialize (IH (enriched ++ [record_by_name PRICING_DATA model d]) n1). lia.
  - specialize (IH enriched n1). lia.
Qed.

Lemma enrich_by_id_loop_counter PRICING_DATA w models_list :
  forall enriched n,
  (n <= snd (enrich_by_id_loop PRICING_DATA w models_list enriched n)
     <= n + 8 * length models_list)%nat.
Proof.
  induction models_list as [|model rest IH]; intros enriched n; [cbn; lia|].
  cbn [enrich_by_id_loop length]. unfold bind.
  pose proof (resolve_by_id_counter w model n) as H.
  destruct (resolve_by_id w model n) as [[d|] n1]; cbn [snd] in H.
  - specialize (IH (enriched ++ [record_by_id PRICING_DATA model d]) n1). lia.
  - specialize (IH enriched n1). lia.
Qed.

Lemma main_counter pricing_file w today n :
  (n <= snd (main pricing_file w today n)
     <= n + 96 + 8 * length (scrape_collection_models w
          "https://runware.ai/collections/best-for-text-on-images"))%nat.
Proof.
  unfold main, enrich_models_by_name.
  pose proof (enrich_by_name_loop_counter (load_pricing_data pricing_file) w
                POPULAR_MODELS [] n) as H.
  change (length POPULAR_MODELS) with 24%nat in H. revert H.
  generalize POPULAR_MODELS (load_pricing_data pricing_file).
  intros popular PRICING_DATA H. unfold bind.
  destruct (enrich_by_name_loop PRICING_DATA w popular [] n) as [enriched n1].
  cbn [snd] in H. unfold SCRAPE_COLLECTIONS.
  cbn [scrape_loop col_url col_name col_output_file].
  destruct (scrape_collection_models w _) as [|m ms] eqn:Hs; [cbn; lia|].
  unfold bind, enrich_models_by_id.
  pose proof (enrich_by_id_loop_counter PRICING_DATA w (m :: ms) [] n1) as H'.
  destruct (enrich_by_id_loop PRICING_DATA w (m :: ms) [] n1) as [e2 n2].
  cbn [snd ret] in *. lia.
Qed.

(** X15: a run sends a bounded number of search requests: at most four for
    each of the 24 curated models and at most eight (four by name, four by
    identifier) for each scraped model. *)
Theorem run_requests_bounded pricing_file w today n :
  (n <= snd (main pricing_file w today n)
     <= n + 96 + 8 * length (scrape_collection_models w
          "https://runware.ai/collections/best-for-text-on-images"))%nat.
Proof. apply main_counter. Qed.

(** ** Strings, once more *)

Lemma app_cons c s t : String c s +:+ t = String c (s +:+ t).
Proof. done. Qed.

Lemma app_nil_left t : EmptyString +:+ t = t.
Proof. done. Qed.

Lemma app_assoc_s a b c : (a +:+ b) +:+ c = a +:+ (b +:+ c).
Proof. induction a as [|x a IH]; [done|]. by rewrite !app_cons, IH. Qed.

Lemma strip_prefix_Some p : forall s r,
  strip_prefix p s = Some r <-> s = p +:+ r.
Proof.
  induction p as [|a p IH]; intros s r; cbn [strip_prefix].
  - rewrite app_nil_left. split; congruence.
  - rewrite app_cons. destruct s as [|b s]; [done|].
    destruct (Ascii.eqb_spec a b) as [->|Hne].
    + rewrite IH. split; congruence.
    + split; [done|]. congruence.
Qed.

Lemma prefix_app p : forall r, String.prefix p (p +:+ r) = true.
Proof.
  induction p as [|a p IH]; intros r; [by destruct r|].
  rewrite app_cons. cbn [String.prefix]. by destruct (ascii_dec a a).
Qed.

Lemma prefix_inv p : forall s, String.prefix p s = true -> exists r, s = p +:+ r.
Proof.
  induction p as [|a p IH]; intros s; [by exists s|].
  destruct s as [|b s]; [done|]. cbn [String.prefix].
  destruct (ascii_dec a b) as [->|]; [|done].
  intros [r ->]%IH. by exists r.
Qed.

Lemma contains_app x pre r : Py.contains x (pre +:+ x +:+ r) = true.
Proof.
  induction pre as [|c pre IH].
  - rewrite app_nil_left. destruct (x +:+ r) eqn:E; cbn [Py.contains];
      rewrite <- E, prefix_app; done.
  - rewrite app_cons. cbn [Py.contains]. rewrite IH. apply orb_true_r.
Qed.

Lemma contains_cons x c s :
  Py.contains x (String c s) = String.prefix x (String c s) || Py.contains x s.
Proof. done. Qed.

Lemma contains_char c s : Py.contains (String c EmptyString) s = has c s.
Proof.
  induction s as [|a s IH]; [done|]. rewrite contains_cons, IH.
  cbn [String.prefix has]. destruct (ascii_dec c a) as [->|Hne].
  - rewrite Ascii.eqb_refl. by destruct s.
  - assert (Ascii.eqb a c = false) as -> by (apply Ascii.eqb_neq; congruence).
    done.
Qed.

Lemma has_app c a b : has c (a +:+ b) = has c a || has c b.
Proof.
  induction a as [|x a IH]; [done|]. rewrite app_cons. cbn [has].
  by rewrite IH, orb_assoc.
Qed.

Lemma span_other_than x s : forall a b,
  span (other_than x) s = (a, b) ->
  s = a +:+ b /\ has x a = false /\
  (b = EmptyString \/ exists r, b = String x r).
Proof.
  induction s as [|c s IH]; intros a b; cbn [span].
  - intros [= <- <-]. split_and!; [done|done|by left].
  - unfold other_than at 1. destruct (Ascii.eqb_spec c x) as [->|Hne]; cbn [negb].
    + intros [= <- <-]. split_and!; [done|done|]. right. by exists s.
    + destruct (span (other_than x) s) as [a' b'] eqn:Hs.
      intros [= <- <-]. destruct (IH a' b' eq_refl) as (-> & Ha & Hb).
      split_and!; [done| |done]. cbn [has].
      by assert (Ascii.eqb c x = false) as -> by (by apply Ascii.eqb_neq).
Qed.

Lemma span_other_than_app x a b :
  has x a = false -> (b = EmptyString \/ exists r, b = String x r) ->
  span (other_than x) (a +:+ b) = (a, b).
Proof.
  intros Ha Hb. induction a as [|c a IH].
  - rewrite app_nil_left. destruct Hb as [->|[r ->]]; [done|].
    cbn [span]. unfold other_than. by rewrite Ascii.eqb_refl.
  - cbn [has] in Ha. apply orb_false_iff in Ha as [Hc Ha].
    rewrite app_cons. cbn [span]. unfold other_than at 1. rewrite Hc.
    cbn [negb]. by rewrite IH.
Qed.

(** ** The links of a page *)

Lemma match_link_spec s model_id len :
  match_link s = Some (model_id, len) ->
  (exists rest, s = link_to model_id +:+ rest) /\
  model_id <> EmptyString /\ has dquote model_id = false /\
  len = (String.length link_open + String.length model_id + 2)%nat.
Proof.
  unfold match_link.
  destruct (strip_prefix link_open s) as [rest|] eqn:Hp; [|done].
  apply strip_prefix_Some in Hp as ->.
  destruct (span (other_than dquote) rest) as [i after] eqn:Hs.
  apply span_other_than in Hs as (-> & Hq & _).
  destruct (Py.nonempty i) eqn:Hne; [|done].
  destruct (String.prefix link_close after) eqn:Hc; [|done].
  intros [= <- <-]. apply prefix_inv in Hc as [r ->].
  split_and!; [|by destruct i|done|done].
  exists r. unfold link_to. by rewrite !app_assoc_s.
Qed.

Lemma match_link_link_to model_id rest :
  model_id <> EmptyString -> has dquote model_id = false ->
  match_link (link_to model_id +:+ rest) =
  Some (model_id, (String.length link_open + String.length model_id + 2)%nat).
Proof.
  intros Hne Hq. unfold match_link, link_to. rewrite !app_assoc_s.
  rewrite (proj2 (strip_prefix_Some link_open _ _) eq_refl).
  rewrite span_other_than_app; [|done|right; by eexists].
  rewrite prefix_app. by destruct model_id.
Qed.

Lemma findall_links_go_sound s : forall skip model_id,
  model_id ∈ findall_links_go skip s ->
  model_id <> EmptyString /\ has dquote model_id = false /\
  exists pre rest, s = pre +:+ link_to model_id +:+ rest.
Proof.
  induction s as [|c s IH]; intros skip model_id; cbn [findall_links_go].
  { intros H. by apply elem_of_nil in H. }
  assert (Hlater : forall k, model_id ∈ findall_links_go k s ->
    model_id <> EmptyString /\ has dquote model_id = false /\
    exists pre rest, String c s = pre +:+ link_to model_id +:+ rest).
  { intros k (Hne & Hq & pre & rest & ->)%IH. split_and!; [done..|].
    by exists (String c pre), rest. }
  destruct skip as [|k]; [|apply Hlater].
  destruct (match_link (String c s)) as [[i len]|] eqn:Hm; [|apply Hlater].
  intros [->|Hin]%elem_of_cons; [|by eapply Hlater].
  apply match_link_spec in Hm as ([rest Hrest] & Hne & Hq & _).
  split_and!; [done..|]. exists EmptyString, rest. by rewrite app_nil_left.
Qed.

Lemma findall_links_go_none s : forall skip,
  Py.contains link_open s = false -> findall_links_go skip s = [].
Proof.
  induction s as [|c s IH]; intros skip; [done|].
  rewrite contains_cons. intros [Hp Hc]%orb_false_iff. cbn [findall_links_go].
  destruct skip as [|k]; [|by apply IH].
  unfold match_link.
  destruct (strip_prefix link_open (String c s)) as [rest|] eqn:Hs;
    [|by apply IH].
  apply strip_prefix_Some in Hs. rewrite Hs, prefix_app in Hp. done.
Qed.

(** ** First occurrences *)

Lemma first_seen_from_NoDup l : forall seen,
  NoDup seen -> NoDup (first_seen_from seen l).
Proof.
  induction l as [|x l IH]; intros seen Hnd; [done|]. cbn [first_seen_from].
  case_bool_decide as Hin; [auto|].
  apply IH, NoDup_app. split_and!; [done| |apply NoDup_singleton].
  intros y Hy ->%list_elem_of_singleton. done.
Qed.

Lemma first_seen_from_elem l x : forall seen,
  x ∈ first_seen_from seen l <-> x ∈ seen \/ x ∈ l.
Proof.
  induction l as [|y l IH]; intros seen; cbn [first_seen_from].
  - split; [by left|]. intros [?|H]; [done|]. by apply elem_of_nil in H.
  - case_bool_decide as Hin;
      rewrite IH, ?elem_of_app, ?list_elem_of_singleton, elem_of_cons.
    + split; [intros [?|?]; auto|]. intros [?|[ -> |?]]; auto.
    + split; [intros [[?| ->]|?]; auto|]. intros [?|[ -> |?]]; auto.
Qed.

Lemma scrape_ids_ids html ids : forall seen models,
  (forall x, x ∈ seen <-> x ∈ se_model_id <$> models) ->
  se_model_id <$> scrape_ids html ids seen models =
  first_seen_from (se_model_id <$> models) ids.
Proof.
  induction ids as [|i ids IH]; intros seen models Hseen; [done|].
  cbn [scrape_ids first_seen_from].
  destruct (bool_decide (i ∈ seen)) eqn:Hd.
  - apply bool_decide_eq_true in Hd.
    rewrite bool_decide_true by (by apply Hseen). by apply IH.
  - apply bool_decide_eq_false in Hd.
    rewrite bool_decide_false by (by rewrite <- Hseen).
    rewrite IH; [by rewrite fmap_app|].
    intros x. rewrite fmap_app, elem_of_union, elem_of_singleton, elem_of_app,
      Hseen. cbn [fmap list_fmap se_model_id].
    by rewrite list_elem_of_singleton.
Qed.

Lemma scrape_page_ids status_code html :
  ~ (400 <= status_code < 600) ->
  se_model_id <$> scrape_page (Got status_code html) =
  first_seen (findall_links html).
Proof.
  intros Hok. unfold scrape_page.
  assert ((400 <=? status_code) && (status_code <? 600) = false) as -> by lia.
  apply scrape_ids_ids. intros x. cbn. rewrite elem_of_empty.
  split; [done|]. intros H. by apply elem_of_nil in H.
Qed.

(** X16: the scraper returns one entry for each distinct identifier linked
    in the page, in the order in which the identifiers first occur; a failed
    request, and a reply with an error status, give the empty list. *)
Theorem scraped_ids_first_seen status_code html :
  scrape_page GetFails = [] /\
  (400 <= status_code < 600 -> scrape_page (Got status_code html) = []) /\
  (~ (400 <= status_code < 600) ->
   se_model_id <$> scrape_page (Got status_code html) =
     first_seen (findall_links html) /\
   NoDup (se_model_id <$> scrape_page (Got status_code html)) /\
   (forall x, x ∈ se_model_id <$> scrape_page (Got status_code html) <->
              x ∈ findall_links html)).
Proof.
  split_and!; [done| |].
  - intros H. unfold scrape_page.
    by assert ((400 <=? status_code) && (status_code <? 600) = true) as -> by lia.
  - intros Hok. rewrite scrape_page_ids by done. split_and!; [done| |].
    + apply first_seen_from_NoDup, NoDup_nil_2.
    + intros x. unfold first_seen. rewrite first_seen_from_elem.
      split; [|by right]. intros [H|H]; [by apply elem_of_nil in H|done].
Qed.

Lemma scraped_ids_first_seen_witness :
  se_model_id <$> scrape_page (Got 200 sample_html) =
    first_seen (findall_links sample_html) /\
  NoDup (se_model_id <$> scrape_page (Got 200 sample_html)) /\
  (forall x, x ∈ se_model_id <$> scrape_page (Got 200 sample_html) <->
             x ∈ findall_links sample_html).
Proof.
  apply (proj2 (proj2 (scraped_ids_first_seen 200 sample_html))). lia.
Defined.

(** X17: every identifier the scraper returns is non-empty, holds no double
    quote, and is the target of a link of the page; a page without any link
    to a model gives the empty list. *)
Theorem scraped_ids_are_links status_code html :
  (forall e, e ∈ scrape_page (Got status_code html) ->
     se_model_id e <> EmptyString /\
     Py.contains (String dquote EmptyString) (se_model_id e) = false /\
     Py.contains (link_to (se_model_id e)) html = true) /\
  (Py.contains link_open html = false ->
   scrape_page (Got status_code html) = []).
Proof.
  split.
  - intros e He.
    destruct (decide (400 <= status_code < 600)) as [Herr|Hok].
    { unfold scrape_page in He.
      assert ((400 <=? status_code) && (status_code <? 600) = true) as Hb by lia.
      rewrite Hb in He. by apply elem_of_nil in He. }
    assert (Hin : se_model_id e ∈ first_seen (findall_links html)).
    { rewrite <- (scrape_page_ids status_code html Hok).
      apply list_elem_of_fmap. by exists e. }
    apply first_seen_from_elem in Hin as [Hin|Hin]; [by apply elem_of_nil in Hin|].
    apply findall_links_go_sound in Hin as (Hne & Hq & pre & rest & ->).
    split_and!; [done|by rewrite contains_char|apply contains_app].
  - intros Hnone. unfold scrape_page. destruct (_ && _); [done|].
    unfold findall_links. by rewrite findall_links_go_none.
Qed.

Lemma scraped_ids_are_links_witness :
  scrape_page (Got 200 "<html><h3>no model here</h3></html>") = [].
Proof.
  apply (proj2 (scraped_ids_are_links 200
                  "<html><h3>no model here</h3></html>")).
  vm_compute. reflexivity.
Defined.

(** ** The names of the scraped models *)

Lemma match_heading_Some s text :
  match_heading s = Some text ->
  text <> EmptyString /\ has "<" text = false.
Proof.
  unfold match_heading.
  destruct (strip_prefix "<h3" s) as [rest|]; [|done].
  destruct (span (other_than ">") rest) as [attrs r1].
  destruct (strip_prefix ">" r1) as [r2|]; [|done].
  destruct (span (other_than "<") r2) as [t r3] eqn:Hs.
  apply span_other_than in Hs as (_ & Ht & _).
  destruct (Py.nonempty t) eqn:Hne; [|done].
  destruct (String.prefix "</h3>" r3); [|done].
  intros [= <-]. split; [by destruct t|done].
Qed.

Lemma match_lazy_Some fuel : forall s text,
  match_lazy fuel s = Some text ->
  text <> EmptyString /\ has "<" text = false.
Proof.
  induction fuel as [|fuel IH]; intros s text; [done|]. cbn [match_lazy].
  destruct (match_heading s) as [t|] eqn:Hh.
  - intros [= <-]. by eapply match_heading_Some.
  - destruct (match_tag s) as [rest|]; [apply IH|done].
Qed.

Lemma length_app_s a b :
  String.length (a +:+ b) = (String.length a + String.length b)%nat.
Proof. induction a as [|c a IH]; [done|]. rewrite app_cons. cbn. by rewrite IH. Qed.

Lemma match_tag_shorter s rest :
  match_tag s = Some rest -> (String.length rest < String.length s)%nat.
Proof.
  unfold match_tag.
  destruct (strip_prefix "<" s) as [r|] eqn:Hp; [|done].
  apply strip_prefix_Some in Hp as ->.
  destruct (span (other_than ">") r) as [inside r1] eqn:Hs.
  apply span_other_than in Hs as (-> & _ & _).
  destruct (Py.nonempty inside); [|done].
  destruct (strip_prefix ">" r1) as [r2|] eqn:Hp; [|done].
  apply strip_prefix_Some in Hp as ->.
  destruct (span (other_than "<") r2) as [t r3] eqn:Hs.
  apply span_other_than in Hs as (-> & _ & _).
  intros [= <-]. rewrite !length_app_s. cbn. lia.
Qed.

(** The count that bounds the rounds of the lazy repetition is never the
    reason for a match to fail: any count above the length of the text
    gives the same result. *)
Lemma match_lazy_fuel n : forall m s,
  (String.length s < n)%nat -> (String.length s < m)%nat ->
  match_lazy n s = match_lazy m s.
Proof.
  induction n as [|n IH]; intros m s Hn Hm; [lia|].
  destruct m as [|m]; [lia|]. cbn [match_lazy].
  destruct (match_heading s); [done|].
  destruct (match_tag s) as [rest|] eqn:Ht; [|done].
  apply match_tag_shorter in Ht. apply IH; lia.
Qed.

Lemma search_section_Some model_id s : forall text,
  search_section model_id s = Some text ->
  text <> EmptyString /\ has "<" text = false.
Proof.
  assert (Hm : forall s' text, match_section model_id s' = Some text ->
                 text <> EmptyString /\ has "<" text = false).
  { intros s' text. unfold match_section.
    destruct (strip_prefix _ s') as [rest|]; [|done]. apply match_lazy_Some. }
  induction s as [|c s IH]; intros text; cbn [search_section].
  - destruct (match_section model_id EmptyString) as [t|] eqn:H; [|done].
    intros [= <-]. by eapply Hm.
  - destruct (match_section model_id (String c s)) as [t|] eqn:H; [|apply IH].
    intros [= <-]. by eapply Hm.
Qed.

Lemma scrape_ids_names html ids : forall seen models e,
  e ∈ scrape_ids html ids seen models ->
  e ∈ models \/
  se_name e = match search_section (se_model_id e) html with
              | Some text => Py.strip text
              | None => title (Py.replace "-" " " (se_model_id e))
              end.
Proof.
  induction ids as [|i ids IH]; intros seen models e; cbn [scrape_ids].
  - by left.
  - destruct (bool_decide (i ∈ seen)); [apply IH|].
    intros [[H|H]%elem_of_app|H]%IH; [by left| |by right].
    apply list_elem_of_singleton in H as ->. by right.
Qed.

Lemma title_char_lower (in_word : bool) (c : ascii) :
  Py.lower_char
    (if is_lower c || is_upper c
     then (if in_word then Py.lower_char c else upper_char c) else c) =
  Py.lower_char c.
Proof. by destruct in_word, c as [[] [] [] [] [] [] [] []]. Qed.

Lemma title_char_hyphen (in_word : bool) (c : ascii) :
  Ascii.eqb
    (if is_lower c || is_upper c
     then (if in_word then Py.lower_char c else upper_char c) else c) "-" =
  Ascii.eqb c "-".
Proof. by destruct in_word, c as [[] [] [] [] [] [] [] []]. Qed.

Lemma lower_title_go s : forall in_word,
  Py.lower (title_go in_word s) = Py.lower s.
Proof.
  induction s as [|c s IH]; intros in_word; [done|]. cbn [title_go].
  pose proof (title_char_lower in_word c) as Hc.
  destruct (is_lower c || is_upper c); cbn [Py.lower]; rewrite IH; congruence.
Qed.

Lemma has_hyphen_title_go s : forall in_word,
  has "-" (title_go in_word s) = has "-" s.
Proof.
  induction s as [|c s IH]; intros in_word; [done|]. cbn [title_go].
  pose proof (title_char_hyphen in_word c) as Hc.
  destruct (is_lower c || is_upper c); cbn [has]; rewrite IH; congruence.
Qed.

Lemma length_title_go s : forall in_word,
  String.length (title_go in_word s) = String.length s.
Proof.
  induction s as [|c s IH]; intros in_word; [done|]. cbn [title_go].
  destruct (is_lower c || is_upper c); cbn [String.length]; by rewrite IH.
Qed.

Lemma has_hyphen_replace s : has "-" (Py.replace "-" " " s) = false.
Proof.
  unfold Py.replace. induction s as [|c s IH]; [done|].
  cbn [Py.replace_go String.prefix String.length Nat.sub].
  destruct (ascii_dec "-" c) as [<-|Hne].
  - assert (String.prefix "" s = true) as -> by (by destruct s).
    change (" " +:+ Py.replace_go "-" " " 0 s)
      with (String " "%char (Py.replace_go "-" " " 0 s)).
    cbn [has]. by rewrite IH.
  - cbn [has]. rewrite IH.
    assert (Ascii.eqb c "-" = false) as -> by (apply Ascii.eqb_neq; congruence).
    done.
Qed.

Lemma length_replace_hyphen s :
  String.length (Py.replace "-" " " s) = String.length s.
Proof.
  unfold Py.replace. induction s as [|c s IH]; [done|].
  cbn [Py.replace_go String.prefix String.length Nat.sub].
  destruct (ascii_dec "-" c) as [<-|Hne].
  - assert (String.prefix "" s = true) as -> by (by destruct s).
    change (" " +:+ Py.replace_go "-" " " 0 s)
      with (String " "%char (Py.replace_go "-" " " 0 s)).
    cbn [String.length]. by rewrite IH.
  - cbn [String.length]. by rewrite IH.
Qed.

Lemma title_char_ascii (in_word : bool) (c : ascii) :
  (nat_of_ascii
     (if is_lower c || is_upper c
      then (if in_word then Py.lower_char c else upper_char c) else c)
   <? 128)%nat = (nat_of_ascii c <? 128)%nat.
Proof. by destruct in_word, c as [[] [] [] [] [] [] [] []]. Qed.

Lemma isascii_title_go s : forall in_word,
  isascii (title_go in_word s) = isascii s.
Proof.
  induction s as [|c s IH]; intros in_word; [done|]. cbn [title_go].
  pose proof (title_char_ascii in_word c) as Hc.
  destruct (is_lower c || is_upper c); cbn [isascii]; rewrite IH; congruence.
Qed.

Lemma isascii_replace_hyphen s :
  isascii (Py.replace "-" " " s) = isascii s.
Proof.
  unfold Py.replace. induction s as [|c s IH]; [done|].
  cbn [Py.replace_go String.prefix String.length Nat.sub].
  destruct (ascii_dec "-" c) as [<-|Hne].
  - assert (String.prefix "" s = true) as -> by (by destruct s).
    change (" " +:+ Py.replace_go "-" " " 0 s)
      with (String " "%char (Py.replace_go "-" " " 0 s)).
    cbn [isascii]. by rewrite IH.
  - cbn [isascii]. by rewrite IH.
Qed.

(** X18: the display name of a scraped model is the text of the first h3
    heading found after its link, which is never empty and holds no tag,
    with surrounding white space removed; when there is none, the name holds
    no hyphen and, for an identifier of ASCII characters (on which
    [str.title] only recases the letters a-z and A-Z), it is the identifier
    with hyphens turned into spaces and letters recased: ASCII, as long as
    the identifier, and equal to it (hyphens as spaces) when letter case is
    ignored. *)
Theorem scraped_names status_code html e :
  e ∈ scrape_page (Got status_code html) ->
  (exists text,
     search_section (se_model_id e) html = Some text /\
     text <> EmptyString /\ Py.contains "<" text = false /\
     se_name e = Py.strip text) \/
  (search_section (se_model_id e) html = None /\
   Py.contains "-" (se_name e) = false /\
   (isascii (se_model_id e) = true ->
    se_name e = title (Py.replace "-" " " (se_model_id e)) /\
    isascii (se_name e) = true /\
    Py.lower (se_name e) = Py.lower (Py.replace "-" " " (se_model_id e)) /\
    String.length (se_name e) = String.length (se_model_id e))).
Proof.
  unfold scrape_page. destruct (_ && _).
  { intros H. by apply elem_of_nil in H. }
  intros [H|Hname]%scrape_ids_names; [by apply elem_of_nil in H|].
  destruct (search_section (se_model_id e) html) as [text|] eqn:Hs.
  - left. exists text. apply search_section_Some in Hs as [Hne Hlt].
    split_and!; [done|done|by rewrite contains_char|done].
  - right. split_and!; [done| |].
    + rewrite Hname, contains_char. unfold title.
      rewrite has_hyphen_title_go. apply has_hyphen_replace.
    + intros Hascii. split_and!; [done| | |].
      * rewrite Hname. unfold title.
        by rewrite isascii_title_go, isascii_replace_hyphen.
      * rewrite Hname. apply lower_title_go.
      * rewrite Hname. unfold title.
        by rewrite length_title_go, length_replace_hyphen.
Qed.

Lemma scraped_names_witness :
  (exists text,
     search_section "flux-2-dev" sample_html = Some text /\
     text <> EmptyString /\ Py.contains "<" text = false /\
     "Flux 2 Dev" = Py.strip text) \/
  (search_section "flux-2-dev" sample_html = None /\
   Py.contains "-" "Flux 2 Dev" = false /\
   (isascii "flux-2-dev" = true ->
    "Flux 2 Dev" = title (Py.replace "-" " " "flux-2-dev") /\
    isascii "Flux 2 Dev" = true /\
    Py.lower "Flux 2 Dev" = Py.lower (Py.replace "-" " " "flux-2-dev") /\
    String.length "Flux 2 Dev" = String.length "flux-2-dev")).
Proof.
  refine (scraped_names 200 sample_html
            {| se_model_id := "flux-2-dev"; se_name := "Flux 2 Dev" |} _).
  vm_compute. right. left.
Defined.

Example scraped_name_from_identifier :
  search_section "flux-2-dev" sample_html = None /\
  isascii "flux-2-dev" = true /\
  title (Py.replace "-" " " "flux-2-dev") = "Flux 2 Dev".
Proof. by vm_compute. Qed.

(** ** A heading after the link *)

Lemma search_section_here model_id s text :
  match_section model_id s = Some text ->
  search_section model_id s = Some text.
Proof. intros H. destruct s; cbn [search_section]; by rewrite H. Qed.

Lemma match_heading_direct attrs text post :
  has ">" attrs = false -> text <> EmptyString -> has "<" text = false ->
  match_heading ("<h3" +:+ attrs +:+ ">" +:+ text +:+ "</h3>" +:+ post)
  = Some text.
Proof.
  intros Ha Hne Ht. unfold match_heading.
  rewrite (proj2 (strip_prefix_Some "<h3" _ _) eq_refl).
  rewrite span_other_than_app; [|done|right; by eexists].
  rewrite (proj2 (strip_prefix_Some ">" _ _) eq_refl).
  rewrite span_other_than_app; [|done|right; by eexists].
  rewrite prefix_app. by destruct text.
Qed.

Lemma match_section_direct model_id gap attrs text post :
  has "<" gap = false -> has ">" attrs = false ->
  text <> EmptyString -> has "<" text = false ->
  match_section model_id
    (link_to model_id +:+ gap +:+ "<h3" +:+ attrs +:+ ">" +:+ text
       +:+ "</h3>" +:+ post) = Some text.
Proof.
  intros Hg Ha Hne Ht. unfold match_section. fold (link_to model_id).
  rewrite (proj2 (strip_prefix_Some (link_to model_id) _ _) eq_refl).
  rewrite span_other_than_app; [|done|right; by eexists].
  cbn [snd match_lazy]. by rewrite match_heading_direct.
Qed.

Lemma findall_links_head s model_id len :
  match_link s = Some (model_id, len) ->
  exists rest, findall_links s = model_id :: rest.
Proof.
  destruct s as [|c s]; [done|]. intros H. unfold findall_links.
  cbn [findall_links_go]. rewrite H. by eexists.
Qed.

Lemma scrape_ids_prefix html ids : forall seen models,
  models `prefix_of` scrape_ids html ids seen models.
Proof.
  induction ids as [|i ids IH]; intros seen models; [done|].
  cbn [scrape_ids]. destruct (bool_decide (i ∈ seen)); [apply IH|].
  etrans; [|apply IH]. by apply prefix_app_r.
Qed.

(** X19: when a page begins with the link of a model, followed by text and
    then by an h3 heading (whatever its attributes) whose text is not empty
    and holds no tag, the first scraped entry is that model, named by the
    text of the heading with surrounding white space removed. *)
Theorem heading_names_model model_id gap attrs text post :
  model_id <> EmptyString -> has dquote model_id = false ->
  has "<" gap = false -> has ">" attrs = false ->
  text <> EmptyString -> has "<" text = false ->
  exists others,
    scrape_page
      (Got 200 (link_to model_id +:+ gap +:+ "<h3" +:+ attrs +:+ ">" +:+ text
                  +:+ "</h3>" +:+ post))
    = {| se_model_id := model_id; se_name := Py.strip text |} :: others.
Proof.
  intros Hid Hq Hg Ha Hne Ht.
  set (html := link_to model_id +:+ gap +:+ "<h3" +:+ attrs +:+ ">" +:+ text
                 +:+ "</h3>" +:+ post).
  unfold scrape_page. cbn [Z.leb Z.ltb Z.compare Pos.compare Pos.compare_cont andb].
  destruct (findall_links_head html model_id _
              (match_link_link_to model_id _ Hid Hq)) as [rest ->].
  cbn [scrape_ids]. rewrite bool_decide_false by apply not_elem_of_empty.
  rewrite (search_section_here model_id html text)
    by (by apply match_section_direct).
  destruct (scrape_ids_prefix html rest (∅ ∪ {[model_id]})
              ([] ++ [{| se_model_id := model_id; se_name := Py.strip text |}]))
    as [others ->].
  by exists others.
Qed.

Lemma heading_names_model_witness :
  exists others,
    scrape_page
      (Got 200 (link_to "flux-2-dev" +:+ " FLUX " +:+ "<h3" +:+ " class=t"
                  +:+ ">" +:+ " FLUX.2 [dev] " +:+ "</h3>" +:+ "</a>"))
    = {| se_model_id := "flux-2-dev"; se_name := Py.strip " FLUX.2 [dev] " |}
      :: others.
Proof.
  apply (heading_names_model "flux-2-dev" " FLUX " " class=t" " FLUX.2 [dev] "
           "</a>"); [discriminate|reflexivity|reflexivity|reflexivity
                    |discriminate|reflexivity].
Defined.

(** ** The scraper in a run *)

(** X20: in a world whose pages are scraped as [scrape_collection_models]
    does, a run whose request for the collection page fails, or is answered
    with an error status, or with a page without a link to a model, writes
    popular_models.json and nothing else: the failure is not fatal. *)
Theorem unreadable_page_skips_collection pricing_file w today n fetch :
  (forall url, scrape_collection_models w url = scrape_page (fetch url)) ->
  (fetch "https://runware.ai/collections/best-for-text-on-images" = GetFails \/
   exists status_code html,
     fetch "https://runware.ai/collections/best-for-text-on-images"
       = Got status_code html /\
     (400 <= status_code < 600 \/ Py.contains link_open html = false)) ->
  fst <$> fst (main pricing_file w today n) = ["popular_models.json"].
Proof.
  intros Hw Hpage.
  rewrite (proj1 (main_files pricing_file w today n)); [done|].
  rewrite Hw. destruct Hpage as [->|(code & html & -> & [Herr|Hnone])]; [done| |].
  - unfold scrape_page.
    by assert ((400 <=? code) && (code <? 600) = true) as -> by lia.
  - unfold scrape_page. destruct (_ && _); [done|].
    unfold findall_links. by rewrite findall_links_go_none.
Qed.

Lemma unreadable_page_skips_collection_witness :
  fst <$> fst (main None offline_world "2026-11-04" 0%nat)
  = ["popular_models.json"].
Proof.
  exact (unreadable_page_skips_collection None offline_world "2026-11-04"
           0%nat no_fetch (fun _ => eq_refl) (or_introl eq_refl)).
Defined.

Example findall_sample :
  findall_links sample_html = ["imagen-4-fast"; "flux-2-dev"; "imagen-4-fast"].
Proof. vm_compute. reflexivity. Qed.
Example scrape_sample :
  scrape_page (Got 200 sample_html) =
  [ {| se_model_id := "imagen-4-fast"; se_name := "Imagen 4 Fast" |};
    {| se_model_id := "flux-2-dev"; se_name := "Flux 2 Dev" |} ].
Proof. vm_compute. reflexivity. Qed.
Example title_digits : title "sd3x turbo-XL" = "Sd3X Turbo-Xl".
Proof. reflexivity. Qed.

(** ** The scraper on sample pages

    The entries below are those the two regular expressions of the source
    give on these pages. *)

Example scrape_skips_empty_heading :
  scrape_page 
    (Got 200 ("<a href=" +:+ String dquote ("/models/x" +:+ String dquote "><h3></h3><p>t</p><h3 id=a>Name</h3>")))
  =
  [{| se_model_id := "x"; se_name := "Name" |}].
Proof. vm_compute. reflexivity. Qed.

Example scrape_skips_heading_with_tags :
  scrape_page 
    (Got 200 ("<a href=" +:+ String dquote ("/models/x" +:+ String dquote "><h3>text<b>bold</b></h3><h3>Second</h3>")))
  =
  [{| se_model_id := "x"; se_name := "Second" |}].
Proof. vm_compute. reflexivity. Qed.

Example scrape_ignores_link_with_attributes :
  scrape_page 
    (Got 200 ("<a href=" +:+ String dquote ("/models/x" +:+ String dquote (" class=" +:+ String dquote ("y" +:+ String dquote "><h3>No</h3>")))))
  =
  [].
Proof. vm_compute. reflexivity. Qed.

Example scrape_link_inside_link :
  scrape_page 
    (Got 200 ("<a href=" +:+ String dquote ("/models/<a href=" +:+ String dquote ("/models/y" +:+ String dquote "><h3>Inner</h3>"))))
  =
  [{| se_model_id := "y"; se_name := "Inner" |}].
Proof. vm_compute. reflexivity. Qed.

Example scrape_unclosed_tag :
  scrape_page 
    (Got 200 ("<a href=" +:+ String dquote ("/models/x" +:+ String dquote (">unclosed <b<a href=" +:+ String dquote ("/models/x" +:+ String dquote "><h3>B</h3>")))))
  =
  [{| se_model_id := "x"; se_name := "B" |}].
Proof. vm_compute. reflexivity. Qed.

Example scrape_shared_heading :
  scrape_page 
    (Got 200 ("<a href=" +:+ String dquote ("/models/x" +:+ String dquote ("><a href=" +:+ String dquote ("/models/y" +:+ String dquote "><h3>Shared</h3>")))))
  =
  [{| se_model_id := "x"; se_name := "Shared" |}; {| se_model_id := "y"; se_name := "Shared" |}].
Proof. vm_compute. reflexivity. Qed.

Example scrape_blank_heading :
  scrape_page 
    (Got 200 ("<a href=" +:+ String dquote ("/models/x" +:+ String dquote "><h3>  </h3>")))
  =
  [{| se_model_id := "x"; se_name := "" |}].
Proof. vm_compute. reflexivity. Qed.

Example scrape_text_with_angle :
  scrape_page 
    (Got 200 ("<a href=" +:+ String dquote ("/models/x" +:+ String dquote ">a>b<i>c</i><h3>d>e</h3>")))
  =
  [{| se_model_id := "x"; se_name := "d>e" |}].
Proof. vm_compute. reflexivity. Qed.

Example scrape_heading_in_comment :
  scrape_page 
    (Got 200 ("<a href=" +:+ String dquote ("/models/x" +:+ String dquote "><!-- <h3>comment</h3> -->")))
  =
  [{| se_model_id := "x"; se_name := "X" |}].
Proof. vm_compute. reflexivity. Qed.

